(** * ProgressTracker (src/utils/progressTracking.ts): a shallow embedding

    The TypeScript class [ProgressTracker] talks to a generative model,
    parses its free-text answers, merges the outcome with the previous
    session and keeps a bounded history in [localStorage].

    Conventions of the embedding:
    - a JS string is the list of its UTF-16 code units ([jsstring]);
    - a JS number that the code only ever uses as an integer is a [Z]
      (integers beyond the exact range of a double are not rounded);
    - the JSON text under the storage key is kept as the value it encodes;
    - an [async] method is a computation in the monad [M]: it threads the
      [World] (the stored value and the log of effects) and either returns
      a value or throws;
    - what the environment answers (the model, the clock, whether
      [localStorage.setItem] throws) is a function of the effects so far. *)

From Stdlib Require Import String Ascii.
From Stdlib Require Import List ZArith NArith Arith Lia Bool.
Import ListNotations.

Set Implicit Arguments.

(* ===================================================================== *)
(** ** JS strings as lists of UTF-16 code units *)
(* ===================================================================== *)

(** A JS string: its UTF-16 code units. *)
Abbreviation jsstring := (list N).

Module Js.

(** An ASCII literal of the source as a [jsstring]. *)
Definition lit (s : string) : jsstring :=
  map N_of_ascii (list_ascii_of_string s).
Arguments lit s%_string.

Definition nl : jsstring := [10%N].

Definition in_range (lo hi c : N) : bool := (lo <=? c)%N && (c <=? hi)%N.

(** [\d] *)
Definition is_digit (c : N) : bool := in_range 48 57 c.

(** [\w] is [A-Za-z0-9_]. *)
Definition is_word (c : N) : bool :=
  is_digit c || in_range 65 90 c || in_range 97 122 c || (c =? 95)%N.

(** LineTerminator: LF, CR, LS, PS; [.] matches everything else. *)
Definition is_line_terminator (c : N) : bool :=
  (c =? 10)%N || (c =? 13)%N || (c =? 8232)%N || (c =? 8233)%N.

(** WhiteSpace and LineTerminator: what [\s], [trim] and [parseInt] skip. *)
Definition is_space (c : N) : bool :=
  in_range 9 13 c || (c =? 32)%N || (c =? 160)%N || (c =? 5760)%N
  || in_range 8192 8202 c || (c =? 8232)%N || (c =? 8233)%N
  || (c =? 8239)%N || (c =? 8287)%N || (c =? 12288)%N || (c =? 65279)%N.

Fixpoint eqb (a b : jsstring) : bool :=
  match a, b with
  | [], [] => true
  | x :: a', y :: b' => (x =? y)%N && eqb a' b'
  | _, _ => false
  end.

Fixpoint take_while (p : N -> bool) (s : jsstring) : jsstring :=
  match s with
  | c :: s' => if p c then c :: take_while p s' else []
  | [] => []
  end.

Fixpoint drop_while (p : N -> bool) (s : jsstring) : jsstring :=
  match s with
  | c :: s' => if p c then drop_while p s' else s
  | [] => []
  end.

(** [s.startsWith(p)] *)
Fixpoint starts_with (p s : jsstring) : bool :=
  match p, s with
  | [], _ => true
  | x :: p', y :: s' => (x =? y)%N && starts_with p' s'
  | _ :: _, [] => false
  end.

(** [s.includes(p)] *)
Fixpoint includes (p s : jsstring) : bool :=
  starts_with p s ||
  match s with
  | [] => false
  | _ :: s' => includes p s'
  end.

(** [s.trim()] *)
Definition trim (s : jsstring) : jsstring :=
  rev (drop_while is_space (rev (drop_while is_space s))).

(** [s.split(sep)] for a non-empty separator: the separator is looked for
    from left to right; [skip] counts the code units of a separator that
    was just recognised and [cur] holds the current piece, reversed. *)
Fixpoint split_aux (sep : jsstring) (skip : nat) (cur s : jsstring)
  : list jsstring :=
  match s with
  | [] => [rev cur]
  | c :: s' =>
      match skip with
      | S k => split_aux sep k cur s'
      | O =>
          if starts_with sep s
          then rev cur :: split_aux sep (length sep - 1) [] s'
          else split_aux sep 0 (c :: cur) s'
      end
  end.

Definition split (sep s : jsstring) : list jsstring := split_aux sep 0 [] s.

(** [parts.join(sep)] *)
Fixpoint join (sep : jsstring) (parts : list jsstring) : jsstring :=
  match parts with
  | [] => []
  | [p] => p
  | p :: rest => p ++ sep ++ join sep rest
  end.

(** [s.replace(p, '')] with a string pattern: the first occurrence goes. *)
Fixpoint remove_first (p s : jsstring) : jsstring :=
  if starts_with p s then skipn (length p) s
  else match s with
       | [] => []
       | c :: s' => c :: remove_first p s'
       end.

(** The value of a run of decimal digits. *)
Definition digits_value (ds : jsstring) : Z :=
  fold_left (fun acc c => (10 * acc + (Z.of_N c - 48))%Z) ds 0%Z.

(** [parseInt(s, 10)]: leading white space, an optional sign, then the
    longest run of digits; [None] stands for NaN.  [parseInt(s)] without a
    radix is the same on a string of decimal digits, the only way the
    source calls it. *)
Definition parseInt (s : jsstring) : option Z :=
  let s1 := drop_while is_space s in
  let minus := starts_with [45%N] s1 in
  let plus := starts_with [43%N] s1 in
  let s2 := if minus || plus then tl s1 else s1 in
  match take_while is_digit s2 with
  | [] => None
  | ds => Some (if minus then - digits_value ds else digits_value ds)%Z
  end.

(** [x || 0] on the result of [parseInt]. *)
Definition or_zero (x : option Z) : Z :=
  match x with Some v => v | None => 0%Z end.

(** [s.match(/\d+/g)]: the maximal runs of digits, left to right ([null]
    when there is none is the empty list here: the source goes on with
    [?.slice(0, 5) || []]). *)
Fixpoint digit_runs_aux (cur s : jsstring) : list jsstring :=
  match s with
  | [] => match cur with [] => [] | _ => [rev cur] end
  | c :: s' =>
      if is_digit c then digit_runs_aux (c :: cur) s'
      else match cur with
           | [] => digit_runs_aux [] s'
           | _ => rev cur :: digit_runs_aux [] s'
           end
  end.

Definition match_digits_g (s : jsstring) : list jsstring := digit_runs_aux [] s.

(** [s.match(/<label>(.+)/)?.[1]]: at the leftmost place where the label is
    followed by a code unit that is no line terminator, the capture is the
    rest of that line. *)
Fixpoint match_label_rest (label s : jsstring) : option jsstring :=
  let here :=
    if starts_with label s
    then match take_while (fun c => negb (is_line_terminator c))
                          (skipn (length label) s) with
         | [] => None
         | cap => Some cap
         end
    else None in
  match here with
  | Some cap => Some cap
  | None => match s with
            | [] => None
            | _ :: s' => match_label_rest label s'
            end
  end.

(** [s.match(/<label>(\d+)%/)?.[1]]: the digits are taken greedily and must
    be followed by [%]; giving digits back cannot help, the next code unit
    would be a digit. *)
Fixpoint match_label_percent (label s : jsstring) : option jsstring :=
  let here :=
    if starts_with label s
    then let r := skipn (length label) s in
         match take_while is_digit r with
         | [] => None
         | ds => if starts_with [37%N] (drop_while is_digit r)
                 then Some ds else None
         end
    else None in
  match here with
  | Some ds => Some ds
  | None => match s with
            | [] => None
            | _ :: s' => match_label_percent label s'
            end
  end.

(** One attempt of [/(\w+):\s*(\d+)%/] at the head of [s]: the two captures
    and the length of the match.  Each quantifier takes all it can and no
    shorter choice can succeed (what follows a maximal run of word
    characters, of white space or of digits is not in the class that the
    next piece of the pattern needs after giving one back). *)
Definition match_pair_here (s : jsstring)
  : option (jsstring * jsstring * nat) :=
  match take_while is_word s with
  | [] => None
  | w =>
      match drop_while is_word s with
      | 58%N :: r1 =>
          let sp := take_while is_space r1 in
          let r2 := drop_while is_space r1 in
          match take_while is_digit r2 with
          | [] => None
          | d =>
              if starts_with [37%N] (drop_while is_digit r2)
              then Some (w, d, length w + 1 + length sp + length d + 1)
              else None
          end
      | _ => None
      end
  end.

(** [s.matchAll(/(\w+):\s*(\d+)%/g)]: the search resumes where the last
    match ended; [skip] counts what is left of it. *)
Fixpoint match_pairs_aux (skip : nat) (s : jsstring)
  : list (jsstring * jsstring) :=
  match s with
  | [] => []
  | _ :: s' =>
      match skip with
      | S k => match_pairs_aux k s'
      | O =>
          match match_pair_here s with
          | Some (w, d, len) => (w, d) :: match_pairs_aux (len - 1) s'
          | None => match_pairs_aux 0 s'
          end
      end
  end.

Definition match_pairs_g (s : jsstring) : list (jsstring * jsstring) :=
  match_pairs_aux 0 s.

(** A string is truthy when it is not empty. *)
Definition truthy (s : jsstring) : bool :=
  match s with [] => false | _ => true end.

(** [l.slice(-n)] *)
Definition slice_last {A} (n : nat) (l : list A) : list A :=
  skipn (length l - n) l.

(** [l.slice(i, j)] for [0 <= i <= j] *)
Definition slice {A} (i j : nat) (l : list A) : list A :=
  firstn (j - i) (skipn i l).

(** [l.findIndex(p)], with [None] for [-1]. *)
Fixpoint findIndex {A} (p : A -> bool) (l : list A) : option nat :=
  match l with
  | [] => None
  | x :: l' => if p x then Some 0
               else option_map S (findIndex p l')
  end.

(** [l[i] = f(l[i])] for an index inside the list. *)
Fixpoint update_at {A} (i : nat) (f : A -> A) (l : list A) : list A :=
  match l, i with
  | [], _ => []
  | x :: l', O => f x :: l'
  | x :: l', S i' => x :: update_at i' f l'
  end.

(** [l.map((val, idx) => f(val, idx))], the index starting at [i]. *)
Fixpoint mapi_from {A B} (i : nat) (f : A -> nat -> B) (l : list A) : list B :=
  match l with
  | [] => []
  | x :: l' => f x i :: mapi_from (S i) f l'
  end.

(** [Math.min(100, Math.max(0, x))] *)
Definition clamp (x : Z) : Z := Z.min 100 (Z.max 0 x).

(** [Math.round(s / k)] for integers [s] and [k > 0]: halves go up.  (For
    [k = 0] JS yields NaN or an infinity; no caller under study divides by
    zero and the value here is then Rocq's.) *)
Definition round_div (s k : Z) : Z := ((2 * s + k) / (2 * k))%Z.

End Js.

(* ===================================================================== *)
(** ** Data model (the interfaces at the top of the source) *)
(* ===================================================================== *)

Inductive GoalStatus := NotStarted | InProgress | Achieved.

(** An element of [ProgressData['goals']]. *)
Record Goal := mkGoal {
  goal : jsstring;
  progress : Z;
  status : GoalStatus
}.

Record Improvements := mkImprovements {
  strengths : list jsstring;
  challenges : list jsstring;
  recommendations : list jsstring
}.

Record EmotionData := mkEmotionData {
  em_timestamp : jsstring;
  em_value : Z;
  em_emotion : jsstring
}.

Record DominantEmotion := mkDominantEmotion {
  dom_emotion : jsstring;
  dom_percentage : Z
}.

Record EmotionalJourney := mkEmotionalJourney {
  emotions : list EmotionData;
  dominantEmotions : list DominantEmotion;
  engagementLevel : list Z
}.

Record ProgressData := mkProgressData {
  sessionSummary : jsstring;
  goals : list Goal;
  improvements : Improvements;
  timestamp : jsstring;
  emotionalJourney : EmotionalJourney
}.

(** [keyTopics] and [insights] can end up [undefined] ([None]): the parser
    assigns them the result of an optional chain. *)
Record SessionAnalysis := mkSessionAnalysis {
  emotionalState : jsstring;
  keyTopics : option (list jsstring);
  insights : option (list jsstring)
}.

Record Message := mkMessage {
  text : jsstring;
  msg_timestamp : jsstring;
  isUser : bool
}.

(** What [analyzeGoals] returns for one goal. *)
Record ParsedGoal := mkParsedGoal {
  title : jsstring;
  description : jsstring;
  pg_progress : Z;
  pg_status : GoalStatus
}.

(** What [analyzeEmotions] returns. *)
Record EmotionAnalysis := mkEmotionAnalysis {
  ea_emotions : list EmotionData;
  ea_dominantEmotions : list DominantEmotion
}.

Definition MAX_RETRIES : nat := 3.
Definition RETRY_DELAY : Z := 1000.

(* ===================================================================== *)
(** ** The pure methods *)
(* ===================================================================== *)

Definition determineGoalStatus (progress : Z) : GoalStatus :=
  if (progress >=? 100)%Z then Achieved
  else if (progress >? 0)%Z then InProgress
  else NotStarted.

(** The loop of [mergeGoals] for one new goal.  The source updates the
    entry in place and pushes the new object as it is; the merged array is
    read only through the value returned, so the list of values it holds is
    what can be observed. *)
Definition mergeGoal (mergedGoals : list Goal) (newGoal : Goal) : list Goal :=
  match Js.findIndex (fun g => Js.eqb (goal g) (goal newGoal)) mergedGoals with
  | Some existingGoalIndex =>
      Js.update_at existingGoalIndex
        (fun g =>
           let p := Z.max (progress g) (progress newGoal) in
           mkGoal (goal g) p (determineGoalStatus p))
        mergedGoals
  | None => mergedGoals ++ [newGoal]
  end.

Definition mergeGoals (previousGoals newGoals : list Goal) : list Goal :=
  fold_left mergeGoal newGoals previousGoals.

(** The [for] loop of [splitMessagesIntoSegments]; [fuel] bounds the number
    of rounds ([segments_fuel_enough] shows that the length of the list is
    enough). *)
Fixpoint segments_loop (fuel : nat) (messages : list Message)
    (segmentSize i : nat) : list (list Message) :=
  match fuel with
  | O => []
  | S fuel' =>
      if i <? length messages
      then Js.slice i (i + segmentSize) messages
           :: segments_loop fuel' messages segmentSize (i + segmentSize)
      else []
  end.

(** [Math.ceil(n / 3)] *)
Definition ceil_div3 (n : nat) : nat := (n + 2) / 3.

Definition splitMessagesIntoSegments (messages : list Message)
  : list (list Message) :=
  let segmentSize := ceil_div3 (length messages) in
  segments_loop (length messages) messages segmentSize 0.

Definition averageEngagementLevels (engagementResults : list (list Z))
  : list Z :=
  let summedLevels :=
    fold_left
      (fun acc curr =>
         Js.mapi_from 0 (fun val idx => (val + nth idx curr 0)%Z) acc)
      engagementResults [0; 0; 0; 0; 0]%Z in
  map (fun sum => Js.round_div sum (Z.of_nat (length engagementResults)))
      summedLevels.

(** [while (normalizedRatings.length < 5) normalizedRatings.push(0)]; at
    most five rounds are needed. *)
Fixpoint pad_loop (fuel : nat) (normalizedRatings : list Z) : list Z :=
  match fuel with
  | O => normalizedRatings
  | S fuel' =>
      if length normalizedRatings <? 5
      then pad_loop fuel' (normalizedRatings ++ [0%Z])
      else normalizedRatings
  end.

(** The body of [analyzeEngagement] after the response has arrived. *)
Definition analyzeEngagement_parse (response : jsstring) : list Z :=
  let ratings := firstn 5 (Js.match_digits_g response) in
  let normalizedRatings :=
    map (fun n => Js.clamp (Js.or_zero (Js.parseInt n))) ratings in
  pad_loop 5 normalizedRatings.

(** [section.match(/Status: (not-started|in-progress|achieved)/)?.[1]] *)
Fixpoint match_status (s : jsstring) : option GoalStatus :=
  let here :=
    if Js.starts_with (Js.lit "Status: ") s
    then let r := skipn 8 s in
         if Js.starts_with (Js.lit "not-started") r then Some NotStarted
         else if Js.starts_with (Js.lit "in-progress") r then Some InProgress
         else if Js.starts_with (Js.lit "achieved") r then Some Achieved
         else None
    else None in
  match here with
  | Some st => Some st
  | None => match s with
            | [] => None
            | _ :: s' => match_status s'
            end
  end.

(** One round of the loop of [analyzeGoals]: what the section pushes. *)
Definition analyzeGoals_section (section : jsstring) : list ParsedGoal :=
  let title := Js.match_label_rest (Js.lit "Title: ") section in
  let description := Js.match_label_rest (Js.lit "Description: ") section in
  let progressMatch := Js.match_label_percent (Js.lit "Progress: ") section in
  let statusMatch := match_status section in
  match title, description with
  | Some title, Some description =>
      [ mkParsedGoal
          (Js.trim title)
          (Js.trim description)
          (match progressMatch with
           | Some ds => Js.clamp (Js.or_zero (Js.parseInt ds))
           | None => 0%Z
           end)
          (match statusMatch with
           | Some st => st
           | None => NotStarted
           end) ]
  | _, _ => []
  end.

(** The body of [analyzeGoals] after the response has arrived. *)
Definition analyzeGoals_parse (response : jsstring) : list ParsedGoal :=
  let goalSections := Js.split (Js.nl ++ Js.nl) response in
  flat_map analyzeGoals_section goalSections.

(** One round of [emotionLines.forEach] in [analyzeEmotions]. *)
Definition analyzeEmotions_line (line : jsstring) : list EmotionData :=
  let parts := map Js.trim (Js.split (Js.lit "|") line) in
  match nth_error parts 0, nth_error parts 1, nth_error parts 2 with
  | Some timestamp, Some emotion, Some value =>
      if Js.truthy timestamp && Js.truthy emotion && Js.truthy value
      then [mkEmotionData timestamp (Js.or_zero (Js.parseInt value)) emotion]
      else []
  | _, _, _ => []
  end.

(** The body of [analyzeEmotions] after the response has arrived.  The
    second capture of the distribution pattern is a run of digits, so its
    [parseInt] is a number. *)
Definition analyzeEmotions_parse (response : jsstring) : EmotionAnalysis :=
  let emotionLines :=
    filter (Js.includes (Js.lit "|")) (Js.split Js.nl response) in
  let emotions := flat_map analyzeEmotions_line emotionLines in
  let distributionSection :=
    nth_error (Js.split (Js.lit "Distribution:") response) 1 in
  let dominantEmotions :=
    match distributionSection with
    | Some section =>
        if Js.truthy section
        then map (fun m => mkDominantEmotion (fst m) (Js.or_zero (Js.parseInt (snd m))))
                 (Js.match_pairs_g section)
        else []
    | None => []
    end in
  mkEmotionAnalysis emotions dominantEmotions.

(** [section.replace(label, '').split('\n').filter(...).map(...)] in
    [analyzeImprovements]. *)
Definition bullet_lines (label section : jsstring) : list jsstring :=
  map (fun line => Js.trim (Js.remove_first (Js.lit "-") line))
      (filter (fun line => Js.starts_with (Js.lit "-") (Js.trim line))
              (Js.split Js.nl (Js.remove_first label section))).

(** One round of [sections.forEach] in [analyzeImprovements]. *)
Definition analyzeImprovements_section (improvements : Improvements)
    (section : jsstring) : Improvements :=
  if Js.starts_with (Js.lit "Strengths:") section then
    mkImprovements (bullet_lines (Js.lit "Strengths:") section)
                   (challenges improvements) (recommendations improvements)
  else if Js.starts_with (Js.lit "Challenges:") section then
    mkImprovements (strengths improvements)
                   (bullet_lines (Js.lit "Challenges:") section)
                   (recommendations improvements)
  else if Js.starts_with (Js.lit "Recommendations:") section then
    mkImprovements (strengths improvements) (challenges improvements)
                   (bullet_lines (Js.lit "Recommendations:") section)
  else improvements.

Definition analyzeImprovements_parse (response : jsstring) : Improvements :=
  fold_left analyzeImprovements_section
            (Js.split (Js.nl ++ Js.nl) response)
            (mkImprovements [] [] []).

(** [section.split(':')[1]?.trim()] *)
Definition after_colon (section : jsstring) : option jsstring :=
  option_map Js.trim (nth_error (Js.split (Js.lit ":") section) 1).

(** [section.split(':')[1]?.trim().split('-').map(t => t.trim()).filter(t => t)]:
    the whole chain is [undefined] when the section has no colon. *)
Definition dash_items (section : jsstring) : option (list jsstring) :=
  option_map
    (fun s => filter Js.truthy (map Js.trim (Js.split (Js.lit "-") s)))
    (after_colon section).

Section Parsers.

(** [String.prototype.toLowerCase], a built-in of the runtime. *)
Variable toLowerCase : jsstring -> jsstring.

(** One round of [sections.forEach] in [parseAnalysisResponse]. *)
Definition parseAnalysis_section (analysis : SessionAnalysis)
    (section : jsstring) : SessionAnalysis :=
  if Js.includes (Js.lit "emotional state") (toLowerCase section) then
    mkSessionAnalysis
      (match after_colon section with Some s => s | None => [] end)
      (keyTopics analysis) (insights analysis)
  else if Js.includes (Js.lit "key topics") (toLowerCase section) then
    mkSessionAnalysis (emotionalState analysis) (dash_items section)
                      (insights analysis)
  else if Js.includes (Js.lit "insights") (toLowerCase section) then
    mkSessionAnalysis (emotionalState analysis) (keyTopics analysis)
                      (dash_items section)
  else analysis.

Definition parseAnalysisResponse (text : jsstring) : SessionAnalysis :=
  fold_left parseAnalysis_section
            (Js.split (Js.nl ++ Js.nl) text)
            (mkSessionAnalysis [] (Some []) (Some [])).

End Parsers.

(* ===================================================================== *)
(** ** Effects: the world, failures and the monad of [async] methods *)
(* ===================================================================== *)

(** What can be thrown. *)
Inductive Error :=
| Err (message : string)   (* [new Error(message)] *)
| TypeError                (* a property read on [undefined] or [null] *)
| SyntaxError              (* [JSON.parse], or [getItem] itself, failed *)
| ModelError               (* [generateContent] or [response.text()] failed *)
| StorageError.            (* [localStorage.setItem] failed *)

Inductive Res (A : Type) :=
| Ok (a : A)
| Throw (e : Error).
Arguments Ok {A} a.
Arguments Throw {A} e.

Definition is_ok {A} (r : Res A) : bool :=
  match r with Ok _ => true | Throw _ => false end.

(** The prompts are fixed templates around the conversation; a prompt is
    kept as the method it belongs to and the messages it renders. *)
Inductive Prompt :=
| EmotionPrompt (userMessages : list Message)
| EngagementPrompt (messages : list Message)
| SessionSummaryPrompt (messages : list Message)
| GoalsPrompt (messages : list Message)
| ImprovementsPrompt (messages : list Message)
| SessionPrompt (conversation : list jsstring).

(** An element of the stored JSON array, as [validateProgressData] sees it:
    a record of the right shape, one that fails a check, or one on which
    the check itself throws ([null], or [improvements: null]). *)
Inductive StoredItem :=
| ItemValid (d : ProgressData)
| ItemBadShape
| ItemThrows.

(** What is under [STORAGE_KEY]: nothing (or the empty string), something
    that cannot be read as JSON, JSON that is no array, or an array. *)
Inductive StoredValue :=
| Missing
| Unparsable
| NotArray
| ArrayOf (items : list StoredItem).

Inductive Event :=
| EvGenerate (p : Prompt)                          (* a call of the model *)
| EvGetItem                                        (* [localStorage.getItem] *)
| EvSetItem (data : list ProgressData) (ok : bool) (* [localStorage.setItem] *)
| EvSleep (ms : Z)                                 (* [setTimeout(resolve, ms)] *)
| EvConsoleError (label : string).                 (* [console.error] *)

Record World := mkWorld {
  storage : StoredValue;
  trace : list Event
}.

(** The environment answers as a function of what happened so far. *)
Record Env := mkEnv {
  generateContent : list Event -> Prompt -> option jsstring;
  setItem_throws : list Event -> bool;
  now : list Event -> jsstring;
  toLowerCase : jsstring -> jsstring
}.

Definition M (A : Type) : Type := World -> Res A * World.

Definition ret {A} (a : A) : M A := fun w => (Ok a, w).

Definition throw {A} (e : Error) : M A := fun w => (Throw e, w).

Definition bind {A B} (c : M A) (k : A -> M B) : M B :=
  fun w =>
    match c w with
    | (Ok a, w') => k a w'
    | (Throw e, w') => (Throw e, w')
    end.

(** [try { c } catch (error) { h(error) }] *)
Definition try_catch {A} (c : M A) (h : Error -> M A) : M A :=
  fun w =>
    match c w with
    | (Ok a, w') => (Ok a, w')
    | (Throw e, w') => h e w'
    end.

Definition lift {A} (r : Res A) : M A := fun w => (r, w).

Definition emit (e : Event) : M unit :=
  fun w => (Ok tt, mkWorld (storage w) (trace w ++ [e])).

Declare Scope js_scope.
Delimit Scope js_scope with js.
Notation "x <- c ;; k" := (bind c (fun x => k))
  (at level 61, c at next level, right associativity) : js_scope.
Notation "c ;; k" := (bind c (fun _ => k))
  (at level 61, right associativity) : js_scope.
Local Open Scope js_scope.

Definition console_error (label : string) : M unit :=
  emit (EvConsoleError label).

(** [await new Promise(resolve => setTimeout(resolve, ms))] *)
Definition sleep (ms : Z) : M unit := emit (EvSleep ms).

Fixpoint mapM {A B} (f : A -> M B) (l : list A) : M (list B) :=
  match l with
  | [] => ret []
  | x :: l' => y <- f x ;; ys <- mapM f l' ;; ret (y :: ys)
  end.

(** The argument of [endSession] and [trackProgressWithEmotions] at run
    time: the methods test [Array.isArray(messages)] themselves. *)
Inductive MessagesArg :=
| NotAnArray
| ArrayArg (messages : list Message).

(** [retries] is the default [MAX_RETRIES] at every call of the source and
    only ever counted down to zero. *)
Fixpoint retryOperation {A} (operation : M A) (retries : nat) : M A :=
  try_catch operation
    (fun error =>
       match retries with
       | S retries' =>
           sleep RETRY_DELAY ;;
           retryOperation operation retries'
       | O => throw error
       end).

(** Every check of [validateProgressData] holds on a value of the record
    type; the shapes that fail it are [ItemBadShape] and [ItemThrows]. *)
Definition validateProgressData (data : ProgressData) : bool := true.

Definition validateItem (item : StoredItem) : Res bool :=
  match item with
  | ItemValid d => Ok (validateProgressData d)
  | ItemBadShape => Ok false
  | ItemThrows => Throw TypeError
  end.

(** [parsedData.filter(item => this.validateProgressData(item))] *)
Fixpoint filter_valid (items : list StoredItem) : Res (list ProgressData) :=
  match items with
  | [] => Ok []
  | item :: rest =>
      match validateItem item with
      | Throw e => Throw e
      | Ok keep =>
          match filter_valid rest with
          | Throw e => Throw e
          | Ok l =>
              match item with
              | ItemValid d => Ok (if keep then d :: l else l)
              | _ => Ok l
              end
          end
      end
  end.

Definition generateComprehensiveSummary (currentSummary : jsstring)
    (analysis : SessionAnalysis) : Res jsstring :=
  match keyTopics analysis, insights analysis with
  | Some topics, Some ins =>
      let summaryParts :=
        [ currentSummary;
          Js.nl ++ Js.nl ++ Js.lit "Emotional State: " ++ emotionalState analysis;
          Js.nl ++ Js.lit "Key Topics:" ]
        ++ map (fun topic => Js.lit "- " ++ topic) topics
        ++ [ Js.nl ++ Js.lit "Key Insights:" ]
        ++ map (fun insight => Js.lit "- " ++ insight) ins in
      Ok (Js.trim (Js.join Js.nl summaryParts))
  | _, _ => Throw TypeError
  end.

(* ===================================================================== *)
(** ** The methods of [ProgressTracker] *)
(* ===================================================================== *)

Section Tracker.

Variable env : Env.

(** [(await this.model.generateContent(prompt)).response.text()] *)
Definition model_text (p : Prompt) : M jsstring :=
  fun w =>
    let w' := mkWorld (storage w) (trace w ++ [EvGenerate p]) in
    match generateContent env (trace w) p with
    | Some response => (Ok response, w')
    | None => (Throw ModelError, w')
    end.

(** [localStorage.setItem(STORAGE_KEY, JSON.stringify(data))]: the stored
    text is kept as the array it encodes. *)
Definition localStorage_setItem (data : list ProgressData) : M unit :=
  fun w =>
    if setItem_throws env (trace w)
    then (Throw StorageError,
          mkWorld (storage w) (trace w ++ [EvSetItem data false]))
    else (Ok tt,
          mkWorld (ArrayOf (map ItemValid data))
                  (trace w ++ [EvSetItem data true])).

(** [localStorage.getItem(STORAGE_KEY)], [JSON.parse] and the filter. *)
Definition read_history : M (list ProgressData) :=
  fun w =>
    let w' := mkWorld (storage w) (trace w ++ [EvGetItem]) in
    match storage w with
    | Missing => (Ok [], w')
    | Unparsable => (Throw SyntaxError, w')
    | NotArray => (Ok [], w')
    | ArrayOf items => (filter_valid items, w')
    end.

Definition getProgressHistory : M (list ProgressData) :=
  try_catch read_history
    (fun _ => console_error "Error getting progress history:" ;; ret []).

Definition getLatestProgress : M (option ProgressData) :=
  history <- getProgressHistory ;;
  ret (if 0 <? length history
       then nth_error history (length history - 1)
       else None).

Definition saveProgress (progressData : ProgressData) : M unit :=
  try_catch
    (if negb (validateProgressData progressData)
     then throw (Err "Invalid progress data format")
     else
       existingData <- getProgressHistory ;;
       let updatedData := existingData ++ [progressData] in
       let limitedData := Js.slice_last 50 updatedData in
       retryOperation (localStorage_setItem limitedData) MAX_RETRIES)
    (fun _ =>
       console_error "Error saving progress:" ;;
       throw (Err "Failed to save progress data")).

Definition date_now : M jsstring := fun w => (Ok (now env (trace w)), w).

Definition analyzeEmotions (messages : list Message) : M EmotionAnalysis :=
  let userMessages := filter isUser messages in
  try_catch
    (response <- model_text (EmotionPrompt userMessages) ;;
     ret (analyzeEmotions_parse response))
    (fun _ =>
       console_error "Error analyzing emotions:" ;;
       ret (mkEmotionAnalysis [] [])).

Definition analyzeEngagement (messages : list Message) : M (list Z) :=
  try_catch
    (response <- model_text (EngagementPrompt messages) ;;
     ret (analyzeEngagement_parse response))
    (fun _ =>
       console_error "Error analyzing engagement:" ;;
       ret [0; 0; 0; 0; 0]%Z).

Definition analyzeSessionSummary (messages : list Message) : M jsstring :=
  try_catch
    (summary <- model_text (SessionSummaryPrompt messages) ;;
     ret (Js.trim summary))
    (fun _ =>
       console_error "Error analyzing session summary:" ;;
       ret []).

Definition analyzeGoals (messages : list Message) : M (list ParsedGoal) :=
  try_catch
    (response <- model_text (GoalsPrompt messages) ;;
     ret (analyzeGoals_parse response))
    (fun _ =>
       console_error "Error analyzing goals:" ;;
       ret []).

Definition analyzeImprovements (messages : list Message) : M Improvements :=
  try_catch
    (response <- model_text (ImprovementsPrompt messages) ;;
     ret (analyzeImprovements_parse response))
    (fun _ =>
       console_error "Error analyzing improvements:" ;;
       ret (mkImprovements [] [] [])).

Definition analyzeSession (conversation : list jsstring) : M SessionAnalysis :=
  try_catch
    (text <- model_text (SessionPrompt conversation) ;;
     ret (parseAnalysisResponse (toLowerCase env) text))
    (fun _ =>
       console_error "Error analyzing session:" ;;
       ret (mkSessionAnalysis (Js.lit "Unable to analyze") (Some []) (Some []))).

(** The five analyses of [Promise.all] start in the order of the array, and
    each calls the model before it first suspends; they share nothing else
    and none of them throws (so no retry is interleaved): the calls and the
    results are those of running them one by one. *)
Definition trackProgressWithEmotions (arg : MessagesArg) : M ProgressData :=
  try_catch
    (match arg with
     | NotAnArray => throw (Err "No messages provided for progress tracking")
     | ArrayArg messages =>
         if length messages =? 0
         then throw (Err "No messages provided for progress tracking")
         else
           emotionalAnalysis <- retryOperation (analyzeEmotions messages) MAX_RETRIES ;;
           engagementLevels <- retryOperation (analyzeEngagement messages) MAX_RETRIES ;;
           sessionSummary <- retryOperation (analyzeSessionSummary messages) MAX_RETRIES ;;
           goals <- retryOperation (analyzeGoals messages) MAX_RETRIES ;;
           improvements <- retryOperation (analyzeImprovements messages) MAX_RETRIES ;;
           timestamp <- date_now ;;
           let progressData :=
             mkProgressData
               sessionSummary
               (map (fun g => mkGoal (title g) (pg_progress g)
                                     (determineGoalStatus (pg_progress g)))
                    goals)
               improvements
               timestamp
               (mkEmotionalJourney (ea_emotions emotionalAnalysis)
                                   (ea_dominantEmotions emotionalAnalysis)
                                   engagementLevels) in
           (if validateProgressData progressData
            then saveProgress progressData
            else ret tt) ;;
           ret progressData
     end)
    (fun error =>
       console_error "Error tracking progress with emotions:" ;;
       throw error).

(** The segments are scored like the analyses above: one after the other. *)
Definition calculateEngagementTrend (messages : list Message) : M (list Z) :=
  let segments := splitMessagesIntoSegments messages in
  try_catch
    (engagementResults <- mapM analyzeEngagement segments ;;
     ret (averageEngagementLevels engagementResults))
    (fun _ =>
       console_error "Error calculating engagement trend:" ;;
       ret [0; 0; 0; 0; 0]%Z).

Definition set_goals (p : ProgressData) (g : list Goal) : ProgressData :=
  mkProgressData (sessionSummary p) g (improvements p) (timestamp p)
                 (emotionalJourney p).

Definition set_emotions (p : ProgressData) (e : list EmotionData)
  : ProgressData :=
  mkProgressData (sessionSummary p) (goals p) (improvements p) (timestamp p)
    (mkEmotionalJourney e (dominantEmotions (emotionalJourney p))
                        (engagementLevel (emotionalJourney p))).

Definition set_engagementLevel (p : ProgressData) (l : list Z)
  : ProgressData :=
  mkProgressData (sessionSummary p) (goals p) (improvements p) (timestamp p)
    (mkEmotionalJourney (emotions (emotionalJourney p))
                        (dominantEmotions (emotionalJourney p)) l).

Definition set_sessionSummary (p : ProgressData) (s : jsstring)
  : ProgressData :=
  mkProgressData s (goals p) (improvements p) (timestamp p)
                 (emotionalJourney p).

Definition endSession (arg : MessagesArg) : M ProgressData :=
  try_catch
    (match arg with
     | NotAnArray => throw (Err "No messages provided for session analysis")
     | ArrayArg messages =>
         if length messages =? 0
         then throw (Err "No messages provided for session analysis")
         else
           latestProgress <- getLatestProgress ;;
           finalProgress <- trackProgressWithEmotions (ArrayArg messages) ;;
           let finalProgress :=
             match latestProgress with
             | Some latest =>
                 set_goals finalProgress
                           (mergeGoals (goals latest) (goals finalProgress))
             | None => finalProgress
             end in
           let finalProgress :=
             match latestProgress with
             | Some latest =>
                 set_emotions finalProgress
                   (emotions (emotionalJourney latest)
                    ++ emotions (emotionalJourney finalProgress))
             | None => finalProgress
             end in
           engagementTrend <- calculateEngagementTrend messages ;;
           let finalProgress := set_engagementLevel finalProgress engagementTrend in
           sessionAnalysis <- analyzeSession (map text messages) ;;
           summary <- lift (generateComprehensiveSummary
                              (sessionSummary finalProgress) sessionAnalysis) ;;
           let finalProgress := set_sessionSummary finalProgress summary in
           saveProgress finalProgress ;;
           ret finalProgress
     end)
    (fun error =>
       console_error "Error ending session:" ;;
       throw error).

End Tracker.

(* ===================================================================== *)
(** ** The other methods of the class *)
(* ===================================================================== *)

(** [s.match(/(\d+)%/)?.[1]]: the first run of digits that a [%] follows. *)
Definition match_percent (s : jsstring) : option jsstring :=
  Js.match_label_percent [] s.

(** A loop whose body can throw after it has changed the state: the rounds
    are run until one throws, and the state reached is kept. *)
Fixpoint run_until {S A} (step : S -> A -> S * option Error) (l : list A)
    (s : S) : S * option Error :=
  match l with
  | [] => (s, None)
  | x :: l' =>
      match step s x with
      | (s', None) => run_until step l' s'
      | (s', Some e) => (s', Some e)
      end
  end.

(** [l.map(f)] for an [f] that can throw: the first failure is the result. *)
Fixpoint mapRes {A B} (f : A -> Res B) (l : list A) : Res (list B) :=
  match l with
  | [] => Ok []
  | x :: l' =>
      match f x with
      | Throw e => Throw e
      | Ok y =>
          match mapRes f l' with
          | Throw e => Throw e
          | Ok ys => Ok (y :: ys)
          end
      end
  end.

(** The [Partial<ProgressData>] that [parseProgressResponse] fills. *)
Record PartialProgress := mkPartialProgress {
  pp_sessionSummary : jsstring;
  pp_goals : list Goal;
  pp_improvements : Improvements
}.

(** The callback of [goalLines.map] in [parseProgressResponse]:
    [statusStr.match] throws when the line has no [|]. *)
Definition parseProgress_goalLine (line : jsstring) : Res Goal :=
  let parts := map Js.trim (Js.split (Js.lit "|") line) in
  match nth_error parts 1 with
  | None => Throw TypeError
  | Some statusStr =>
      let progressMatch := match_percent statusStr in
      let progressValue :=
        match progressMatch with
        | Some ds => Js.or_zero (Js.parseInt ds)
        | None => 0%Z
        end in
      Ok (mkGoal (nth 0 parts []) progressValue
                 (determineGoalStatus progressValue))
  end.

(** [line.split(':')[1].split('-').map(s => s.trim()).filter(s => s)] *)
Definition colon_dash_items (line : jsstring) : Res (list jsstring) :=
  match nth_error (Js.split (Js.lit ":") line) 1 with
  | None => Throw TypeError
  | Some s => Ok (filter Js.truthy (map Js.trim (Js.split (Js.lit "-") s)))
  end.

(** [[-•*]] *)
Definition is_bullet (c : N) : bool :=
  (c =? 45)%N || (c =? 8226)%N || (c =? 42)%N.

(** [line.replace(/^[-•*]\s*/, '')] *)
Definition strip_bullet (line : jsstring) : jsstring :=
  match line with
  | c :: rest => if is_bullet c then Js.drop_while Js.is_space rest else line
  | [] => []
  end.

Definition extractBulletPoints (text : jsstring) : list jsstring :=
  filter (fun line => 0 <? length line)
         (map (fun line => Js.trim (strip_bullet line))
              (Js.split Js.nl text)).

Definition extractListItems (sections : list jsstring) (header : jsstring)
  : list jsstring :=
  let section :=
    match find (Js.includes header) sections with
    | Some s => s
    | None => []
    end in
  map (fun line => Js.trim (Js.remove_first (Js.lit "-") line))
      (filter (fun line => Js.starts_with (Js.lit "-") (Js.trim line))
              (Js.split Js.nl section)).

(** [text.split(/\d\./)]: the separators are a digit followed by a dot. *)
Fixpoint split_digit_dot_aux (skip : nat) (cur s : jsstring)
  : list jsstring :=
  match s with
  | [] => [rev cur]
  | c :: s' =>
      match skip with
      | S k => split_digit_dot_aux k cur s'
      | O =>
          if Js.is_digit c && Js.starts_with (Js.lit ".") s'
          then rev cur :: split_digit_dot_aux 1 [] s'
          else split_digit_dot_aux 0 (c :: cur) s'
      end
  end.

Definition split_digit_dot (s : jsstring) : list jsstring :=
  split_digit_dot_aux 0 [] s.

Section MoreParsers.

Variable toLowerCase : jsstring -> jsstring.

(** One round of [lines.forEach] in the improvements section of
    [parseProgressResponse]. *)
Definition parseProgress_improvementLine (improvements : Improvements)
    (line : jsstring) : Improvements * option Error :=
  if Js.includes (Js.lit "strengths:") (toLowerCase line) then
    match colon_dash_items line with
    | Ok l => (mkImprovements l (challenges improvements)
                              (recommendations improvements), None)
    | Throw e => (improvements, Some e)
    end
  else if Js.includes (Js.lit "challenges:") (toLowerCase line) then
    match colon_dash_items line with
    | Ok l => (mkImprovements (strengths improvements) l
                              (recommendations improvements), None)
    | Throw e => (improvements, Some e)
    end
  else if Js.includes (Js.lit "recommendations:") (toLowerCase line) then
    match colon_dash_items line with
    | Ok l => (mkImprovements (strengths improvements)
                              (challenges improvements) l, None)
    | Throw e => (improvements, Some e)
    end
  else (improvements, None).

(** One round of [sections.forEach] in [parseProgressResponse]. *)
Definition parseProgress_section (progress : PartialProgress)
    (section : jsstring) : PartialProgress * option Error :=
  let lines := Js.split Js.nl section in
  let sectionTitle := toLowerCase (nth 0 lines []) in
  if Js.includes (Js.lit "summary") sectionTitle then
    (mkPartialProgress (Js.trim (Js.join (Js.lit " ") (tl lines)))
                       (pp_goals progress) (pp_improvements progress),
     None)
  else if Js.includes (Js.lit "goals") sectionTitle then
    match mapRes parseProgress_goalLine (tl lines) with
    | Ok gs =>
        (mkPartialProgress (pp_sessionSummary progress)
                           (filter (fun g => Js.truthy (goal g)) gs)
                           (pp_improvements progress),
         None)
    | Throw e => (progress, Some e)
    end
  else if Js.includes (Js.lit "improvements") sectionTitle then
    let '(improvements, thrown) :=
      run_until parseProgress_improvementLine (tl lines)
                (pp_improvements progress) in
    (mkPartialProgress (pp_sessionSummary progress) (pp_goals progress)
                       improvements,
     thrown)
  else (progress, None).

(** What [parseProgressResponse] returns, and what its [catch] caught. *)
Definition parseProgressResponse_run (text : jsstring)
  : PartialProgress * option Error :=
  run_until parseProgress_section (Js.split (Js.nl ++ Js.nl) text)
            (mkPartialProgress [] [] (mkImprovements [] [] [])).

Definition parseProgressResponse (text : jsstring) : M PartialProgress :=
  match parseProgressResponse_run text with
  | (progress, None) => ret progress
  | (progress, Some _) =>
      console_error "Error parsing progress:" ;; ret progress
  end.

(** One line of [extractGoals]. *)
Definition extractGoals_line (line : jsstring) : Goal :=
  let status :=
    if Js.includes (Js.lit "achieved") (toLowerCase line) then Achieved
    else if Js.includes (Js.lit "progress") (toLowerCase line) then InProgress
    else NotStarted in
  let progress :=
    match status with
    | Achieved => 100%Z
    | InProgress => 50%Z
    | NotStarted => 0%Z
    end in
  mkGoal (Js.trim (filter (fun c => negb (is_bullet c)) line)) progress status.

Definition extractGoals (text : jsstring) : list Goal :=
  map extractGoals_line
      (filter (fun line => Js.truthy (Js.trim line)) (Js.split Js.nl text)).

End MoreParsers.

Section MoreTracker.

Variable env : Env.

(** The record that the methods below return when the analysis failed. *)
Definition unable_record (timestamp : jsstring) : ProgressData :=
  mkProgressData (Js.lit "Unable to generate session summary") []
                 (mkImprovements [] [] []) timestamp
                 (mkEmotionalJourney [] [] []).

(** [trackProgress]; [model_call] stands for
    [(await this.model.generateContent(prompt)).response.text()] with the
    prompt built from the conversation. *)
Definition trackProgress (model_call : M jsstring) : M ProgressData :=
  try_catch
    (text <- model_call ;;
     progress <- parseProgressResponse (toLowerCase env) text ;;
     timestamp <- date_now env ;;
     ret (mkProgressData
            (if Js.truthy (pp_sessionSummary progress)
             then pp_sessionSummary progress
             else Js.lit "Unable to generate summary")
            (pp_goals progress)
            (pp_improvements progress)
            timestamp
            (mkEmotionalJourney [] [] [])))
    (fun _ =>
       console_error "Error tracking progress:" ;;
       timestamp <- date_now env ;;
       ret (unable_record timestamp)).

(** [sections[i] || ''] *)
Definition section_or_empty (sections : list jsstring) (i : nat) : jsstring :=
  match nth_error sections i with
  | Some s => s
  | None => []
  end.

(** [trackProgressManual], with [model_call] as above. *)
Definition trackProgressManual (model_call : M jsstring) : M ProgressData :=
  try_catch
    (text <- model_call ;;
     let sections := filter Js.truthy (split_digit_dot text) in
     timestamp <- date_now env ;;
     ret (mkProgressData
            (Js.trim (section_or_empty sections 0))
            []
            (mkImprovements
               (extractBulletPoints (section_or_empty sections 2))
               (extractBulletPoints (section_or_empty sections 3))
               (extractBulletPoints (section_or_empty sections 4)))
            timestamp
            (mkEmotionalJourney [] [] [])))
    (fun _ =>
       console_error "Error tracking progress:" ;;
       timestamp <- date_now env ;;
       ret (unable_record timestamp)).

End MoreTracker.

(* ===================================================================== *)
(** ** The vocabulary of the properties *)
(* ===================================================================== *)

(** The status of a progress value inside the range, in the words of the
    specification: 0 is not started, 100 is achieved, the rest is in
    progress. *)
Definition spec_status (q : Z) : GoalStatus :=
  if (q =? 0)%Z then NotStarted
  else if (q =? 100)%Z then Achieved
  else InProgress.

(** The integer a token of the response stands for, brought into range. *)
Definition rating_of_token (t : jsstring) : Z := Js.clamp (Js.digits_value t).

(** The events that reach the model or the store. *)
Definition is_io (e : Event) : bool :=
  match e with
  | EvGenerate _ | EvGetItem | EvSetItem _ _ => true
  | EvSleep _ | EvConsoleError _ => false
  end.

(** The contract of the wrapper in the words of the specification, as a
    relation between the budget, the world at the first invocation, the
    outcomes of the invocations in order, and the final result: a success
    ends the run with its result; a failure with budget left is followed by
    the fixed delay and a run with the budget less one; a failure with no
    budget left is the result, as it is. *)
Inductive Retried {A} (operation : M A)
  : nat -> World -> list (Res A) -> Res A * World -> Prop :=
| Retried_success budget w a w' :
    operation w = (Ok a, w') ->
    Retried operation budget w [Ok a] (Ok a, w')
| Retried_exhausted w e w' :
    operation w = (Throw e, w') ->
    Retried operation 0 w [Throw e] (Throw e, w')
| Retried_again budget w e w' outcomes final :
    operation w = (Throw e, w') ->
    Retried operation budget
            (mkWorld (storage w') (trace w' ++ [EvSleep 1000]))
            outcomes final ->
    Retried operation (S budget) w (Throw e :: outcomes) final.

(** The history that [getProgressHistory] reads from a stored value. *)
Definition stored_history (st : StoredValue) : list ProgressData :=
  match st with
  | ArrayOf items =>
      match filter_valid items with
      | Ok l => l
      | Throw _ => []
      end
  | _ => []
  end.

(** Both field patterns of a block have a match. *)
Definition has_title_and_description (section : jsstring) : Prop :=
  (exists t, Js.match_label_rest (Js.lit "Title: ") section = Some t)
  /\ (exists d, Js.match_label_rest (Js.lit "Description: ") section = Some d).

(** [g.goal === t] *)
Definition has_text (t : jsstring) (g : Goal) : bool := Js.eqb (goal g) t.

(** A prior goal updated with a new goal of the same text. *)
Definition updated_with (n g : Goal) : Goal :=
  mkGoal (goal g) (Z.max (progress g) (progress n))
         (determineGoalStatus (Z.max (progress g) (progress n))).

(** The merge in the words of the specification: every prior goal that a
    new goal matches by its text keeps the larger progress, with the status
    of that progress; the new goals whose text is not in the prior list
    follow, in their order. *)
Definition spec_merge_into (newGoals : list Goal) (g : Goal) : Goal :=
  match find (has_text (goal g)) newGoals with
  | Some n => updated_with n g
  | None => g
  end.

Definition spec_mergeGoals (previousGoals newGoals : list Goal) : list Goal :=
  map (spec_merge_into newGoals) previousGoals
  ++ filter (fun n => negb (existsb (has_text (goal n)) previousGoals))
            newGoals.

(** The prompts sent to the model, in order. *)
Definition generate_prompts (tr : list Event) : list Prompt :=
  flat_map (fun e => match e with EvGenerate p => [p] | _ => [] end) tr.

(** The successful writes of the store, in order. *)
Definition writes (tr : list Event) : list (list ProgressData) :=
  flat_map (fun e => match e with EvSetItem data true => [data] | _ => [] end) tr.

(** The sum of one dimension over the results of the segments. *)
Definition dim_sum (idx : nat) (results : list (list Z)) : Z :=
  fold_right (fun curr acc => (nth idx curr 0 + acc)%Z) 0%Z results.

(* ===================================================================== *)
(** ** A sample session *)
(* ===================================================================== *)

Module Sample.

(** Lower case on the ASCII letters, enough for the sample answers. *)
Definition lower_ascii (s : jsstring) : jsstring :=
  map (fun c => if Js.in_range 65 90 c then (c + 32)%N else c) s.

Definition answer (p : Prompt) : option jsstring :=
  match p with
  | EmotionPrompt _ => Some (Js.lit "10:00|sad|7
Distribution: sad: 80%, joy: 20%")
  | EngagementPrompt _ => Some (Js.lit "85,70,65,75,80")
  | SessionSummaryPrompt _ => Some (Js.lit " 1. Talked about sleep ")
  | GoalsPrompt _ => Some (Js.lit "Title: Sleep better
Description: Keep a regular bedtime
Progress: 70%
Status: in-progress")
  | ImprovementsPrompt _ => Some (Js.lit "Strengths:
- open
- reflective

Challenges:
- late nights")
  | SessionPrompt _ => Some (Js.lit "Emotional State: calm

Key Topics:
- sleep
- work

Insights:
- routine helps")
  end.

Definition env : Env :=
  mkEnv (fun _ p => answer p) (fun _ => false)
        (fun _ => Js.lit "2025-03-01T10:00:00.000Z") lower_ascii.

(** A store that refuses every write. *)
Definition env_full : Env :=
  mkEnv (fun _ p => answer p) (fun _ => true)
        (fun _ => Js.lit "2025-03-01T10:00:00.000Z") lower_ascii.

Definition messages : list Message :=
  [ mkMessage (Js.lit "I sleep badly") (Js.lit "10:00") true;
    mkMessage (Js.lit "Tell me more") (Js.lit "10:01") false ].

Definition record (summary : string) : ProgressData :=
  mkProgressData (Js.lit summary) [] (mkImprovements [] [] [])
                 (Js.lit "2025-02-01T10:00:00.000Z")
                 (mkEmotionalJourney [] [] []).

Definition empty_store : World := mkWorld Missing [].

Definition nine_messages : list Message :=
  map (fun c => mkMessage [c] [] true) [1; 2; 3; 4; 5; 6; 7; 8; 9]%N.

(** A model whose answer depends on how many events came before. *)
Definition env_three : Env :=
  mkEnv (fun tr _ =>
           match length tr with
           | 0 => Some (Js.lit "80,10,20,30,40")
           | 1 => Some (Js.lit "60,10,20,30,41")
           | _ => Some (Js.lit "70,10,21,30,41")
           end)
        (fun _ => false) (fun _ => []) lower_ascii.

(** A store that holds 50 records, the oldest first. *)
Definition full_store : World :=
  mkWorld (ArrayOf (map ItemValid (record "oldest" :: repeat (record "old") 49)))
          [].

End Sample.

(* ===================================================================== *)
(** ** More vocabulary *)
(* ===================================================================== *)

(** The records of the right shape in a stored array, in order. *)
Definition valid_records (items : list StoredItem) : list ProgressData :=
  flat_map (fun item => match item with ItemValid d => [d] | _ => [] end)
           items.

Definition is_throwing (item : StoredItem) : bool :=
  match item with ItemThrows => true | _ => false end.

(** The store holds something that reads as an empty history although it
    is not empty: text that is no JSON, JSON that is no array, or an array
    with an element on which the shape check throws. *)
Definition unreadable (st : StoredValue) : Prop :=
  st = Unparsable \/ st = NotArray
  \/ exists items, st = ArrayOf items /\ In ItemThrows items.

(** [k] failed writes of [data], each followed by the delay. *)
Definition failed_writes (data : list ProgressData) (k : nat) : list Event :=
  concat (repeat [EvSetItem data false; EvSleep RETRY_DELAY] k).

(** The status of a goal is the one its progress determines. *)
Definition consistent (g : Goal) : Prop :=
  status g = determineGoalStatus (progress g).

Definition in_percent (x : Z) : Prop := (0 <= x <= 100)%Z.

(** How a goal of the merged list relates to the goal it comes from: same
    text, no less progress, and a status that stays the one of the
    progress. *)
Definition carried (g g' : Goal) : Prop :=
  goal g' = goal g
  /\ (progress g <= progress g')%Z
  /\ (consistent g -> consistent g').

(** What the aggregator puts in a record: goals with a progress in
    [0, 100] and the status of that progress, and five engagement levels in
    [0, 100]. *)
Definition aggregated (pd : ProgressData) : Prop :=
  Forall (fun g => consistent g /\ in_percent (progress g)) (goals pd)
  /\ length (engagementLevel (emotionalJourney pd)) = 5
  /\ Forall in_percent (engagementLevel (emotionalJourney pd)).

(** The five prompts of the aggregator, in the order of its calls. *)
Definition aggregator_prompts (messages : list Message) : list Prompt :=
  [ EmotionPrompt (filter isUser messages);
    EngagementPrompt messages;
    SessionSummaryPrompt messages;
    GoalsPrompt messages;
    ImprovementsPrompt messages ].

(** The record of a session in terms of its parts: the latest stored
    record, if any, the record of the aggregator, the engagement trend and
    the summary. *)
Definition session_record (latest : option ProgressData)
    (pre : ProgressData) (trend : list Z) (summary : jsstring)
  : ProgressData :=
  mkProgressData
    summary
    (match latest with
     | Some l => mergeGoals (goals l) (goals pre)
     | None => goals pre
     end)
    (improvements pre)
    (timestamp pre)
    (mkEmotionalJourney
       (match latest with
        | Some l => emotions (emotionalJourney l)
                    ++ emotions (emotionalJourney pre)
        | None => emotions (emotionalJourney pre)
        end)
       (dominantEmotions (emotionalJourney pre))
       trend).

(** The world after the [console.error] of the handler of [endSession]. *)
Definition session_failed (w : World) : World :=
  mkWorld (storage w) (trace w ++ [EvConsoleError "Error ending session:"]).

(** The goals of a progress report, as the parser leaves them. *)
Definition report_goal (g : Goal) : Prop :=
  consistent g /\ goal g <> [] /\ (0 <= progress g)%Z.

(** Every goal of every stored record has the status of its progress. *)
Definition store_consistent (st : StoredValue) : Prop :=
  forall d, In d (stored_history st) -> Forall consistent (goals d).

Module MoreSamples.


(** A stored array with a [null] among two records. *)
Definition poisoned_store : World :=
  mkWorld (ArrayOf [ItemValid (Sample.record "first"); ItemThrows;
                    ItemValid (Sample.record "second")])
          [].

(** A record of an earlier session, with two goals and one emotion. *)
Definition earlier_record : ProgressData :=
  mkProgressData (Js.lit "Earlier session")
                 [ mkGoal (Js.lit "Sleep better") 40 InProgress;
                   mkGoal (Js.lit "Exercise") 0 NotStarted ]
                 (mkImprovements [Js.lit "honest"] [] [])
                 (Js.lit "2025-02-01T10:00:00.000Z")
                 (mkEmotionalJourney
                    [mkEmotionData (Js.lit "09:00") 5 (Js.lit "calm")]
                    [] [10; 20; 30; 40; 50]%Z).

(** A store that holds that record alone. *)
Definition one_record_store : World :=
  mkWorld (ArrayOf [ItemValid earlier_record]) [].

End MoreSamples.

(* ===================================================================== *)
(** ** Facts about the string functions *)
(* ===================================================================== *)

Module JsFacts.
Import Js.

Lemma eqb_eq (a b : jsstring) : eqb a b = true <-> a = b.
Proof.
  revert b; induction a as [|x a IH]; intros [|y b]; simpl;
    try (split; [discriminate | discriminate]); try tauto.
  rewrite andb_true_iff, N.eqb_eq, IH.
  split; [intros [-> ->]; reflexivity | intros H; inversion H; auto].
Qed.

Lemma eqb_refl (a : jsstring) : eqb a a = true.
Proof. apply eqb_eq; reflexivity. Qed.

Lemma digit_not_space c : is_digit c = true -> is_space c = false.
Proof.
  unfold is_digit, is_space, in_range.
  rewrite andb_true_iff, !N.leb_le. intros [H1 H2].
  repeat (apply orb_false_iff; split);
    try (apply N.eqb_neq; lia);
    apply andb_false_iff;
    rewrite !N.leb_gt; lia.
Qed.

Lemma take_while_all p s : forallb p s = true -> take_while p s = s.
Proof.
  induction s as [|c s IH]; simpl; auto.
  rewrite andb_true_iff. intros [-> H]. now rewrite IH.
Qed.

Lemma drop_while_all p s : forallb p s = true -> drop_while p s = [].
Proof.
  induction s as [|c s IH]; simpl; auto.
  rewrite andb_true_iff. intros [-> H]. now rewrite IH.
Qed.

Lemma digits_value_app ds c :
  digits_value (ds ++ [c]) = (10 * digits_value ds + (Z.of_N c - 48))%Z.
Proof. unfold digits_value. now rewrite fold_left_app. Qed.

Lemma digits_value_nonneg ds :
  forallb is_digit ds = true -> (0 <= digits_value ds)%Z.
Proof.
  induction ds as [|c ds IH] using rev_ind; intros H.
  - unfold digits_value; simpl; lia.
  - rewrite forallb_app in H. apply andb_true_iff in H as [H1 H2].
    simpl in H2. rewrite andb_true_r in H2.
    unfold is_digit, in_range in H2.
    rewrite andb_true_iff, !N.leb_le in H2.
    rewrite digits_value_app. specialize (IH H1). lia.
Qed.

(** On a non-empty run of digits [parseInt] is the value of the run. *)
Lemma parseInt_digits ds :
  ds <> [] -> forallb is_digit ds = true ->
  parseInt ds = Some (digits_value ds).
Proof.
  destruct ds as [|c ds]; [congruence|]. intros _ H.
  pose proof H as Hall. simpl in H. apply andb_true_iff in H as [Hc Hds].
  unfold parseInt.
  assert (Hd : drop_while is_space (c :: ds) = c :: ds).
  { cbn [drop_while]. now rewrite (digit_not_space c Hc). }
  rewrite Hd.
  assert (Hm : starts_with [45%N] (c :: ds) = false).
  { cbn [starts_with]. rewrite andb_true_r. apply N.eqb_neq.
    unfold is_digit, in_range in Hc.
    rewrite andb_true_iff, !N.leb_le in Hc. lia. }
  assert (Hp : starts_with [43%N] (c :: ds) = false).
  { cbn [starts_with]. rewrite andb_true_r. apply N.eqb_neq.
    unfold is_digit, in_range in Hc.
    rewrite andb_true_iff, !N.leb_le in Hc. lia. }
  rewrite Hm, Hp. cbn [orb].
  rewrite (take_while_all _ _ Hall). reflexivity.
Qed.

Lemma forallb_rev {A} (p : A -> bool) l : forallb p (rev l) = forallb p l.
Proof.
  induction l as [|x l IH]; simpl; auto.
  rewrite forallb_app, IH. simpl. rewrite andb_true_r. apply andb_comm.
Qed.

Lemma rev_cons_not_nil {A} (x : A) l : rev (x :: l) <> [].
Proof.
  intro E. apply (f_equal (@length _)) in E.
  rewrite length_rev in E. discriminate.
Qed.

(** The matches of [/\d+/g] are non-empty runs of digits. *)
Lemma digit_runs_aux_tokens cur s :
  forallb is_digit cur = true ->
  Forall (fun t => t <> [] /\ forallb is_digit t = true)
         (digit_runs_aux cur s).
Proof.
  revert cur; induction s as [|c s IH]; intros cur Hcur; simpl.
  - destruct cur as [|x cur]; constructor; [|constructor].
    split; [apply rev_cons_not_nil | now rewrite forallb_rev].
  - destruct (is_digit c) eqn:Hc.
    + apply IH. simpl. now rewrite Hc.
    + destruct cur as [|x cur]; [now apply IH|].
      constructor; [|now apply IH].
      split; [apply rev_cons_not_nil | now rewrite forallb_rev].
Qed.

Lemma match_digits_g_tokens s :
  Forall (fun t => t <> [] /\ forallb is_digit t = true) (match_digits_g s).
Proof. now apply digit_runs_aux_tokens. Qed.

Lemma clamp_range x : (0 <= clamp x <= 100)%Z.
Proof. unfold clamp. lia. Qed.

Lemma clamp_id x : (0 <= x <= 100)%Z -> clamp x = x.
Proof. unfold clamp. lia. Qed.

End JsFacts.

(* ===================================================================== *)
(** ** Goal status *)
(* ===================================================================== *)

Lemma determineGoalStatus_in_range p :
  (0 <= p <= 100)%Z -> determineGoalStatus p = spec_status p.
Proof.
  intros H. unfold determineGoalStatus, spec_status.
  destruct (Z.geb_spec p 100), (Z.gtb_spec p 0),
           (Z.eqb_spec p 0), (Z.eqb_spec p 100); auto; lia.
Qed.

(** C1: for every integer [p] the derived status is that of [p] clamped to
    [0, 100]: not started iff the clamped value is 0, achieved iff it is
    100, in progress otherwise; 150 is clamped to 100 and is achieved. *)
Theorem determineGoalStatus_clamped (p : Z) :
  determineGoalStatus p = spec_status (Js.clamp p)
  /\ (determineGoalStatus p = NotStarted <-> Js.clamp p = 0%Z)
  /\ (determineGoalStatus p = Achieved <-> Js.clamp p = 100%Z)
  /\ (determineGoalStatus p = InProgress
      <-> Js.clamp p <> 0%Z /\ Js.clamp p <> 100%Z)
  /\ Js.clamp 150 = 100%Z
  /\ determineGoalStatus 150 = Achieved
  /\ determineGoalStatus 0 = NotStarted
  /\ determineGoalStatus 45 = InProgress
  /\ determineGoalStatus 100 = Achieved.
Proof.
  unfold determineGoalStatus, spec_status, Js.clamp.
  destruct (Z.geb_spec p 100), (Z.gtb_spec p 0);
    destruct (Z.eqb_spec (Z.min 100 (Z.max 0 p)) 0);
    destruct (Z.eqb_spec (Z.min 100 (Z.max 0 p)) 100);
    try lia;
    repeat split; try reflexivity; try discriminate; try lia;
    intros; try lia; try congruence; intuition lia.
Qed.

(* ===================================================================== *)
(** ** The engagement parser *)
(* ===================================================================== *)

Lemma pad_loop_closed fuel l :
  5 - length l <= fuel ->
  pad_loop fuel l = l ++ repeat 0%Z (5 - length l).
Proof.
  revert l; induction fuel as [|fuel IH]; intros l H; cbn [pad_loop].
  - replace (5 - length l) with 0 by lia. simpl. now rewrite app_nil_r.
  - destruct (Nat.ltb_spec (length l) 5) as [Hlt|Hge].
    + rewrite IH by (rewrite length_app; cbn [length]; lia).
      rewrite length_app, <- app_assoc. cbn [length].
      replace (5 - length l) with (S (5 - (length l + 1))) by lia.
      reflexivity.
    + replace (5 - length l) with 0 by lia. simpl. now rewrite app_nil_r.
Qed.

Lemma normalized_rating_of_token (toks : list jsstring) :
  Forall (fun t => t <> [] /\ forallb Js.is_digit t = true) toks ->
  map (fun n => Js.clamp (Js.or_zero (Js.parseInt n))) toks
  = map rating_of_token toks.
Proof.
  induction 1 as [|t toks [Hne Hd] _ IH]; simpl; auto.
  rewrite IH. unfold rating_of_token.
  now rewrite (JsFacts.parseInt_digits Hne Hd).
Qed.

Lemma Forall_firstn {A} (P : A -> Prop) n l : Forall P l -> Forall P (firstn n l).
Proof.
  intros H; revert n; induction H; intros [|n]; simpl; constructor; auto.
Qed.

Lemma firstn_repeat_le {A} (x : A) n m :
  n <= m -> firstn n (repeat x m) = repeat x n.
Proof.
  revert m; induction n as [|n IH]; intros [|m] H; simpl; auto; try lia.
  f_equal. apply IH. lia.
Qed.

(** The parser returns the first five tokens, clamped, then zeros. *)
Lemma analyzeEngagement_parse_closed response :
  analyzeEngagement_parse response
  = firstn 5 (map rating_of_token (Js.match_digits_g response)
              ++ repeat 0%Z 5).
Proof.
  unfold analyzeEngagement_parse. cbv zeta.
  pose proof (JsFacts.match_digits_g_tokens response) as Htok.
  set (toks := Js.match_digits_g response) in *.
  rewrite (normalized_rating_of_token (Forall_firstn 5 Htok)).
  rewrite pad_loop_closed by lia.
  rewrite length_map, length_firstn.
  rewrite firstn_app, length_map, <- firstn_map.
  f_equal.
  destruct (Nat.le_gt_cases 5 (length toks)) as [H|H].
  - rewrite Nat.min_l by lia.
    replace (5 - length toks) with 0 by lia. reflexivity.
  - rewrite Nat.min_r by lia.
    now rewrite firstn_repeat_le by lia.
Qed.

Lemma analyzeEngagement_parse_five response :
  length (analyzeEngagement_parse response) = 5
  /\ Forall (fun x => (0 <= x <= 100)%Z) (analyzeEngagement_parse response).
Proof.
  rewrite analyzeEngagement_parse_closed. split.
  - rewrite length_firstn, length_app, repeat_length. lia.
  - apply Forall_firstn, Forall_app. split.
    + apply Forall_map, Forall_forall. intros t _.
      apply JsFacts.clamp_range.
    + apply Forall_forall. intros x Hx. apply repeat_spec in Hx. lia.
Qed.

(** C6: whatever the model answers, and also when the call fails, the
    engagement analysis returns exactly five integers in [0, 100]: the
    first five integer tokens of the answer, each clamped, then zeros;
    five zeros on failure. *)
Theorem analyzeEngagement_five (env : Env) (messages : list Message)
    (w : World) :
  exists l,
    fst (analyzeEngagement env messages w) = Ok l
    /\ length l = 5
    /\ Forall (fun x => (0 <= x <= 100)%Z) l
    /\ l = match generateContent env (trace w) (EngagementPrompt messages) with
           | Some response =>
               firstn 5 (map rating_of_token (Js.match_digits_g response)
                         ++ repeat 0%Z 5)
           | None => [0; 0; 0; 0; 0]%Z
           end.
Proof.
  unfold analyzeEngagement, try_catch, bind, model_text, console_error,
    emit, ret.
  destruct (generateContent env (trace w) (EngagementPrompt messages))
    as [response|]; cbn [fst].
  - exists (analyzeEngagement_parse response).
    destruct (analyzeEngagement_parse_five response) as [Hlen Hrange].
    repeat split; auto. apply analyzeEngagement_parse_closed.
  - exists [0; 0; 0; 0; 0]%Z. repeat split; auto.
    repeat constructor; lia.
Qed.

(* ===================================================================== *)
(** ** Failures of the analyses stay inside *)
(* ===================================================================== *)

(** A body wrapped in [try { ... } catch { console.error(...); return d }]
    does not throw, whatever the body does. *)
Lemma swallow_never_throws {A} (body : M A) (label : string) (d : A) w :
  fst (try_catch body (fun _ => console_error label ;; ret d) w)
  = match fst (body w) with
    | Ok a => Ok a
    | Throw _ => Ok d
    end.
Proof.
  unfold try_catch, bind, console_error, emit, ret.
  destruct (body w) as [[a|e] w']; reflexivity.
Qed.

(** C9: none of the five analyses throws; each returns what its parser
    makes of the answer, and its empty or zero default when the call of
    the model fails. *)
Theorem analyses_never_throw (env : Env) (messages : list Message)
    (w : World) :
  fst (analyzeEmotions env messages w)
  = Ok (match generateContent env (trace w)
                (EmotionPrompt (filter isUser messages)) with
        | Some response => analyzeEmotions_parse response
        | None => mkEmotionAnalysis [] []
        end)
  /\ fst (analyzeEngagement env messages w)
     = Ok (match generateContent env (trace w) (EngagementPrompt messages) with
           | Some response => analyzeEngagement_parse response
           | None => [0; 0; 0; 0; 0]%Z
           end)
  /\ fst (analyzeSessionSummary env messages w)
     = Ok (match generateContent env (trace w)
                   (SessionSummaryPrompt messages) with
           | Some summary => Js.trim summary
           | None => []
           end)
  /\ fst (analyzeGoals env messages w)
     = Ok (match generateContent env (trace w) (GoalsPrompt messages) with
           | Some response => analyzeGoals_parse response
           | None => []
           end)
  /\ fst (analyzeImprovements env messages w)
     = Ok (match generateContent env (trace w)
                   (ImprovementsPrompt messages) with
           | Some response => analyzeImprovements_parse response
           | None => mkImprovements [] [] []
           end).
Proof.
  unfold analyzeEmotions, analyzeEngagement, analyzeSessionSummary,
    analyzeGoals, analyzeImprovements.
  repeat split; rewrite swallow_never_throws;
    unfold bind, model_text, ret;
    match goal with
    | |- context [generateContent env (trace w) ?p] =>
        destruct (generateContent env (trace w) p)
    end; reflexivity.
Qed.

(* ===================================================================== *)
(** ** Validation of the message list *)
(* ===================================================================== *)

(** C7: with an empty list, or a value that is no list, [endSession] and
    [trackProgressWithEmotions] throw the validation failure; the store is
    unchanged and the only effect is the [console.error] of the handler:
    no call of the model, no read and no write of the store. *)
Theorem empty_input_rejected (env : Env) (arg : MessagesArg) (w : World) :
  arg = NotAnArray \/ arg = ArrayArg [] ->
  endSession env arg w
  = (Throw (Err "No messages provided for session analysis"),
     mkWorld (storage w) (trace w ++ [EvConsoleError "Error ending session:"]))
  /\ trackProgressWithEmotions env arg w
     = (Throw (Err "No messages provided for progress tracking"),
        mkWorld (storage w)
          (trace w ++ [EvConsoleError "Error tracking progress with emotions:"]))
  /\ (forall w', w' = snd (endSession env arg w)
                 \/ w' = snd (trackProgressWithEmotions env arg w) ->
        storage w' = storage w
        /\ exists evs, trace w' = trace w ++ evs
                       /\ existsb is_io evs = false).
Proof.
  intros H.
  assert (E1 : endSession env arg w
    = (Throw (Err "No messages provided for session analysis"),
       mkWorld (storage w) (trace w ++ [EvConsoleError "Error ending session:"])))
    by (destruct H; subst; reflexivity).
  assert (E2 : trackProgressWithEmotions env arg w
    = (Throw (Err "No messages provided for progress tracking"),
       mkWorld (storage w)
         (trace w ++ [EvConsoleError "Error tracking progress with emotions:"])))
    by (destruct H; subst; reflexivity).
  repeat split; auto; destruct H0; subst w';
    rewrite ?E1, ?E2; cbn [snd storage trace]; eauto.
Qed.

Lemma empty_input_rejected_witness :
  fst (endSession (mkEnv (fun _ _ => None) (fun _ => false) (fun _ => [])
                         (fun s => s))
                  (ArrayArg []) (mkWorld Missing []))
  = Throw (Err "No messages provided for session analysis").
Proof.
  pose proof (@empty_input_rejected
    (mkEnv (fun _ _ => None) (fun _ => false) (fun _ => []) (fun s => s))
    (ArrayArg []) (mkWorld Missing []) (or_intror eq_refl)) as [E _].
  rewrite E. reflexivity.
Defined.

(* ===================================================================== *)
(** ** The retry wrapper *)
(* ===================================================================== *)

Lemma retryOperation_unfold {A} (operation : M A) retries w :
  retryOperation operation retries w
  = match operation w with
    | (Ok a, w') => (Ok a, w')
    | (Throw e, w') =>
        match retries with
        | S retries' =>
            retryOperation operation retries'
              (mkWorld (storage w') (trace w' ++ [EvSleep RETRY_DELAY]))
        | O => (Throw e, w')
        end
    end.
Proof.
  destruct retries; cbn [retryOperation]; unfold try_catch;
    destruct (operation w) as [[a|e] w']; reflexivity.
Qed.

Lemma retryOperation_Retried {A} (operation : M A) retries :
  forall w, exists outcomes,
    Retried operation retries w outcomes (retryOperation operation retries w)
    /\ 1 <= length outcomes <= S retries
    /\ last outcomes (Throw TypeError)
       = fst (retryOperation operation retries w)
    /\ (is_ok (fst (retryOperation operation retries w)) = false ->
        length outcomes = S retries)
    /\ Forall (fun r => is_ok r = false) (removelast outcomes).
Proof.
  induction retries as [|retries IH]; intros w;
    rewrite retryOperation_unfold;
    destruct (operation w) as [[a|e] w'] eqn:E.
  - exists [Ok a]. repeat split; simpl; auto; try lia; try discriminate.
    now constructor.
  - exists [Throw e]. repeat split; simpl; auto; try lia.
    now constructor.
  - exists [Ok a]. repeat split; simpl; auto; try lia; try discriminate.
    now constructor.
  - destruct (IH (mkWorld (storage w') (trace w' ++ [EvSleep RETRY_DELAY])))
      as (outs & HR & Hlen & Hlast & Hfail & Hall).
    exists (Throw e :: outs).
    destruct outs as [|o outs]; [simpl in Hlen; lia|].
    repeat split.
    + econstructor; eauto.
    + simpl; lia.
    + simpl in *; lia.
    + exact Hlast.
    + intros H. specialize (Hfail H). simpl in *. lia.
    + cbn [removelast]. constructor; auto.
Qed.

(** C8: with the default budget of 3 and the fixed delay of 1000 ms, the
    wrapper invokes the operation, after each failure waits the delay and
    tries again with the budget less one, at most 4 invocations in all;
    the first success is returned, and when all four fail the last failure
    is what is thrown. *)
Theorem retryOperation_contract {A} (operation : M A) (w : World) :
  MAX_RETRIES = 3 /\ RETRY_DELAY = 1000%Z
  /\ exists outcomes,
       Retried operation 3 w outcomes (retryOperation operation MAX_RETRIES w)
       /\ 1 <= length outcomes <= 4
       /\ last outcomes (Throw TypeError)
          = fst (retryOperation operation MAX_RETRIES w)
       /\ Forall (fun r => is_ok r = false) (removelast outcomes)
       /\ (is_ok (fst (retryOperation operation MAX_RETRIES w)) = false ->
           length outcomes = 4).
Proof.
  split; [reflexivity|]. split; [reflexivity|].
  destruct (retryOperation_Retried operation MAX_RETRIES w)
    as (outs & HR & Hlen & Hlast & Hfail & Hall).
  exists outs. repeat split; auto; try apply Hlen.
Qed.

(** A store that refuses every write: four attempts, three delays of
    1000 ms between them, and the failure of the fourth comes out. *)
Example retryOperation_all_fail :
  let env := mkEnv (fun _ _ => None) (fun _ => true) (fun _ => [])
                   (fun s => s) in
  retryOperation (localStorage_setItem env []) MAX_RETRIES (mkWorld Missing [])
  = (Throw StorageError,
     mkWorld Missing
       [EvSetItem [] false; EvSleep 1000; EvSetItem [] false; EvSleep 1000;
        EvSetItem [] false; EvSleep 1000; EvSetItem [] false]).
Proof. reflexivity. Qed.

(** A write that goes through at the third attempt. *)
Example retryOperation_third_succeeds :
  let env := mkEnv (fun _ _ => None) (fun tr => length tr <? 4) (fun _ => [])
                   (fun s => s) in
  retryOperation (localStorage_setItem env []) MAX_RETRIES (mkWorld Missing [])
  = (Ok tt,
     mkWorld (ArrayOf [])
       [EvSetItem [] false; EvSleep 1000; EvSetItem [] false; EvSleep 1000;
        EvSetItem [] true]).
Proof. reflexivity. Qed.

(* ===================================================================== *)
(** ** The local store *)
(* ===================================================================== *)

Lemma filter_valid_ItemValid l : filter_valid (map ItemValid l) = Ok l.
Proof.
  induction l as [|d l IH]; simpl; auto. now rewrite IH.
Qed.

Lemma stored_history_written l :
  stored_history (ArrayOf (map ItemValid l)) = l.
Proof. unfold stored_history. now rewrite filter_valid_ItemValid. Qed.

Lemma getProgressHistory_run w :
  exists evs,
    getProgressHistory w
    = (Ok (stored_history (storage w)), mkWorld (storage w) (trace w ++ evs))
    /\ Forall (fun e => e = EvGetItem \/ exists l, e = EvConsoleError l) evs.
Proof.
  unfold getProgressHistory, try_catch, read_history, bind, console_error,
    emit, ret, stored_history.
  destruct (storage w) as [| | |items] eqn:E; cbn [storage trace].
  - exists [EvGetItem]. split; auto.
  - exists [EvGetItem; EvConsoleError "Error getting progress history:"].
    rewrite <- app_assoc. split; eauto 6.
  - exists [EvGetItem]. split; auto.
  - destruct (filter_valid items).
    + exists [EvGetItem]. split; auto.
    + exists [EvGetItem; EvConsoleError "Error getting progress history:"].
      rewrite <- app_assoc. split; eauto 6.
Qed.

(** The retried write either stores the array or leaves the store alone,
    and every attempt is a [setItem] of that same array. *)
Lemma retry_setItem_run env data retries :
  forall w r w',
    retryOperation (localStorage_setItem env data) retries w = (r, w') ->
    exists evs,
      trace w' = trace w ++ evs
      /\ Forall (fun e => (exists ok, e = EvSetItem data ok)
                          \/ e = EvSleep RETRY_DELAY) evs
      /\ ((r = Ok tt /\ storage w' = ArrayOf (map ItemValid data))
          \/ (r = Throw StorageError /\ storage w' = storage w)).
Proof.
  induction retries as [|retries IH]; intros w r w' H;
    rewrite retryOperation_unfold in H; unfold localStorage_setItem at 1 in H;
    destruct (setItem_throws env (trace w)) eqn:E.
  - inversion H; subst; clear H. cbn [storage trace].
    exists [EvSetItem data false]. repeat split; eauto.
  - inversion H; subst; clear H. cbn [storage trace].
    exists [EvSetItem data true]. repeat split; eauto.
  - apply IH in H. destruct H as (evs & Htr & Hall & Hres).
    cbn [storage trace] in *.
    exists ([EvSetItem data false; EvSleep RETRY_DELAY] ++ evs).
    split; [|split].
    + rewrite Htr, <- !app_assoc. reflexivity.
    + constructor; [eauto|]. constructor; [eauto|]. exact Hall.
    + exact Hres.
  - inversion H; subst; clear H. cbn [storage trace].
    exists [EvSetItem data true]. repeat split; eauto.
Qed.

Lemma slice_last_length {A} n (l : list A) : length (Js.slice_last n l) <= n.
Proof. unfold Js.slice_last. rewrite length_skipn. lia. Qed.

Lemma slice_last_suffix {A} n (l : list A) :
  l = firstn (length l - n) l ++ Js.slice_last n l.
Proof. unfold Js.slice_last. now rewrite firstn_skipn. Qed.

Lemma slice_last_short {A} n (l : list A) :
  length l <= n -> Js.slice_last n l = l.
Proof.
  intros H. unfold Js.slice_last.
  replace (length l - n) with 0 by lia. reflexivity.
Qed.

Lemma slice_last_snoc {A} n (l : list A) x :
  Js.slice_last (S n) (l ++ [x]) = Js.slice_last n l ++ [x].
Proof.
  unfold Js.slice_last. rewrite length_app. cbn [length].
  replace (length l + 1 - S n) with (length l - n) by lia.
  rewrite skipn_app.
  replace (length l - n - length l) with 0 by lia. reflexivity.
Qed.

Lemma slice_last_slice_last {A} n m (l : list A) :
  n <= m -> Js.slice_last n (Js.slice_last m l) = Js.slice_last n l.
Proof.
  intros H. unfold Js.slice_last.
  rewrite length_skipn, skipn_skipn. f_equal. lia.
Qed.

(** Two writes in a row keep the last 50 of the history with both records. *)
Lemma slice_last_twice {A} (l : list A) a b :
  Js.slice_last 50 (Js.slice_last 50 (l ++ [a]) ++ [b])
  = Js.slice_last 50 (l ++ [a; b]).
Proof.
  change (l ++ [a; b]) with (l ++ [a] ++ [b]).
  rewrite app_assoc.
  rewrite (slice_last_snoc 49 (Js.slice_last 50 (l ++ [a])) b).
  rewrite (slice_last_snoc 49 (l ++ [a]) b).
  now rewrite slice_last_slice_last by lia.
Qed.

Lemma saveProgress_run env d w r w' :
  saveProgress env d w = (r, w') ->
  let kept := Js.slice_last 50 (stored_history (storage w) ++ [d]) in
  exists evs,
    trace w' = trace w ++ evs
    /\ Forall (fun e => e = EvGetItem \/ (exists l, e = EvConsoleError l)
                        \/ (exists ok, e = EvSetItem kept ok)
                        \/ e = EvSleep RETRY_DELAY) evs
    /\ ((r = Ok tt /\ storage w' = ArrayOf (map ItemValid kept))
        \/ (r = Throw (Err "Failed to save progress data")
            /\ storage w' = storage w)).
Proof.
  intros H kept.
  unfold saveProgress, try_catch, bind in H. cbn [validateProgressData negb] in H.
  destruct (getProgressHistory_run w) as (evs1 & E1 & Hevs1).
  rewrite E1 in H. fold kept in H.
  destruct (retryOperation (localStorage_setItem env kept) MAX_RETRIES
              (mkWorld (storage w) (trace w ++ evs1))) as [r2 w2] eqn:E2.
  destruct (retry_setItem_run _ _ _ _ E2) as (evs2 & Htr & Hevs2 & Hres).
  cbn [storage trace] in *.
  assert (Hall : Forall (fun e => e = EvGetItem \/ (exists l, e = EvConsoleError l)
                        \/ (exists ok, e = EvSetItem kept ok)
                        \/ e = EvSleep RETRY_DELAY) (evs1 ++ evs2)).
  { apply Forall_app. split.
    - eapply Forall_impl; [|exact Hevs1]. simpl. tauto.
    - eapply Forall_impl; [|exact Hevs2]. simpl. tauto. }
  destruct Hres as [[-> Hst]|[-> Hst]].
  - inversion H; subst; clear H.
    exists (evs1 ++ evs2). rewrite Htr, app_assoc. auto.
  - unfold console_error, emit, throw in H. cbn [storage trace] in H.
    inversion H; subst; clear H. cbn [storage trace].
    exists ((evs1 ++ evs2) ++ [EvConsoleError "Error saving progress:"]).
    rewrite Htr, !app_assoc. split; [reflexivity|]. split; [|auto].
    apply Forall_app. split; auto. constructor; [|constructor]. eauto.
Qed.

Lemma retryOperation_first_try {A} (operation : M A) retries w :
  is_ok (fst (operation w)) = true ->
  retryOperation operation retries w = operation w.
Proof.
  rewrite retryOperation_unfold.
  destruct (operation w) as [[a|e] w']; simpl; [reflexivity|discriminate].
Qed.

(** When the store takes the write, [saveProgress] succeeds. *)
Lemma saveProgress_succeeds env d w :
  (forall tr, setItem_throws env tr = false) ->
  fst (saveProgress env d w) = Ok tt.
Proof.
  intros Hq.
  unfold saveProgress, try_catch, bind. cbn [validateProgressData negb].
  destruct (getProgressHistory_run w) as (evs1 & E1 & _). rewrite E1.
  rewrite retryOperation_first_try;
    unfold localStorage_setItem; rewrite Hq; reflexivity.
Qed.

(** C4: a write appends the record to the history read from the store and
    keeps the last 50 entries, the oldest going first: what is stored has
    at most 50 records, and a 51st record evicts the oldest.  (A write that
    fails after its retries leaves the store as it was.) *)
Theorem saveProgress_keeps_last_50 (env : Env) (d : ProgressData) (w : World) :
  let history := stored_history (storage w) in
  let kept := Js.slice_last 50 (history ++ [d]) in
  let r := fst (saveProgress env d w) in
  let w' := snd (saveProgress env d w) in
  length kept <= 50
  /\ history ++ [d] = firstn (length history + 1 - 50) (history ++ [d]) ++ kept
  /\ kept = Js.slice_last 49 history ++ [d]
  /\ (length history = 50 -> kept = tl history ++ [d])
  /\ ((r = Ok tt /\ storage w' = ArrayOf (map ItemValid kept)
       /\ stored_history (storage w') = kept)
      \/ (r = Throw (Err "Failed to save progress data")
          /\ storage w' = storage w))
  /\ (length history <= 50 -> length (stored_history (storage w')) <= 50)
  /\ ((forall tr, setItem_throws env tr = false) -> r = Ok tt).
Proof.
  intros history kept r w'.
  assert (Hk : kept = Js.slice_last 49 history ++ [d])
    by apply slice_last_snoc.
  assert (Hres : (r = Ok tt /\ storage w' = ArrayOf (map ItemValid kept)
       /\ stored_history (storage w') = kept)
      \/ (r = Throw (Err "Failed to save progress data")
          /\ storage w' = storage w)).
  { subst r w'. destruct (saveProgress env d w) as [r w'] eqn:E.
    destruct (saveProgress_run _ _ _ E) as (evs & _ & _ & [[-> Hst]|[-> Hst]]);
      cbn [fst snd]; [left|right]; repeat split; auto.
    rewrite Hst. apply stored_history_written. }
  repeat split.
  - apply slice_last_length.
  - pose proof (slice_last_suffix 50 (history ++ [d])) as H.
    rewrite length_app in H. exact H.
  - exact Hk.
  - intros H50. rewrite Hk. f_equal. unfold Js.slice_last. rewrite H50.
    destruct history; [discriminate|reflexivity].
  - exact Hres.
  - intros Hle. destruct Hres as [(_ & _ & ->)|(_ & ->)].
    + apply slice_last_length.
    + exact Hle.
  - apply saveProgress_succeeds.
Qed.

(* ===================================================================== *)
(** ** The goal-list parser *)
(* ===================================================================== *)

Lemma starts_with_app p q s :
  Js.starts_with (p ++ q) s = true -> Js.starts_with p s = true.
Proof.
  revert s; induction p as [|x p IH]; intros [|y s]; simpl; auto;
    try discriminate.
  rewrite !andb_true_iff. intros [-> H]. auto.
Qed.

Lemma includes_app p q s :
  Js.includes (p ++ q) s = true -> Js.includes p s = true.
Proof.
  induction s as [|c s IH]; cbn [Js.includes]; rewrite !orb_true_iff.
  - intros [H|H]; [left; eapply starts_with_app; eauto | discriminate].
  - intros [H|H]; [left; eapply starts_with_app; eauto | right; auto].
Qed.

Lemma match_label_rest_includes label s cap :
  Js.match_label_rest label s = Some cap -> Js.includes label s = true.
Proof.
  induction s as [|c s IH]; cbn [Js.match_label_rest Js.includes];
    destruct (Js.starts_with label _) eqn:E; auto; try discriminate.
Qed.

Lemma match_label_rest_nonempty label s cap :
  Js.match_label_rest label s = Some cap -> cap <> [].
Proof.
  induction s as [|c s IH]; cbn [Js.match_label_rest];
    destruct (Js.starts_with label _);
    try destruct (Js.take_while _ _) eqn:E;
    intros H; inversion H; subst; auto; discriminate.
Qed.

Lemma take_while_forallb p s : forallb p (Js.take_while p s) = true.
Proof.
  induction s as [|c s IH]; simpl; auto.
  destruct (p c) eqn:E; simpl; auto. now rewrite E.
Qed.

Lemma match_label_percent_digits label s ds :
  Js.match_label_percent label s = Some ds ->
  ds <> [] /\ forallb Js.is_digit ds = true.
Proof.
  induction s as [|c s IH]; cbn [Js.match_label_percent];
    destruct (Js.starts_with label _); auto; try discriminate;
    cbv zeta;
    destruct (Js.take_while Js.is_digit (skipn (length label) _)) eqn:E;
    auto; try discriminate;
    destruct (Js.starts_with [37%N] _); auto; try discriminate;
    intros H; inversion H; subst; rewrite <- E;
    (split; [rewrite E; discriminate | apply take_while_forallb]).
Qed.

Lemma match_status_includes s st :
  match_status s = Some st -> Js.includes (Js.lit "Status: ") s = true.
Proof.
  induction s as [|c s IH]; cbn [match_status Js.includes];
    destruct (Js.starts_with (Js.lit "Status: ") _) eqn:E; auto;
    try discriminate.
Qed.

Lemma analyzeGoals_section_cases section :
  match Js.match_label_rest (Js.lit "Title: ") section,
        Js.match_label_rest (Js.lit "Description: ") section with
  | Some t, Some d =>
      exists p st,
        analyzeGoals_section section
        = [mkParsedGoal (Js.trim t) (Js.trim d) p st]
        /\ (0 <= p <= 100)%Z
        /\ p = match Js.match_label_percent (Js.lit "Progress: ") section with
               | Some ds => Js.clamp (Js.digits_value ds)
               | None => 0%Z
               end
        /\ st = match match_status section with
                | Some st' => st'
                | None => NotStarted
                end
  | _, _ => analyzeGoals_section section = []
  end.
Proof.
  unfold analyzeGoals_section.
  destruct (Js.match_label_rest (Js.lit "Title: ") section) as [t|];
    [|reflexivity].
  destruct (Js.match_label_rest (Js.lit "Description: ") section) as [d|];
    [|reflexivity].
  eexists _, _. split; [reflexivity|].
  destruct (Js.match_label_percent (Js.lit "Progress: ") section) as [ds|] eqn:E.
  - destruct (match_label_percent_digits _ _ E) as [Hne Hd].
    rewrite (JsFacts.parseInt_digits Hne Hd). cbn [Js.or_zero].
    split; [apply JsFacts.clamp_range|]. split; reflexivity.
  - split; [lia|]. split; reflexivity.
Qed.

(** C5: the goals are parsed block by block; a block without a
    [Description:] field gives no goal, even when it has a title (a block
    gives a goal exactly when both the title and the description pattern
    match); the progress of a goal is in [0, 100], and its status is
    not-started when the status pattern has no match in the block. *)
Theorem analyzeGoals_parse_spec (response : jsstring) :
  analyzeGoals_parse response
  = flat_map analyzeGoals_section (Js.split (Js.nl ++ Js.nl) response)
  /\ (forall section,
        Js.includes (Js.lit "Description:") section = false ->
        analyzeGoals_section section = [])
  /\ (forall section,
        analyzeGoals_section section <> []
        <-> has_title_and_description section)
  /\ (forall section, length (analyzeGoals_section section) <= 1)
  /\ (forall g, In g (analyzeGoals_parse response) ->
        (0 <= pg_progress g <= 100)%Z)
  /\ (forall section g,
        In g (analyzeGoals_section section) ->
        pg_progress g
        = match Js.match_label_percent (Js.lit "Progress: ") section with
          | Some ds => Js.clamp (Js.digits_value ds)
          | None => 0%Z
          end
        /\ (match_status section = None -> pg_status g = NotStarted)
        /\ (Js.includes (Js.lit "Status: ") section = false ->
            pg_status g = NotStarted))
  /\ analyzeGoals_parse (Js.lit "Title: Sleep better
Progress: 40%
Status: in-progress") = []
  /\ map pg_status (analyzeGoals_parse (Js.lit "Title: Sleep better
Description: rest
Status: done")) = [NotStarted].
Proof.
  split; [reflexivity|].
  split.
  { intros section H. pose proof (analyzeGoals_section_cases section) as C.
    destruct (Js.match_label_rest (Js.lit "Title: ") section); auto.
    destruct (Js.match_label_rest (Js.lit "Description: ") section) eqn:E; auto.
    apply match_label_rest_includes in E.
    change (Js.lit "Description: ") with (Js.lit "Description:" ++ Js.lit " ") in E.
    apply includes_app in E. congruence. }
  split.
  { intros section. unfold has_title_and_description.
    pose proof (analyzeGoals_section_cases section) as C.
    destruct (Js.match_label_rest (Js.lit "Title: ") section) as [t|].
    - destruct (Js.match_label_rest (Js.lit "Description: ") section) as [d|].
      + destruct C as (p & st & -> & _). split; eauto. discriminate.
      + rewrite C. split; [congruence|]. intros [_ [d Hd]]. discriminate.
    - rewrite C. split; [congruence|]. intros [[t Ht] _]. discriminate. }
  split.
  { intros section. pose proof (analyzeGoals_section_cases section) as C.
    destruct (Js.match_label_rest (Js.lit "Title: ") section);
      [destruct (Js.match_label_rest (Js.lit "Description: ") section)|];
      [destruct C as (p & st & -> & _)|rewrite C..]; simpl; lia. }
  assert (Hsec : forall section g,
        In g (analyzeGoals_section section) ->
        (0 <= pg_progress g <= 100)%Z
        /\ pg_progress g
        = match Js.match_label_percent (Js.lit "Progress: ") section with
          | Some ds => Js.clamp (Js.digits_value ds)
          | None => 0%Z
          end
        /\ (match_status section = None -> pg_status g = NotStarted)).
  { intros section g Hin.
    pose proof (analyzeGoals_section_cases section) as C.
    destruct (Js.match_label_rest (Js.lit "Title: ") section);
      [destruct (Js.match_label_rest (Js.lit "Description: ") section)|];
      [destruct C as (p & st & E & Hp & Hpe & Hst)|rewrite C in Hin..];
      try contradiction.
    rewrite E in Hin. destruct Hin as [<-|[]]. cbn [pg_progress pg_status].
    split; [exact Hp|]. split; [exact Hpe|].
    intros Hn. now rewrite Hst, Hn. }
  split.
  { intros g Hin. unfold analyzeGoals_parse in Hin.
    apply in_flat_map in Hin as (section & _ & Hin).
    now apply Hsec in Hin. }
  split.
  { intros section g Hin. destruct (Hsec _ _ Hin) as (_ & Hp & Hst).
    repeat split; auto. intros Hinc. apply Hst.
    destruct (match_status section) eqn:E; auto.
    apply match_status_includes in E. congruence. }
  split; vm_compute; reflexivity.
Qed.

(* ===================================================================== *)
(** ** Merging goals *)
(* ===================================================================== *)

Lemma has_text_true t g : has_text t g = true <-> goal g = t.
Proof. apply JsFacts.eqb_eq. Qed.

Lemma has_text_false t g : has_text t g = false <-> goal g <> t.
Proof.
  rewrite <- has_text_true. destruct (has_text t g); split; congruence.
Qed.

Lemma existsb_has_text t l :
  existsb (has_text t) l = true <-> In t (map goal l).
Proof.
  rewrite existsb_exists, in_map_iff.
  split; intros (g & H1 & H2); exists g.
  - apply has_text_true in H2. auto.
  - split; auto. now apply has_text_true.
Qed.

Lemma existsb_has_text_false t l :
  existsb (has_text t) l = false <-> ~ In t (map goal l).
Proof.
  rewrite <- existsb_has_text.
  destruct (existsb (has_text t) l); split; congruence.
Qed.

Lemma find_has_text_none t l :
  ~ In t (map goal l) -> find (has_text t) l = None.
Proof.
  intros H. destruct (find (has_text t) l) as [g|] eqn:E; auto.
  apply find_some in E as [Hin Ht]. exfalso. apply H.
  apply existsb_has_text. apply existsb_exists. eauto.
Qed.

Lemma findIndex_none {A} (p : A -> bool) l :
  Js.findIndex p l = None <-> existsb p l = false.
Proof.
  induction l as [|x l IH]; simpl; [tauto|].
  destruct (p x); simpl; [split; discriminate|].
  rewrite <- IH. destruct (Js.findIndex p l); simpl; split; congruence.
Qed.

Lemma map_unless_found {A} (p : A -> bool) f l :
  existsb p l = false -> map (fun g => if p g then f g else g) l = l.
Proof.
  intros H. rewrite <- (map_id l) at 2. apply map_ext_in. intros g Hg.
  destruct (p g) eqn:E; auto.
  assert (existsb p l = true) by (apply existsb_exists; eauto). congruence.
Qed.

(** With no repeated text, the entry found is the only one that matches. *)
Lemma update_at_found t f l i :
  NoDup (map goal l) ->
  Js.findIndex (has_text t) l = Some i ->
  Js.update_at i f l = map (fun g => if has_text t g then f g else g) l.
Proof.
  revert i; induction l as [|x l IH]; intros i Hnd H; [discriminate|].
  inversion Hnd as [|? ? Hx Hnd']; subst.
  cbn [Js.findIndex] in H. cbn [map].
  destruct (has_text t x) eqn:E.
  - inversion H; subst. cbn [Js.update_at]. f_equal.
    apply has_text_true in E. subst t.
    symmetry. apply map_unless_found.
    now apply existsb_has_text_false.
  - destruct (Js.findIndex (has_text t) l) as [j|] eqn:F; [|discriminate].
    inversion H; subst. cbn [Js.update_at]. f_equal. now apply IH.
Qed.

(** One round of the merge when no text is repeated in the list so far. *)
Lemma mergeGoal_step mergedGoals n :
  NoDup (map goal mergedGoals) ->
  mergeGoal mergedGoals n
  = map (fun g => if has_text (goal n) g then updated_with n g else g)
        mergedGoals
    ++ (if existsb (has_text (goal n)) mergedGoals then [] else [n]).
Proof.
  intros Hnd. unfold mergeGoal.
  change (fun g : Goal => Js.eqb (goal g) (goal n)) with (has_text (goal n)).
  destruct (Js.findIndex (has_text (goal n)) mergedGoals) as [i|] eqn:F.
  - rewrite (@update_at_found (goal n) _ mergedGoals i Hnd F).
    assert (E : existsb (has_text (goal n)) mergedGoals = true).
    { destruct (existsb _ _) eqn:E; auto.
      apply findIndex_none in E. congruence. }
    rewrite E, app_nil_r. reflexivity.
  - apply findIndex_none in F. rewrite F.
    now rewrite map_unless_found.
Qed.

Lemma map_goal_step n l :
  map goal (map (fun g => if has_text (goal n) g then updated_with n g else g) l)
  = map goal l.
Proof.
  rewrite map_map. apply map_ext. intros g.
  destruct (has_text (goal n) g); reflexivity.
Qed.

Lemma mergeGoals_no_repeats newGoals :
  forall previousGoals,
    NoDup (map goal previousGoals) ->
    NoDup (map goal newGoals) ->
    mergeGoals previousGoals newGoals
    = spec_mergeGoals previousGoals newGoals.
Proof.
  induction newGoals as [|n new IH]; intros prior Hp Hn.
  - unfold mergeGoals, spec_mergeGoals. simpl.
    rewrite app_nil_r, <- (map_id prior) at 1. reflexivity.
  - inversion Hn as [|? ? Hfresh Hn']; subst.
    unfold mergeGoals. cbn [fold_left]. fold (mergeGoals (mergeGoal prior n) new).
    rewrite (@mergeGoal_step prior n Hp).
    set (stepped := map _ prior).
    set (tail := if existsb (has_text (goal n)) prior then [] else [n]).
    assert (Htexts : map goal (stepped ++ tail)
                     = map goal prior ++ map goal tail).
    { rewrite map_app. unfold stepped. now rewrite map_goal_step. }
    rewrite IH; auto.
    2:{ rewrite Htexts. subst tail.
        destruct (existsb (has_text (goal n)) prior) eqn:E; simpl.
        - now rewrite app_nil_r.
        - apply existsb_has_text_false in E.
          apply NoDup_app; auto.
          + repeat constructor. simpl. tauto.
          + intros t Ht [<-|[]]. contradiction. }
    unfold spec_mergeGoals.
    rewrite map_app, <- app_assoc. f_equal.
    + unfold stepped. rewrite map_map. apply map_ext. intros g.
      unfold spec_merge_into. cbn [find].
      destruct (has_text (goal g) n) eqn:E.
      * apply has_text_true in E.
        assert (E' : has_text (goal n) g = true) by now apply has_text_true.
        rewrite E'. cbn [updated_with goal]. rewrite <- E.
        now rewrite (@find_has_text_none _ _ Hfresh).
      * apply has_text_false in E.
        assert (E' : has_text (goal n) g = false)
          by (apply has_text_false; congruence).
        now rewrite E'.
    + cbn [filter].
      assert (Hfilter :
        filter (fun m => negb (existsb (has_text (goal m)) (stepped ++ tail))) new
        = filter (fun m => negb (existsb (has_text (goal m)) prior)) new).
      { apply filter_ext_in. intros m Hm. f_equal.
        assert (Hmn : goal m <> goal n).
        { intros Heq. apply Hfresh. rewrite <- Heq. now apply in_map. }
        destruct (existsb (has_text (goal m)) prior) eqn:E.
        - apply existsb_has_text. rewrite Htexts. apply in_or_app. left.
          now apply existsb_has_text.
        - apply existsb_has_text_false. rewrite Htexts. intros Hin.
          apply in_app_or in Hin as [Hin|Hin].
          + apply existsb_has_text_false in E. contradiction.
          + subst tail. destruct (existsb (has_text (goal n)) prior);
              simpl in Hin; intuition congruence. }
      rewrite Hfilter. subst tail.
      destruct (existsb (has_text (goal n)) prior); simpl; auto.
      unfold spec_merge_into.
      now rewrite (@find_has_text_none _ _ Hfresh).
Qed.

(** C3, as stated, fails when a text is repeated among the new goals: the
    second goal below has a text that is not in the (empty) prior list, yet
    it is not appended; it is merged into the entry appended for the
    first. *)
Lemma mergeGoals_repeated_text_not_appended :
  let a := mkGoal (Js.lit "Exercise") 30 InProgress in
  let b := mkGoal (Js.lit "Exercise") 20 InProgress in
  existsb (has_text (goal b)) [] = false
  /\ mergeGoals [] [a; b] = [a]
  /\ ~ In b (mergeGoals [] [a; b])
  /\ mergeGoals [] [a; b] <> spec_mergeGoals [] [a; b].
Proof.
  cbv zeta. split; [reflexivity|]. split; [reflexivity|].
  split.
  - change (mergeGoals [] [mkGoal (Js.lit "Exercise") 30 InProgress;
                            mkGoal (Js.lit "Exercise") 20 InProgress])
      with [mkGoal (Js.lit "Exercise") 30 InProgress].
    intros [H|[]]. discriminate.
  - vm_compute. discriminate.
Qed.

(** Likewise, of two prior goals with the same text only the first is
    updated. *)
Example mergeGoals_repeated_prior_text :
  mergeGoals [mkGoal (Js.lit "Exercise") 40 InProgress;
              mkGoal (Js.lit "Exercise") 10 InProgress]
             [mkGoal (Js.lit "Exercise") 70 InProgress]
  = [mkGoal (Js.lit "Exercise") 70 InProgress;
     mkGoal (Js.lit "Exercise") 10 InProgress].
Proof. reflexivity. Qed.

Lemma filter_map_swap {A B} (f : A -> B) (p : B -> bool) l :
  filter p (map f l) = map f (filter (fun x => p (f x)) l).
Proof.
  induction l as [|x l IH]; simpl; auto.
  destruct (p (f x)); simpl; now rewrite IH.
Qed.

(** C3, amended: goals are matched by exact equality of their texts, and
    when no text is repeated inside the prior list or inside the new list,
    every matched prior goal keeps the larger of the two progress values
    with the status of that progress, and the new goals whose text is not
    in the prior list follow the prior goals. *)
Theorem mergeGoals_spec (previousGoals newGoals : list Goal) :
  NoDup (map goal previousGoals) ->
  NoDup (map goal newGoals) ->
  mergeGoals previousGoals newGoals = spec_mergeGoals previousGoals newGoals
  /\ map goal (mergeGoals previousGoals newGoals)
     = map goal previousGoals
       ++ filter (fun t => negb (existsb (Js.eqb t) (map goal previousGoals)))
                 (map goal newGoals)
  /\ (forall t g, has_text t g = true <-> goal g = t).
Proof.
  intros Hp Hn. rewrite (@mergeGoals_no_repeats newGoals previousGoals Hp Hn).
  split; [reflexivity|]. split; [|apply has_text_true].
  unfold spec_mergeGoals. rewrite map_app. f_equal.
  - rewrite map_map. apply map_ext. intros g. unfold spec_merge_into.
    destruct (find _ newGoals); reflexivity.
  - rewrite filter_map_swap. f_equal. apply filter_ext. intros n. f_equal.
    clear. induction previousGoals as [|g l IH]; simpl; auto.
    rewrite IH. f_equal. unfold has_text.
    destruct (Js.eqb (goal g) (goal n)) eqn:E1,
             (Js.eqb (goal n) (goal g)) eqn:E2; auto.
    + apply JsFacts.eqb_eq in E1. rewrite E1, JsFacts.eqb_refl in E2.
      discriminate.
    + apply JsFacts.eqb_eq in E2. rewrite E2, JsFacts.eqb_refl in E1.
      discriminate.
Qed.

(** The example of the specification. *)
Lemma mergeGoals_spec_witness :
  mergeGoals [mkGoal (Js.lit "Sleep better") 40 InProgress]
             [mkGoal (Js.lit "Sleep better") 70 InProgress;
              mkGoal (Js.lit "Exercise") 20 InProgress]
  = [mkGoal (Js.lit "Sleep better") 70 InProgress;
     mkGoal (Js.lit "Exercise") 20 InProgress].
Proof.
  refine (eq_trans (proj1 (@mergeGoals_spec
            [mkGoal (Js.lit "Sleep better") 40 InProgress]
            [mkGoal (Js.lit "Sleep better") 70 InProgress;
             mkGoal (Js.lit "Exercise") 20 InProgress] _ _)) _).
  - repeat constructor; simpl; tauto.
  - repeat constructor; simpl; intuition discriminate.
  - reflexivity.
Defined.

(* ===================================================================== *)
(** ** The engagement trend *)
(* ===================================================================== *)

Section Segments.

Variable messages : list Message.
Variable segmentSize : nat.
Hypothesis segmentSize_pos : 1 <= segmentSize.

(** The loop ends: fuel beyond the messages left changes nothing. *)
Lemma segments_fuel_enough fuel :
  forall i,
    length messages - i <= fuel ->
    segments_loop (S fuel) messages segmentSize i
    = segments_loop fuel messages segmentSize i.
Proof.
  induction fuel as [|fuel IH]; intros i H.
  - cbn [segments_loop].
    destruct (Nat.ltb_spec i (length messages)); [lia|reflexivity].
  - change (segments_loop (S (S fuel)) messages segmentSize i)
      with (if i <? length messages
            then Js.slice i (i + segmentSize) messages
                 :: segments_loop (S fuel) messages segmentSize (i + segmentSize)
            else []).
    cbn [segments_loop].
    destruct (Nat.ltb_spec i (length messages)); [|reflexivity].
    f_equal. apply IH. lia.
Qed.

Lemma slice_segment i :
  Js.slice i (i + segmentSize) messages = firstn segmentSize (skipn i messages).
Proof. unfold Js.slice. f_equal. lia. Qed.

Lemma segments_loop_spec fuel :
  forall i,
    length messages - i <= fuel ->
    let segs := segments_loop fuel messages segmentSize i in
    concat segs = skipn i messages
    /\ (i < length messages ->
        (length segs - 1) * segmentSize < length messages - i
        /\ length messages - i <= length segs * segmentSize)
    /\ Forall (fun seg => 1 <= length seg <= segmentSize) segs
    /\ Forall (fun seg => length seg = segmentSize) (removelast segs).
Proof.
  induction fuel as [|fuel IH]; intros i H; cbn [segments_loop].
  - cbv zeta. cbn [concat length removelast].
    rewrite skipn_all2 by lia. repeat split; try lia; constructor.
  - destruct (Nat.ltb_spec i (length messages)) as [Hlt|Hge].
    2:{ cbv zeta. cbn [concat length removelast].
        rewrite skipn_all2 by lia. repeat split; try lia; constructor. }
    destruct (IH (i + segmentSize) ltac:(lia)) as (Hc & Hk & Hall & Hfull).
    set (rest := segments_loop fuel messages segmentSize (i + segmentSize)) in *.
    cbv zeta. rewrite slice_segment.
    assert (Hlen : length (firstn segmentSize (skipn i messages))
                   = Nat.min segmentSize (length messages - i))
      by (now rewrite length_firstn, length_skipn).
    split; [|split; [|split]].
    + cbn [concat]. rewrite Hc.
      rewrite <- (firstn_skipn segmentSize (skipn i messages)) at 2.
      f_equal. rewrite skipn_skipn. f_equal. lia.
    + intros _. cbn [length].
      destruct (Nat.lt_ge_cases (i + segmentSize) (length messages)) as [Hmore|Hlast].
      * destruct (Hk Hmore) as [Hk1 Hk2].
        assert (1 <= length rest) by (destruct (length rest); [lia|lia]).
        split; nia.
      * assert (rest = []) as ->.
        { subst rest. destruct fuel; cbn [segments_loop]; auto.
          destruct (Nat.ltb_spec (i + segmentSize) (length messages)); auto; lia. }
        cbn [length]. split; lia.
    + constructor; auto. rewrite Hlen. lia.
    + cbn [removelast]. destruct rest as [|seg rest'] eqn:Er; [constructor|].
      constructor; auto. rewrite Hlen.
      assert (i + segmentSize < length messages).
      { destruct (Nat.lt_ge_cases (i + segmentSize) (length messages)); auto.
        exfalso. subst rest. destruct fuel; cbn [segments_loop] in Er;
          [discriminate|].
        destruct (Nat.ltb_spec (i + segmentSize) (length messages));
          [lia|discriminate]. }
      lia.
Qed.

End Segments.

Lemma ceil_div3_bounds n : 3 * ceil_div3 n <= n + 2 < 3 * ceil_div3 n + 3.
Proof.
  unfold ceil_div3.
  pose proof (Nat.div_mod_eq (n + 2) 3).
  pose proof (Nat.mod_upper_bound (n + 2) 3). lia.
Qed.

Lemma segment_count_arith n k s :
  (k - 1) * s < n -> n <= k * s ->
  3 * s <= n + 2 < 3 * s + 3 -> 1 <= n ->
  1 <= k <= 3 /\ (n = 3 \/ 5 <= n -> k = 3).
Proof.
  intros Hk1 Hk2 Hs Hn.
  destruct k as [|[|[|[|k]]]]; try lia; nia.
Qed.

Lemma splitMessagesIntoSegments_spec messages :
  messages <> [] ->
  let n := length messages in
  let segments := splitMessagesIntoSegments messages in
  concat segments = messages
  /\ (length segments - 1) * ceil_div3 n < n <= length segments * ceil_div3 n
  /\ 1 <= length segments <= 3
  /\ (n = 3 \/ 5 <= n -> length segments = 3)
  /\ Forall (fun seg => 1 <= length seg <= ceil_div3 n) segments
  /\ Forall (fun seg => length seg = ceil_div3 n) (removelast segments).
Proof.
  intros Hne n segments.
  assert (Hn : 1 <= n) by (subst n; destruct messages; simpl; [congruence|lia]).
  pose proof (ceil_div3_bounds n) as Hs.
  assert (Hpos : 1 <= ceil_div3 n) by lia.
  destruct (@segments_loop_spec messages (ceil_div3 n) Hpos (length messages) 0
              ltac:(lia)) as (Hc & Hk & Hall & Hfull).
  fold n in Hk, Hall, Hfull.
  change (segments_loop (length messages) messages (ceil_div3 n) 0)
    with segments in *.
  rewrite Nat.sub_0_r in Hk. destruct (Hk Hn) as [Hk1 Hk2].
  split; [exact Hc|]. split; [split; assumption|].
  destruct (@segment_count_arith _ _ _ Hk1 Hk2 Hs Hn) as [Hk3 Hk3'].
  split; [exact Hk3|]. split; [exact Hk3'|]. split; assumption.
Qed.

Lemma generate_prompts_app tr1 tr2 :
  generate_prompts (tr1 ++ tr2) = generate_prompts tr1 ++ generate_prompts tr2.
Proof. apply flat_map_app. Qed.

Lemma writes_app tr1 tr2 : writes (tr1 ++ tr2) = writes tr1 ++ writes tr2.
Proof. apply flat_map_app. Qed.

Lemma analyzeEngagement_run env segment w :
  exists l evs,
    analyzeEngagement env segment w
    = (Ok l, mkWorld (storage w) (trace w ++ evs))
    /\ length l = 5
    /\ generate_prompts evs = [EngagementPrompt segment]
    /\ writes evs = [].
Proof.
  unfold analyzeEngagement, try_catch, bind, model_text, console_error,
    emit, ret.
  destruct (generateContent env (trace w) (EngagementPrompt segment))
    as [response|]; cbn [storage trace].
  - exists (analyzeEngagement_parse response), [EvGenerate (EngagementPrompt segment)].
    repeat split. apply analyzeEngagement_parse_five.
  - exists [0; 0; 0; 0; 0]%Z,
      [EvGenerate (EngagementPrompt segment);
       EvConsoleError "Error analyzing engagement:"].
    rewrite <- app_assoc. repeat split.
Qed.

Lemma mapM_analyzeEngagement_run env segments :
  forall w, exists results evs,
    mapM (analyzeEngagement env) segments w
    = (Ok results, mkWorld (storage w) (trace w ++ evs))
    /\ length results = length segments
    /\ Forall (fun l => length l = 5) results
    /\ generate_prompts evs = map EngagementPrompt segments
    /\ writes evs = [].
Proof.
  induction segments as [|seg segments IH]; intros w; cbn [mapM].
  - exists [], []. rewrite app_nil_r. destruct w; repeat split. constructor.
  - unfold bind at 1.
    destruct (analyzeEngagement_run env seg w) as (l & evs1 & E1 & Hl & Hp1 & Hw1).
    rewrite E1.
    destruct (IH (mkWorld (storage w) (trace w ++ evs1)))
      as (results & evs2 & E2 & Hlen & Hall & Hp2 & Hw2).
    unfold bind at 1. rewrite E2. cbn [storage trace]. unfold ret.
    exists (l :: results), (evs1 ++ evs2).
    rewrite app_assoc, generate_prompts_app, writes_app, Hp1, Hp2, Hw1, Hw2.
    repeat split; simpl; auto.
Qed.

Lemma mapi_from_compose {A} (f g : A -> nat -> A) l :
  forall i,
    Js.mapi_from i f (Js.mapi_from i g l)
    = Js.mapi_from i (fun v idx => f (g v idx) idx) l.
Proof. induction l as [|x l IH]; intros i; simpl; auto. now rewrite IH. Qed.

Lemma mapi_from_ext {A B} (f g : A -> nat -> B) l :
  (forall v idx, f v idx = g v idx) ->
  forall i, Js.mapi_from i f l = Js.mapi_from i g l.
Proof.
  intros H. induction l as [|x l IH]; intros i; simpl; auto.
  now rewrite H, IH.
Qed.

Lemma summed_levels results :
  forall acc,
    fold_left
      (fun acc curr =>
         Js.mapi_from 0 (fun val idx => (val + nth idx curr 0)%Z) acc)
      results acc
    = Js.mapi_from 0 (fun val idx => (val + dim_sum idx results)%Z) acc.
Proof.
  induction results as [|r results IH]; intros acc; cbn [fold_left dim_sum fold_right].
  - rewrite <- (mapi_from_ext (fun v _ => v)).
    + generalize 0. induction acc as [|x acc IHa]; intros i; simpl; auto.
      now rewrite <- IHa.
    + intros; lia.
  - rewrite IH, mapi_from_compose. apply mapi_from_ext.
    intros v idx. fold (dim_sum idx results). lia.
Qed.

(** The average is taken dimension by dimension over the segments that
    were scored. *)
Lemma averageEngagementLevels_closed results :
  averageEngagementLevels results
  = map (fun idx => Js.round_div (dim_sum idx results)
                                 (Z.of_nat (length results)))
        [0; 1; 2; 3; 4].
Proof.
  unfold averageEngagementLevels. rewrite summed_levels. reflexivity.
Qed.

(** [round_div s k] is the integer nearest to [s / k], halves going up. *)
Lemma round_div_nearest s k :
  (0 < k)%Z ->
  (2 * s - k < 2 * k * Js.round_div s k <= 2 * s + k)%Z.
Proof.
  intros Hk. unfold Js.round_div.
  pose proof (Z.div_mod (2 * s + k) (2 * k) ltac:(lia)) as Hdm.
  pose proof (Z.mod_pos_bound (2 * s + k) (2 * k) ltac:(lia)) as Hm.
  lia.
Qed.

(** C2: the code at four messages.  [splitMessagesIntoSegments] announces
    "Split into 3 segments", but with four messages the segment size is
    [ceil(4/3) = 2] and the loop makes two segments of two: the engagement
    analysis runs twice, not three times, and the trend is the average of
    two results. *)
Lemma engagement_trend_four_messages :
  let m := fun c => mkMessage [c] [] true in
  let messages := [m 97%N; m 98%N; m 99%N; m 100%N] in
  let env := mkEnv (fun _ _ => Some (Js.lit "80,60,70,50,90"))
                   (fun _ => false) (fun _ => []) (fun s => s) in
  messages <> []
  /\ splitMessagesIntoSegments messages
     = [[m 97%N; m 98%N]; [m 99%N; m 100%N]]
  /\ length (splitMessagesIntoSegments messages) <> 3
  /\ generate_prompts
       (trace (snd (calculateEngagementTrend env messages (mkWorld Missing []))))
     = [EngagementPrompt [m 97%N; m 98%N]; EngagementPrompt [m 99%N; m 100%N]]
  /\ length (generate_prompts
       (trace (snd (calculateEngagementTrend env messages (mkWorld Missing [])))))
     <> 3.
Proof.
  cbv zeta. split; [discriminate|]. split; [reflexivity|].
  split; [vm_compute; discriminate|]. split; [reflexivity|].
  vm_compute; discriminate.
Qed.

(** What [calculateEngagementTrend] does on a non-empty list of [n]
    messages, as the code is written: the list is cut into contiguous
    segments of size [ceil(n/3)], the last one possibly shorter; there are
    at most 3 of them, and 3 when [n = 3] or [n >= 5]; the engagement
    analysis runs exactly once per segment, in order, and the trend is,
    dimension by dimension, the sum over the segments divided by their
    number and rounded to the nearest integer. *)
Theorem calculateEngagementTrend_spec (env : Env) (messages : list Message)
    (w : World) :
  messages <> [] ->
  let n := length messages in
  let segments := splitMessagesIntoSegments messages in
  concat segments = messages
  /\ (length segments - 1) * ceil_div3 n < n <= length segments * ceil_div3 n
  /\ 1 <= length segments <= 3
  /\ (n = 3 \/ 5 <= n -> length segments = 3)
  /\ Forall (fun seg => 1 <= length seg <= ceil_div3 n) segments
  /\ Forall (fun seg => length seg = ceil_div3 n) (removelast segments)
  /\ exists results w',
       fst (mapM (analyzeEngagement env) segments w) = Ok results
       /\ length results = length segments
       /\ calculateEngagementTrend env messages w
          = (Ok (averageEngagementLevels results), w')
       /\ storage w' = storage w
       /\ generate_prompts (trace w')
          = generate_prompts (trace w) ++ map EngagementPrompt segments
       /\ averageEngagementLevels results
          = map (fun idx => Js.round_div (dim_sum idx results)
                                         (Z.of_nat (length segments)))
                [0; 1; 2; 3; 4]
       /\ forall idx,
            (2 * dim_sum idx results - Z.of_nat (length segments)
             < 2 * Z.of_nat (length segments)
               * Js.round_div (dim_sum idx results) (Z.of_nat (length segments))
             <= 2 * dim_sum idx results + Z.of_nat (length segments))%Z.
Proof.
  intros Hne n segments.
  destruct (splitMessagesIntoSegments_spec Hne)
    as (Hc & Hk & Hk3 & Hbig & Hall & Hfull).
  fold n segments in Hc, Hk, Hk3, Hbig, Hall, Hfull.
  do 6 (split; [assumption|]).
  destruct (mapM_analyzeEngagement_run env segments w)
    as (results & evs & E & Hlen & _ & Hp & _).
  exists results, (mkWorld (storage w) (trace w ++ evs)).
  split; [now rewrite E|]. split; [exact Hlen|].
  split.
  { unfold calculateEngagementTrend, try_catch, bind. fold segments.
    rewrite E. reflexivity. }
  split; [reflexivity|].
  split; [cbn [trace]; now rewrite generate_prompts_app, Hp|].
  split; [rewrite <- Hlen; apply averageEngagementLevels_closed|].
  intros idx. apply round_div_nearest. lia.
Qed.

(** Nine messages: three segments of three, three calls, and the first
    dimension of the answers 80, 60 and 70 averages to 70. *)
Lemma calculateEngagementTrend_spec_witness :
  map (@length _) (splitMessagesIntoSegments Sample.nine_messages) = [3; 3; 3]
  /\ length (splitMessagesIntoSegments Sample.nine_messages) = 3
  /\ length (generate_prompts (trace (snd
        (calculateEngagementTrend Sample.env_three Sample.nine_messages
                                  Sample.empty_store)))) = 3
  /\ fst (calculateEngagementTrend Sample.env_three Sample.nine_messages
                                   Sample.empty_store)
     = Ok [70; 10; 20; 30; 41]%Z.
Proof.
  assert (Hne : Sample.nine_messages <> []) by discriminate.
  destruct (@calculateEngagementTrend_spec Sample.env_three
              Sample.nine_messages Sample.empty_store Hne)
    as (_ & _ & _ & Hthree & _ & _ & results & w' & _ & _ & Hrun & _ & Hp & _).
  split; [reflexivity|].
  split; [apply Hthree; right; simpl; lia|].
  split; [|reflexivity].
  rewrite Hrun. cbn [snd]. rewrite Hp. reflexivity.
Defined.

(* ===================================================================== *)
(** ** Ending a session *)
(* ===================================================================== *)

(** Every analysis has the same shape: one call of the model, a parser,
    and a handler that logs and returns a default.  It returns, leaves the
    store alone and writes nothing. *)
Lemma analysis_run {A} env p (parse : jsstring -> A) label (d : A) w :
  exists v evs,
    try_catch (response <- model_text env p ;; ret (parse response))
              (fun _ => console_error label ;; ret d) w
    = (Ok v, mkWorld (storage w) (trace w ++ evs))
    /\ writes evs = []
    /\ generate_prompts evs = [p].
Proof.
  unfold try_catch, bind, model_text, console_error, emit, ret.
  destruct (generateContent env (trace w) p) as [response|];
    cbn [storage trace].
  - exists (parse response), [EvGenerate p]. repeat split.
  - exists d, [EvGenerate p; EvConsoleError label].
    rewrite <- app_assoc. repeat split.
Qed.

Lemma retry_analysis_run {A} env p (parse : jsstring -> A) label (d : A)
    retries w :
  exists v evs,
    retryOperation
      (try_catch (response <- model_text env p ;; ret (parse response))
                 (fun _ => console_error label ;; ret d)) retries w
    = (Ok v, mkWorld (storage w) (trace w ++ evs))
    /\ writes evs = []
    /\ generate_prompts evs = [p].
Proof.
  destruct (analysis_run env p parse label d w) as (v & evs & E & Hw & Hp).
  exists v, evs. rewrite retryOperation_first_try; rewrite E; auto.
Qed.

Lemma retry_setItem_writes env data retries :
  forall w r w',
    retryOperation (localStorage_setItem env data) retries w = (r, w') ->
    exists evs,
      trace w' = trace w ++ evs
      /\ writes evs = (if is_ok r then [data] else []).
Proof.
  induction retries as [|retries IH]; intros w r w' H;
    rewrite retryOperation_unfold in H; unfold localStorage_setItem at 1 in H;
    destruct (setItem_throws env (trace w)) eqn:E.
  - inversion H; subst; clear H. cbn [storage trace].
    exists [EvSetItem data false]. split; reflexivity.
  - inversion H; subst; clear H. cbn [storage trace].
    exists [EvSetItem data true]. split; reflexivity.
  - apply IH in H. destruct H as (evs & Htr & Hw).
    cbn [storage trace] in *.
    exists ([EvSetItem data false; EvSleep RETRY_DELAY] ++ evs).
    split.
    + rewrite Htr, <- !app_assoc. reflexivity.
    + rewrite writes_app. exact Hw.
  - inversion H; subst; clear H. cbn [storage trace].
    exists [EvSetItem data true]. split; reflexivity.
Qed.

Lemma writes_reads evs :
  Forall (fun e => e = EvGetItem \/ exists l, e = EvConsoleError l) evs ->
  writes evs = [].
Proof.
  induction 1 as [|e evs [->|[l ->]] _ IH]; simpl; auto.
Qed.

Lemma getLatestProgress_run w :
  exists evs,
    getLatestProgress w
    = (Ok (last (map Some (stored_history (storage w))) None),
       mkWorld (storage w) (trace w ++ evs))
    /\ writes evs = [].
Proof.
  unfold getLatestProgress, bind, ret.
  destruct (getProgressHistory_run w) as (evs & E & Hevs). rewrite E.
  exists evs. split; [|now apply writes_reads].
  f_equal. f_equal.
  generalize (stored_history (storage w)) as h. clear. intros h.
  induction h as [|x h IH] using rev_ind; [reflexivity|].
  rewrite map_app. cbn [map]. rewrite last_last, length_app. cbn [length].
  replace (0 <? length h + 1) with true by (symmetry; apply Nat.ltb_lt; lia).
  replace (length h + 1 - 1) with (length h) by lia.
  now rewrite nth_error_app2, Nat.sub_diag by lia.
Qed.

(** A successful [saveProgress] is one successful write of the last 50. *)
Lemma saveProgress_ok env d w w' :
  saveProgress env d w = (Ok tt, w') ->
  let kept := Js.slice_last 50 (stored_history (storage w) ++ [d]) in
  storage w' = ArrayOf (map ItemValid kept)
  /\ writes (trace w') = writes (trace w) ++ [kept].
Proof.
  intros H kept.
  unfold saveProgress, try_catch, bind in H. cbn [validateProgressData negb] in H.
  destruct (getProgressHistory_run w) as (evs1 & E1 & Hevs1).
  rewrite E1 in H. fold kept in H.
  destruct (retryOperation (localStorage_setItem env kept) MAX_RETRIES
              (mkWorld (storage w) (trace w ++ evs1))) as [r2 w2] eqn:E2.
  destruct (retry_setItem_run _ _ _ _ E2) as (_ & _ & _ & Hres).
  destruct (retry_setItem_writes _ _ _ _ E2) as (evs2 & Htr & Hw).
  cbn [storage trace] in *.
  destruct r2 as [[]|e].
  - inversion H; subst; clear H.
    destruct Hres as [[_ Hst]|[Habs _]]; [|discriminate].
    split; [exact Hst|].
    rewrite Htr, !writes_app, Hw, (writes_reads Hevs1), app_nil_r.
    reflexivity.
  - unfold console_error, emit, throw in H. inversion H.
Qed.

(** Runs the analysis at the head of the computation in [H]. *)
Ltac run_analysis H env p parse label d w v evs Hw :=
  let E := fresh "E" in
  destruct (retry_analysis_run env p parse label d MAX_RETRIES w)
    as (v & evs & E & Hw & _);
  unfold bind at 1 in H; rewrite E in H; clear E; cbv beta iota in H.

(** When the aggregator returns, it has written its record once. *)
Lemma trackProgressWithEmotions_ok env messages w pre w1 :
  trackProgressWithEmotions env (ArrayArg messages) w = (Ok pre, w1) ->
  let kept := Js.slice_last 50 (stored_history (storage w) ++ [pre]) in
  storage w1 = ArrayOf (map ItemValid kept)
  /\ writes (trace w1) = writes (trace w) ++ [kept]
  /\ pre = mkProgressData (sessionSummary pre)
             (map (fun g => mkGoal (goal g) (progress g)
                                   (determineGoalStatus (progress g)))
                  (goals pre))
             (improvements pre) (timestamp pre) (emotionalJourney pre).
Proof.
  intros H.
  unfold trackProgressWithEmotions, try_catch in H.
  destruct (length messages =? 0).
  { unfold throw, console_error, bind, emit in H. discriminate. }
  unfold analyzeEmotions, analyzeEngagement, analyzeSessionSummary,
    analyzeGoals, analyzeImprovements in H.
  run_analysis H env (EmotionPrompt (filter isUser messages))
    analyzeEmotions_parse "Error analyzing emotions:"%string
    (mkEmotionAnalysis [] []) w v1 evs1 Hw1.
  run_analysis H env (EngagementPrompt messages)
    analyzeEngagement_parse "Error analyzing engagement:"%string
    [0; 0; 0; 0; 0]%Z (mkWorld (storage w) (trace w ++ evs1)) v2 evs2 Hw2.
  cbn [storage trace] in H.
  run_analysis H env (SessionSummaryPrompt messages)
    Js.trim "Error analyzing session summary:"%string
    (@nil N) (mkWorld (storage w) ((trace w ++ evs1) ++ evs2)) v3 evs3 Hw3.
  cbn [storage trace] in H.
  run_analysis H env (GoalsPrompt messages)
    analyzeGoals_parse "Error analyzing goals:"%string
    (@nil ParsedGoal)
    (mkWorld (storage w) (((trace w ++ evs1) ++ evs2) ++ evs3)) v4 evs4 Hw4.
  cbn [storage trace] in H.
  run_analysis H env (ImprovementsPrompt messages)
    analyzeImprovements_parse "Error analyzing improvements:"%string
    (mkImprovements [] [] [])
    (mkWorld (storage w) ((((trace w ++ evs1) ++ evs2) ++ evs3) ++ evs4))
    v5 evs5 Hw5.
  cbn [storage trace] in H.
  unfold bind at 1 in H. unfold date_now at 1 in H. cbn [trace] in H.
  cbn [validateProgressData] in H.
  unfold bind at 1 in H.
  match type of H with
  | context [saveProgress env ?pd ?wx] =>
      destruct (saveProgress env pd wx) as [[[]|e] w2] eqn:Es
  end.
  - unfold ret in H. inversion H; subst; clear H.
    destruct (saveProgress_ok _ _ _ Es) as [Hst Hwr].
    cbn [storage trace] in Hst, Hwr.
    split; [exact Hst|]. split.
    + rewrite Hwr, !writes_app, Hw1, Hw2, Hw3, Hw4, Hw5, !app_nil_r.
      reflexivity.
    + cbn. f_equal. rewrite map_map. cbn. reflexivity.
  - unfold console_error, bind, emit, throw in H. discriminate.
Qed.

Lemma calculateEngagementTrend_run env messages w :
  exists trend evs,
    calculateEngagementTrend env messages w
    = (Ok trend, mkWorld (storage w) (trace w ++ evs))
    /\ writes evs = [].
Proof.
  destruct (mapM_analyzeEngagement_run env (splitMessagesIntoSegments messages) w)
    as (results & evs & E & _ & _ & _ & Hw).
  exists (averageEngagementLevels results), evs. split; [|exact Hw].
  unfold calculateEngagementTrend, try_catch, bind. rewrite E. reflexivity.
Qed.

(** C10: when [endSession] returns, the store has been written twice: by
    the aggregator with its record, before the merge, and by [endSession]
    with the final record; both are in the stored history, which has grown
    by two entries up to the cap of 50. *)
Theorem endSession_persists_two (env : Env) (messages : list Message)
    (w : World) (final : ProgressData) (w' : World) :
  endSession env (ArrayArg messages) w = (Ok final, w') ->
  let history := stored_history (storage w) in
  exists pre w1,
    trackProgressWithEmotions env (ArrayArg messages)
      (snd (getLatestProgress w)) = (Ok pre, w1)
    /\ writes (trace w')
       = writes (trace w)
         ++ [Js.slice_last 50 (history ++ [pre]);
             Js.slice_last 50 (history ++ [pre; final])]
    /\ storage w'
       = ArrayOf (map ItemValid (Js.slice_last 50 (history ++ [pre; final])))
    /\ stored_history (storage w') = Js.slice_last 50 (history ++ [pre; final])
    /\ (length history + 2 <= 50 ->
        stored_history (storage w') = history ++ [pre; final])
    /\ goals final
       = match last (map Some history) None with
         | Some latest => mergeGoals (goals latest) (goals pre)
         | None => goals pre
         end
    /\ timestamp final = timestamp pre.
Proof.
  intros H history.
  unfold endSession, try_catch in H.
  destruct (length messages =? 0).
  { unfold throw, console_error, bind, emit in H. discriminate. }
  destruct (getLatestProgress_run w) as (evs0 & E0 & Hw0).
  unfold bind at 1 in H. rewrite E0 in H. rewrite E0. cbn [snd].
  fold history in H.
  set (latest := last (map Some history) None) in *.
  unfold bind at 1 in H.
  destruct (trackProgressWithEmotions env (ArrayArg messages)
              (mkWorld (storage w) (trace w ++ evs0))) as [[pre|e] w1] eqn:Et.
  2:{ unfold console_error, bind, emit, throw in H. discriminate. }
  destruct (trackProgressWithEmotions_ok _ _ _ Et) as (Hst1 & Hwr1 & _).
  cbn [storage trace] in Hst1, Hwr1. fold history in Hst1, Hwr1.
  destruct (calculateEngagementTrend_run env messages w1)
    as (trend & evs2 & E2 & Hw2).
  unfold bind at 1 in H. rewrite E2 in H.
  unfold analyzeSession in H.
  destruct (analysis_run env (SessionPrompt (map text messages))
              (parseAnalysisResponse (toLowerCase env))
              "Error analyzing session:"
              (mkSessionAnalysis (Js.lit "Unable to analyze") (Some []) (Some []))
              (mkWorld (storage w1) (trace w1 ++ evs2)))
    as (analysis & evs3 & E3 & Hw3 & _).
  unfold bind at 1 in H. rewrite E3 in H. cbn [storage trace] in H.
  unfold bind at 1 in H. unfold lift at 1 in H.
  match type of H with
  | context [generateComprehensiveSummary ?s ?a] =>
      destruct (generateComprehensiveSummary s a) as [summary|e]
  end.
  2:{ unfold console_error, bind, emit, throw in H. discriminate. }
  unfold bind at 1 in H.
  match type of H with
  | context [saveProgress env ?pd ?wx] =>
      destruct (saveProgress env pd wx) as [[[]|e] w2] eqn:Es
  end.
  2:{ unfold console_error, bind, emit, throw in H. discriminate. }
  unfold ret in H. inversion H; subst final w'; clear H.
  destruct (saveProgress_ok _ _ _ Es) as [Hst2 Hwr2].
  cbn [storage trace] in Hst2, Hwr2.
  rewrite Hst1, stored_history_written, slice_last_twice in Hst2, Hwr2.
  exists pre, w1. split; [reflexivity|].
  match goal with
  | |- context [history ++ [pre; ?f]] => set (final := f) in *
  end.
  split.
  { rewrite Hwr2, !writes_app, Hw2, Hw3, Hwr1, writes_app, Hw0, !app_nil_r,
      <- app_assoc.
    reflexivity. }
  split; [exact Hst2|].
  split; [rewrite Hst2; apply stored_history_written|].
  split.
  { intros Hlen. rewrite Hst2, stored_history_written.
    apply slice_last_short. rewrite length_app. simpl. lia. }
  split; subst final; destruct latest; reflexivity.
Qed.

Example endSession_sample_summary :
  option_map sessionSummary
    (match fst (endSession Sample.env (ArrayArg Sample.messages)
                           Sample.empty_store) with
     | Ok final => Some final
     | Throw _ => None
     end)
  = Some (Js.lit "1. Talked about sleep


Emotional State: calm

Key Topics:
- sleep
- work

Key Insights:
- routine helps").
Proof. vm_compute. reflexivity. Qed.

(** A session ended on an empty store leaves two records in it. *)
Lemma endSession_persists_two_witness :
  is_ok (fst (endSession Sample.env (ArrayArg Sample.messages)
                         Sample.empty_store)) = true
  /\ length (stored_history (storage (snd
       (endSession Sample.env (ArrayArg Sample.messages)
                   Sample.empty_store)))) = 2.
Proof.
  split; [vm_compute; reflexivity|].
  destruct (@endSession_persists_two Sample.env Sample.messages
              Sample.empty_store
              (match fst (endSession Sample.env (ArrayArg Sample.messages)
                                     Sample.empty_store) with
               | Ok final => final
               | Throw _ => Sample.record ""
               end)
              (snd (endSession Sample.env (ArrayArg Sample.messages)
                               Sample.empty_store)))
    as (pre & w1 & _ & _ & _ & _ & Hgrow & _).
  - vm_compute. reflexivity.
  - rewrite Hgrow; [reflexivity | simpl; lia].
Defined.

(** The 51st record evicts the oldest. *)
Lemma saveProgress_keeps_last_50_witness :
  stored_history (storage (snd
    (saveProgress Sample.env (Sample.record "new") Sample.full_store)))
  = repeat (Sample.record "old") 49 ++ [Sample.record "new"].
Proof.
  pose proof (saveProgress_keeps_last_50 Sample.env (Sample.record "new")
                Sample.full_store) as H.
  cbv zeta in H.
  destruct H as (_ & _ & _ & H50 & Hres & _ & Hok).
  specialize (Hok (fun _ => eq_refl)).
  destruct Hres as [(_ & _ & Hh)|(Hthrow & _)].
  - rewrite Hh.
    transitivity (tl (stored_history (storage Sample.full_store))
                  ++ [Sample.record "new"]).
    + apply H50. vm_compute. reflexivity.
    + vm_compute. reflexivity.
  - exfalso. rewrite Hok in Hthrow. discriminate Hthrow.
Defined.

(** A store that refuses every write: all four attempts are made. *)
Lemma retryOperation_contract_witness :
  exists outcomes,
    Retried (localStorage_setItem Sample.env_full []) 3 Sample.empty_store
            outcomes
            (retryOperation (localStorage_setItem Sample.env_full [])
                            MAX_RETRIES Sample.empty_store)
    /\ length outcomes = 4.
Proof.
  destruct (retryOperation_contract (localStorage_setItem Sample.env_full [])
              Sample.empty_store)
    as (_ & _ & outcomes & HR & _ & _ & _ & H4).
  exists outcomes. split; [exact HR | apply H4; reflexivity].
Defined.

(** A block with a title and no description gives no goal. *)
Lemma analyzeGoals_parse_spec_witness :
  analyzeGoals_section (Js.lit "Title: Sleep better
Progress: 40%") = [].
Proof.
  destruct (analyzeGoals_parse_spec []) as (_ & Hnone & _).
  apply Hnone. vm_compute. reflexivity.
Defined.

(* ===================================================================== *)
(** ** More on the local store *)
(* ===================================================================== *)

Lemma filter_valid_spec items :
  filter_valid items
  = if existsb is_throwing items then Throw TypeError
    else Ok (valid_records items).
Proof.
  induction items as [|item items IH]; [reflexivity|].
  cbn [filter_valid existsb]. rewrite IH.
  destruct item; cbn [validateItem validateProgressData is_throwing orb];
    try reflexivity;
    destruct (existsb is_throwing items); reflexivity.
Qed.

Lemma stored_history_spec st :
  stored_history st
  = match st with
    | ArrayOf items =>
        if existsb is_throwing items then [] else valid_records items
    | _ => []
    end.
Proof.
  destruct st as [| | |items]; try reflexivity.
  unfold stored_history. rewrite filter_valid_spec.
  destruct (existsb is_throwing items); reflexivity.
Qed.

Lemma stored_history_unreadable st : unreadable st -> stored_history st = [].
Proof.
  intros [->|[->|(items & -> & Hin)]]; try reflexivity.
  rewrite stored_history_spec.
  replace (existsb is_throwing items) with true; [reflexivity|].
  symmetry. apply existsb_exists. exists ItemThrows. auto.
Qed.

Lemma generate_prompts_reads evs :
  Forall (fun e => e = EvGetItem \/ exists l, e = EvConsoleError l) evs ->
  generate_prompts evs = [].
Proof.
  induction 1 as [|e evs [->|[l ->]] _ IH]; simpl; auto.
Qed.

(** X1: reading the history never throws and changes nothing: it returns
    the stored records of the right shape, in their order, dropping the
    others; a missing key, text that is no JSON, JSON that is no array, or
    a single element on which the shape check throws give the empty
    history. *)
Theorem getProgressHistory_reads (w : World) :
  fst (getProgressHistory w)
  = Ok (match storage w with
        | ArrayOf items =>
            if existsb is_throwing items then [] else valid_records items
        | _ => []
        end)
  /\ storage (snd (getProgressHistory w)) = storage w
  /\ writes (trace (snd (getProgressHistory w))) = writes (trace w)
  /\ generate_prompts (trace (snd (getProgressHistory w)))
     = generate_prompts (trace w).
Proof.
  destruct (getProgressHistory_run w) as (evs & E & Hevs).
  rewrite E. cbn [fst snd storage trace].
  rewrite stored_history_spec, writes_app, generate_prompts_app,
    (writes_reads Hevs), (generate_prompts_reads Hevs), !app_nil_r.
  repeat split.
Qed.

(** X2: what a successful save wrote is what the next read returns: the
    history is the last 50 of the old history with the record, and the
    latest record is the one just saved. *)
Theorem saveProgress_then_read (env : Env) (d : ProgressData)
    (w w1 : World) :
  saveProgress env d w = (Ok tt, w1) ->
  fst (getProgressHistory w1)
  = Ok (Js.slice_last 50 (stored_history (storage w) ++ [d]))
  /\ fst (getLatestProgress w1) = Ok (Some d).
Proof.
  intros H. destruct (saveProgress_ok _ _ _ H) as [Hst _].
  destruct (getProgressHistory_run w1) as (evs & E & _).
  destruct (getLatestProgress_run w1) as (evs' & E' & _).
  rewrite E, E'. cbn [fst]. rewrite Hst, stored_history_written.
  split; [reflexivity|].
  rewrite (slice_last_snoc 49), map_app. cbn [map].
  now rewrite last_last.
Qed.

Lemma saveProgress_then_read_witness :
  fst (getLatestProgress
         (snd (saveProgress Sample.env (Sample.record "new") Sample.full_store)))
  = Ok (Some (Sample.record "new")).
Proof.
  refine (proj2 (@saveProgress_then_read Sample.env (Sample.record "new")
                   Sample.full_store _ _)).
  vm_compute. reflexivity.
Defined.

(** X3: when the store holds something that reads as an empty history
    (text that is no JSON, no array, or an array with one element on which
    the shape check throws, such as [null]), a successful save replaces it
    by the new record alone: every record stored before is lost. *)
Theorem saveProgress_over_unreadable (env : Env) (d : ProgressData)
    (w w1 : World) :
  unreadable (storage w) ->
  saveProgress env d w = (Ok tt, w1) ->
  storage w1 = ArrayOf [ItemValid d]
  /\ fst (getProgressHistory w1) = Ok [d].
Proof.
  intros Hu H. destruct (saveProgress_ok _ _ _ H) as [Hst _].
  rewrite (stored_history_unreadable Hu) in Hst. cbn in Hst.
  split; [exact Hst|].
  destruct (getProgressHistory_run w1) as (evs & E & _).
  rewrite E, Hst. reflexivity.
Qed.

Lemma saveProgress_over_unreadable_witness :
  valid_records [ItemValid (Sample.record "first"); ItemThrows;
                 ItemValid (Sample.record "second")]
  = [Sample.record "first"; Sample.record "second"]
  /\ storage (snd (saveProgress Sample.env (Sample.record "new")
                                MoreSamples.poisoned_store))
     = ArrayOf [ItemValid (Sample.record "new")].
Proof.
  split; [reflexivity|].
  refine (proj1 (@saveProgress_over_unreadable Sample.env (Sample.record "new")
                   MoreSamples.poisoned_store _ _ _)).
  - right. right. eexists. split; [reflexivity|]. simpl. tauto.
  - vm_compute. reflexivity.
Defined.

Lemma retry_setItem_trace env data retries :
  forall w r w',
    retryOperation (localStorage_setItem env data) retries w = (r, w') ->
    exists k,
      k <= retries
      /\ trace w'
         = trace w ++ failed_writes data k ++ [EvSetItem data (is_ok r)]
      /\ (is_ok r = false -> k = retries).
Proof.
  induction retries as [|retries IH]; intros w r w' H;
    rewrite retryOperation_unfold in H; unfold localStorage_setItem at 1 in H;
    destruct (setItem_throws env (trace w)) eqn:E.
  - inversion H; subst; clear H. exists 0.
    split; [lia|]. split; [reflexivity|]. intros _. reflexivity.
  - inversion H; subst; clear H. exists 0.
    split; [lia|]. split; [reflexivity|]. discriminate.
  - apply IH in H. destruct H as (k & Hk & Htr & Hfail).
    cbn [storage trace] in Htr.
    exists (S k). split; [lia|]. split.
    + rewrite Htr. unfold failed_writes. cbn [repeat concat].
      rewrite <- !app_assoc. reflexivity.
    + intros Hr. now rewrite Hfail.
  - inversion H; subst; clear H. exists 0.
    split; [lia|]. split; [reflexivity|]. discriminate.
Qed.

(** X4: a save reads the store once, never calls the model, and tries the
    write at most four times, with the fixed delay after each failed
    attempt but the last; it fails only after four failed attempts, and
    then logs and throws "Failed to save progress data". *)
Theorem saveProgress_trace (env : Env) (d : ProgressData) (w : World) :
  let kept := Js.slice_last 50 (stored_history (storage w) ++ [d]) in
  let r := fst (saveProgress env d w) in
  exists k readlog,
    k <= 3
    /\ (readlog = []
        \/ readlog = [EvConsoleError "Error getting progress history:"])
    /\ trace (snd (saveProgress env d w))
       = trace w ++ [EvGetItem] ++ readlog
         ++ failed_writes kept k
         ++ [EvSetItem kept (is_ok r)]
         ++ (if is_ok r then []
             else [EvConsoleError "Error saving progress:"])
    /\ (is_ok r = false ->
        k = 3 /\ r = Throw (Err "Failed to save progress data")).
Proof.
  intros kept r. subst r.
  unfold saveProgress, try_catch, bind. cbn [validateProgressData negb].
  assert (Hread : exists readlog,
    getProgressHistory w
    = (Ok (stored_history (storage w)),
       mkWorld (storage w) (trace w ++ [EvGetItem] ++ readlog))
    /\ (readlog = []
        \/ readlog = [EvConsoleError "Error getting progress history:"])).
  { unfold getProgressHistory, try_catch, read_history, bind, console_error,
      emit, ret, stored_history.
    destruct (storage w) as [| | |items]; cbn [storage trace].
    - exists []. auto.
    - exists [EvConsoleError "Error getting progress history:"].
      rewrite <- app_assoc. auto.
    - exists []. auto.
    - destruct (filter_valid items).
      + exists []. auto.
      + exists [EvConsoleError "Error getting progress history:"].
        rewrite <- app_assoc. auto. }
  destruct Hread as (readlog & E1 & Hlog). rewrite E1. fold kept.
  destruct (retryOperation (localStorage_setItem env kept) MAX_RETRIES
              (mkWorld (storage w) (trace w ++ [EvGetItem] ++ readlog)))
    as [r2 w2] eqn:E2.
  destruct (retry_setItem_trace _ _ _ _ E2) as (k & Hk & Htr & Hfail).
  destruct (retry_setItem_run _ _ _ _ E2) as (_ & _ & _ & Hres).
  cbn [storage trace] in Htr.
  exists k, readlog. split; [exact Hk|]. split; [exact Hlog|].
  destruct Hres as [[-> _]|[-> _]]; cbn [fst snd is_ok].
  - split; [|discriminate]. rewrite Htr, <- !app_assoc, app_nil_r.
    reflexivity.
  - unfold console_error, emit, throw. cbn [fst snd storage trace is_ok].
    split.
    + rewrite Htr, <- !app_assoc. reflexivity.
    + intros _. split; [now apply Hfail|reflexivity].
Qed.

(** A store that refuses every write. *)
Example saveProgress_refused :
  saveProgress Sample.env_full (Sample.record "new") Sample.empty_store
  = (Throw (Err "Failed to save progress data"),
     mkWorld Missing
       ([EvGetItem]
        ++ failed_writes [Sample.record "new"] 3
        ++ [EvSetItem [Sample.record "new"] false;
            EvConsoleError "Error saving progress:"])).
Proof. vm_compute. reflexivity. Qed.

(* ===================================================================== *)
(** ** More on merging goals *)
(* ===================================================================== *)

Lemma carried_refl g : carried g g.
Proof. unfold carried. repeat split; auto. lia. Qed.

Lemma carried_trans g1 g2 g3 : carried g1 g2 -> carried g2 g3 -> carried g1 g3.
Proof.
  unfold carried. intros (H1 & H2 & H3) (H4 & H5 & H6).
  repeat split; auto; try congruence; lia.
Qed.

Lemma carried_updated_with x g : carried g (updated_with x g).
Proof.
  unfold carried, updated_with, consistent. cbn. repeat split; auto. lia.
Qed.

Lemma Forall2_carried_refl l : Forall2 carried l l.
Proof. induction l; constructor; auto using carried_refl. Qed.

Lemma Forall2_carried_trans l1 :
  forall l2 l3,
    Forall2 carried l1 l2 -> Forall2 carried l2 l3 -> Forall2 carried l1 l3.
Proof.
  induction l1 as [|g l1 IH]; intros l2 l3 H12 H23;
    inversion H12; subst; inversion H23; subst; constructor.
  - eapply carried_trans; eauto.
  - eapply IH; eauto.
Qed.

Lemma Forall2_carried_update_at x l :
  forall i, Forall2 carried l (Js.update_at i (updated_with x) l).
Proof.
  induction l as [|g l IH]; intros [|i]; cbn [Js.update_at];
    constructor; auto using carried_refl, carried_updated_with,
                            Forall2_carried_refl.
Qed.

Lemma findIndex_some {A} (p : A -> bool) l :
  forall i,
    Js.findIndex p l = Some i ->
    exists x, nth_error l i = Some x /\ p x = true.
Proof.
  induction l as [|y l IH]; intros i H; cbn [Js.findIndex] in H;
    [discriminate|].
  destruct (p y) eqn:E.
  - inversion H; subst. exists y. auto.
  - destruct (Js.findIndex p l) as [j|]; [|discriminate].
    inversion H; subst. destruct (IH j eq_refl) as (x & Hx & Hp).
    exists x. auto.
Qed.

Lemma nth_error_update_at {A} (f : A -> A) l :
  forall i x,
    nth_error l i = Some x ->
    nth_error (Js.update_at i f l) i = Some (f x).
Proof.
  induction l as [|y l IH]; intros [|i] x H; cbn in *; try discriminate.
  - now inversion H.
  - now apply IH.
Qed.

(** One round of the merge, whatever the lists hold: the goals so far are
    carried, and the new goal is appended unless its text is there. *)
Lemma mergeGoal_carried m x :
  exists m',
    mergeGoal m x
    = m' ++ (if existsb (has_text (goal x)) m then [] else [x])
    /\ Forall2 carried m m'
    /\ exists g, In g (mergeGoal m x) /\ carried x g.
Proof.
  unfold mergeGoal.
  change (fun g : Goal => Js.eqb (goal g) (goal x)) with (has_text (goal x)).
  destruct (Js.findIndex (has_text (goal x)) m) as [i|] eqn:F.
  - assert (E : existsb (has_text (goal x)) m = true).
    { destruct (existsb _ _) eqn:E; auto.
      apply findIndex_none in E. congruence. }
    exists (Js.update_at i (updated_with x) m). rewrite E, app_nil_r.
    split; [reflexivity|]. split; [apply Forall2_carried_update_at|].
    destruct (findIndex_some _ _ F) as (g & Hg & Ht).
    apply has_text_true in Ht.
    exists (updated_with x g). split.
    + eapply nth_error_In. eapply nth_error_update_at; eauto.
    + unfold carried, updated_with, consistent. cbn.
      repeat split; auto. lia.
  - apply findIndex_none in F.
    exists m. rewrite F. split; [reflexivity|].
    split; [apply Forall2_carried_refl|].
    exists x. split; [apply in_or_app; right; simpl; auto|apply carried_refl].
Qed.

Lemma Forall2_carried_In l l' g :
  Forall2 carried l l' -> In g l -> exists g', In g' l' /\ carried g g'.
Proof.
  induction 1 as [|a b l l' Hab _ IH]; intros Hin; [contradiction|].
  destruct Hin as [<-|Hin].
  - exists b. simpl; auto.
  - destruct (IH Hin) as (g' & Hg' & Hc). exists g'. simpl; auto.
Qed.

(** The merge as a whole: the prior goals are carried, place by place, and
    what follows them comes from the new goals. *)
Lemma mergeGoals_carried newGoals :
  forall previousGoals,
    exists kept appended,
      mergeGoals previousGoals newGoals = kept ++ appended
      /\ Forall2 carried previousGoals kept
      /\ length appended <= length newGoals
      /\ Forall (fun g' => exists x, In x newGoals /\ carried x g') appended.
Proof.
  induction newGoals as [|x new IH]; intros prior.
  - exists prior, []. rewrite app_nil_r.
    repeat split; auto using Forall2_carried_refl.
  - unfold mergeGoals. cbn [fold_left].
    fold (mergeGoals (mergeGoal prior x) new).
    destruct (mergeGoal_carried prior x) as (m' & E & Hm' & _).
    destruct (IH (mergeGoal prior x)) as (kept & app & E' & Hk & Hlen & Happ).
    rewrite E in Hk.
    apply Forall2_app_inv_l in Hk as (k1 & k2 & Hk1 & Hk2 & ->).
    exists k1, (k2 ++ app). rewrite E', <- app_assoc.
    split; [reflexivity|].
    split; [eapply Forall2_carried_trans; eauto|].
    split.
    + rewrite length_app. apply Forall2_length in Hk2. rewrite <- Hk2.
      destruct (existsb (has_text (goal x)) prior); simpl; lia.
    + apply Forall_app. split.
      * apply Forall_forall. intros g' Hg'.
        destruct (existsb (has_text (goal x)) prior).
        { inversion Hk2; subst. contradiction. }
        inversion Hk2 as [|? ? ? ? Hxg Hrest]; subst.
        inversion Hrest; subst. destruct Hg' as [<-|[]].
        exists x. simpl; auto.
      * eapply Forall_impl; [|exact Happ].
        intros g' (y & Hy & Hc). exists y. simpl; auto.
Qed.

Lemma Forall2_carried_texts l l' :
  Forall2 carried l l' -> map goal l' = map goal l.
Proof.
  induction 1 as [|a b l l' (H & _) _ IH]; simpl; auto. now rewrite H, IH.
Qed.

(** X5: merging never removes or reorders a prior goal: the merged list
    starts with the prior goals, text by text, each with at least the
    progress it had; at most one entry per new goal follows. *)
Theorem mergeGoals_keeps_prior (previousGoals newGoals : list Goal) :
  firstn (length previousGoals) (map goal (mergeGoals previousGoals newGoals))
  = map goal previousGoals
  /\ length previousGoals <= length (mergeGoals previousGoals newGoals)
     <= length previousGoals + length newGoals
  /\ forall i g,
       nth_error previousGoals i = Some g ->
       exists g',
         nth_error (mergeGoals previousGoals newGoals) i = Some g'
         /\ goal g' = goal g
         /\ (progress g <= progress g')%Z.
Proof.
  destruct (mergeGoals_carried newGoals previousGoals)
    as (kept & app & E & Hk & Hlen & _).
  pose proof (Forall2_length Hk) as Hl.
  rewrite E. split; [|split].
  - rewrite map_app, <- (Forall2_carried_texts Hk), Hl.
    rewrite <- (length_map goal kept), firstn_app, Nat.sub_diag, firstn_all.
    cbn. apply app_nil_r.
  - rewrite length_app. lia.
  - intros i g Hg.
    assert (Hi : i < length kept).
    { rewrite <- Hl. apply nth_error_Some. congruence. }
    destruct (nth_error kept i) as [g'|] eqn:Eg';
      [|apply nth_error_None in Eg'; lia].
    exists g'. rewrite nth_error_app1 by exact Hi.
    split; [exact Eg'|].
    clear - Hk Hg Eg'. revert i Hg Eg'.
    induction Hk as [|a b l l' Hab _ IH]; intros [|i] Hg Eg'; cbn in *;
      try discriminate.
    + inversion Hg; inversion Eg'; subst. destruct Hab as (H1 & H2 & _). auto.
    + eauto.
Qed.

(** X6: the merge keeps the rule that the status of a goal is the one its
    progress determines: when it holds of every prior and of every new
    goal, it holds of every merged goal. *)
Theorem mergeGoals_consistent (previousGoals newGoals : list Goal) :
  Forall consistent previousGoals ->
  Forall consistent newGoals ->
  Forall consistent (mergeGoals previousGoals newGoals).
Proof.
  intros Hp Hn.
  destruct (mergeGoals_carried newGoals previousGoals)
    as (kept & app & E & Hk & _ & Happ).
  rewrite E. apply Forall_app. split.
  - clear - Hp Hk. induction Hk as [|a b l l' (_ & _ & Hab) _ IH];
      constructor; inversion Hp; subst; auto.
  - apply Forall_forall. intros g' Hg'.
    rewrite Forall_forall in Happ, Hn.
    destruct (Happ g' Hg') as (x & Hx & (_ & _ & Hc)). auto.
Qed.

Lemma mergeGoals_consistent_witness :
  Forall consistent
    (mergeGoals [mkGoal (Js.lit "Sleep better") 40 InProgress]
                [mkGoal (Js.lit "Sleep better") 100 Achieved;
                 mkGoal (Js.lit "Exercise") 0 NotStarted]).
Proof.
  apply mergeGoals_consistent; repeat constructor.
Defined.

(** A new goal whose status is not the one of its progress is appended as
    it is: the rule is kept, not established. *)
Example mergeGoals_appends_as_is :
  mergeGoals [] [mkGoal (Js.lit "Exercise") 100 NotStarted]
  = [mkGoal (Js.lit "Exercise") 100 NotStarted].
Proof. reflexivity. Qed.

Lemma mergeGoals_new_carried newGoals :
  forall previousGoals x,
    In x newGoals ->
    exists g, In g (mergeGoals previousGoals newGoals) /\ carried x g.
Proof.
  induction newGoals as [|y new IH]; intros prior x Hx; [contradiction|].
  unfold mergeGoals. cbn [fold_left].
  fold (mergeGoals (mergeGoal prior y) new).
  destruct Hx as [<-|Hx]; [|now apply IH].
  destruct (mergeGoal_carried prior y) as (_ & _ & _ & g & Hg & Hc).
  destruct (mergeGoals_carried new (mergeGoal prior y))
    as (kept & app & -> & Hk & _ & _).
  destruct (@Forall2_carried_In _ _ _ Hk Hg) as (g' & Hg' & Hc').
  exists g'. split; [apply in_or_app; auto|].
  eapply carried_trans; eauto.
Qed.

(** X7: no new goal is lost and none is invented: every new goal has an
    entry in the merged list with its text and at least its progress, and
    every text of the merged list is the text of a prior or of a new
    goal. *)
Theorem mergeGoals_covers_new (previousGoals newGoals : list Goal) :
  (forall x, In x newGoals ->
     exists g, In g (mergeGoals previousGoals newGoals)
               /\ goal g = goal x /\ (progress x <= progress g)%Z)
  /\ (forall t, In t (map goal (mergeGoals previousGoals newGoals)) <->
                In t (map goal previousGoals) \/ In t (map goal newGoals)).
Proof.
  split.
  - intros x Hx.
    destruct (mergeGoals_new_carried newGoals previousGoals x Hx)
      as (g & Hg & (H1 & H2 & _)).
    exists g. auto.
  - intros t.
    destruct (mergeGoals_carried newGoals previousGoals)
      as (kept & app & E & Hk & _ & Happ).
    split.
    + rewrite E, map_app, in_app_iff, (Forall2_carried_texts Hk).
      intros [H|H]; [auto|]. right.
      apply in_map_iff in H as (g' & <- & Hg').
      rewrite Forall_forall in Happ.
      destruct (Happ g' Hg') as (x & Hx & (Ht & _)).
      rewrite Ht. now apply in_map.
    + intros [H|H].
      * rewrite E, map_app, in_app_iff, (Forall2_carried_texts Hk). auto.
      * apply in_map_iff in H as (x & <- & Hx).
        destruct (mergeGoals_new_carried newGoals previousGoals x Hx)
          as (g & Hg & (Ht & _)).
        rewrite <- Ht. now apply in_map.
Qed.

Lemma mergeGoal_texts m x :
  map goal (mergeGoal m x)
  = map goal m ++ (if existsb (has_text (goal x)) m then [] else [goal x]).
Proof.
  destruct (mergeGoal_carried m x) as (m' & -> & Hm' & _).
  rewrite map_app, (Forall2_carried_texts Hm').
  destruct (existsb (has_text (goal x)) m); reflexivity.
Qed.

(** X8: merging removes repetitions among the new goals: when no text is
    repeated in the prior list, none is repeated in the merged list,
    whatever the new list holds. *)
Theorem mergeGoals_no_repeated_text (previousGoals newGoals : list Goal) :
  NoDup (map goal previousGoals) ->
  NoDup (map goal (mergeGoals previousGoals newGoals)).
Proof.
  revert previousGoals.
  induction newGoals as [|x new IH]; intros prior Hp; [exact Hp|].
  unfold mergeGoals. cbn [fold_left].
  fold (mergeGoals (mergeGoal prior x) new).
  apply IH. rewrite mergeGoal_texts.
  destruct (existsb (has_text (goal x)) prior) eqn:E.
  - now rewrite app_nil_r.
  - apply existsb_has_text_false in E.
    apply NoDup_app; auto.
    + repeat constructor. simpl. tauto.
    + intros t Ht [<-|[]]. contradiction.
Qed.

Lemma mergeGoals_no_repeated_text_witness :
  NoDup (map goal
    (mergeGoals [mkGoal (Js.lit "Sleep better") 40 InProgress]
                [mkGoal (Js.lit "Exercise") 30 InProgress;
                 mkGoal (Js.lit "Exercise") 20 InProgress;
                 mkGoal (Js.lit "Sleep better") 10 InProgress]))
  /\ length (mergeGoals [mkGoal (Js.lit "Sleep better") 40 InProgress]
                [mkGoal (Js.lit "Exercise") 30 InProgress;
                 mkGoal (Js.lit "Exercise") 20 InProgress;
                 mkGoal (Js.lit "Sleep better") 10 InProgress]) = 2.
Proof.
  split; [|reflexivity].
  apply mergeGoals_no_repeated_text. repeat constructor. simpl. tauto.
Defined.

(* ===================================================================== *)
(** ** More on the engagement levels *)
(* ===================================================================== *)

Lemma dim_sum_bounds idx results :
  Forall (Forall in_percent) results ->
  (0 <= dim_sum idx results <= 100 * Z.of_nat (length results))%Z.
Proof.
  induction 1 as [|r results Hr _ IH]; cbn [dim_sum fold_right length].
  - lia.
  - fold (dim_sum idx results).
    assert (Hn : in_percent (nth idx r 0%Z)).
    { destruct (nth_in_or_default idx r 0%Z) as [Hin| ->].
      - rewrite Forall_forall in Hr. auto.
      - unfold in_percent. lia. }
    unfold in_percent in Hn. lia.
Qed.

Lemma round_div_percent s k :
  (0 < k)%Z -> (0 <= s <= 100 * k)%Z -> in_percent (Js.round_div s k).
Proof.
  intros Hk Hs. unfold in_percent.
  pose proof (round_div_nearest s Hk). nia.
Qed.

Lemma averageEngagementLevels_in_percent results :
  results <> [] ->
  Forall (Forall in_percent) results ->
  Forall in_percent (averageEngagementLevels results).
Proof.
  rewrite averageEngagementLevels_closed.
  intros Hne Hall. apply Forall_map, Forall_forall. intros idx _.
  apply round_div_percent.
  - destruct results; [congruence|]. cbn [length]. lia.
  - now apply dim_sum_bounds.
Qed.

(** X9: the average of the engagement results always has five entries,
    and when there is at least one result and every entry of every result
    is in [0, 100], so is every entry of the average. *)
Theorem averageEngagementLevels_percent (engagementResults : list (list Z)) :
  length (averageEngagementLevels engagementResults) = 5
  /\ (engagementResults <> [] ->
      Forall (Forall in_percent) engagementResults ->
      Forall in_percent (averageEngagementLevels engagementResults)).
Proof.
  split.
  - rewrite averageEngagementLevels_closed. reflexivity.
  - apply averageEngagementLevels_in_percent.
Qed.

Lemma analyzeEngagement_percent env segment w :
  exists l evs,
    analyzeEngagement env segment w
    = (Ok l, mkWorld (storage w) (trace w ++ evs))
    /\ length l = 5 /\ Forall in_percent l.
Proof.
  unfold analyzeEngagement, try_catch, bind, model_text, console_error,
    emit, ret.
  destruct (generateContent env (trace w) (EngagementPrompt segment))
    as [response|]; cbn [storage trace].
  - exists (analyzeEngagement_parse response), [EvGenerate (EngagementPrompt segment)].
    split; [reflexivity|]. apply analyzeEngagement_parse_five.
  - exists [0; 0; 0; 0; 0]%Z,
      [EvGenerate (EngagementPrompt segment);
       EvConsoleError "Error analyzing engagement:"].
    rewrite <- app_assoc. split; [reflexivity|]. split; [reflexivity|].
    repeat constructor; unfold in_percent; lia.
Qed.

Lemma mapM_analyzeEngagement_percent env segments :
  forall w, exists results w',
    mapM (analyzeEngagement env) segments w = (Ok results, w')
    /\ length results = length segments
    /\ Forall (Forall in_percent) results.
Proof.
  induction segments as [|seg segments IH]; intros w; cbn [mapM].
  - exists [], w. repeat split. constructor.
  - unfold bind at 1.
    destruct (analyzeEngagement_percent env seg w) as (l & evs & E & _ & Hl).
    rewrite E.
    destruct (IH (mkWorld (storage w) (trace w ++ evs)))
      as (results & w' & E' & Hlen & Hall).
    unfold bind at 1. rewrite E'. unfold ret.
    exists (l :: results), w'. split; [reflexivity|].
    split; [simpl; lia|]. constructor; auto.
Qed.

(** X10: on a non-empty list of messages the engagement trend is a list
    of five integers in [0, 100], whatever the model answers and also when
    its calls fail; computing it does not throw and leaves the store as it
    is. *)
Theorem calculateEngagementTrend_percent (env : Env)
    (messages : list Message) (w : World) :
  messages <> [] ->
  exists trend,
    fst (calculateEngagementTrend env messages w) = Ok trend
    /\ length trend = 5
    /\ Forall in_percent trend
    /\ storage (snd (calculateEngagementTrend env messages w)) = storage w
    /\ writes (trace (snd (calculateEngagementTrend env messages w)))
       = writes (trace w).
Proof.
  intros Hne.
  destruct (mapM_analyzeEngagement_percent env
              (splitMessagesIntoSegments messages) w)
    as (results & w' & E & Hlen & Hall).
  destruct (calculateEngagementTrend_run env messages w)
    as (trend & evs & Erun & Hw).
  assert (Ht : trend = averageEngagementLevels results).
  { unfold calculateEngagementTrend, try_catch, bind in Erun.
    rewrite E in Erun. unfold ret in Erun. now inversion Erun. }
  rewrite Erun. cbn [fst snd storage trace]. exists trend.
  split; [reflexivity|].
  rewrite Ht. split.
  { rewrite averageEngagementLevels_closed. reflexivity. }
  split.
  - apply averageEngagementLevels_in_percent; auto.
    destruct (splitMessagesIntoSegments_spec Hne) as (_ & _ & Hk & _).
    destruct results; [simpl in Hlen; lia|discriminate].
  - split; [reflexivity|]. now rewrite writes_app, Hw, app_nil_r.
Qed.

Lemma calculateEngagementTrend_percent_witness :
  exists trend,
    fst (calculateEngagementTrend Sample.env_three Sample.nine_messages
                                  Sample.empty_store) = Ok trend
    /\ length trend = 5.
Proof.
  destruct (@calculateEngagementTrend_percent Sample.env_three
              Sample.nine_messages Sample.empty_store)
    as (trend & Ht & H5 & _).
  - discriminate.
  - exists trend. auto.
Defined.

(* ===================================================================== *)
(** ** More on the aggregator *)
(* ===================================================================== *)

Lemma retry_analysis_value {A} env p (parse : jsstring -> A) label (d : A)
    retries w :
  exists v evs,
    retryOperation
      (try_catch (response <- model_text env p ;; ret (parse response))
                 (fun _ => console_error label ;; ret d)) retries w
    = (Ok v, mkWorld (storage w) (trace w ++ evs))
    /\ writes evs = []
    /\ generate_prompts evs = [p]
    /\ ((exists response, v = parse response) \/ v = d).
Proof.
  assert (H : exists v evs,
    try_catch (response <- model_text env p ;; ret (parse response))
              (fun _ => console_error label ;; ret d) w
    = (Ok v, mkWorld (storage w) (trace w ++ evs))
    /\ writes evs = []
    /\ generate_prompts evs = [p]
    /\ ((exists response, v = parse response) \/ v = d)).
  { unfold try_catch, bind, model_text, console_error, emit, ret.
    destruct (generateContent env (trace w) p) as [response|];
      cbn [storage trace].
    - exists (parse response), [EvGenerate p]. repeat split. eauto.
    - exists d, [EvGenerate p; EvConsoleError label].
      rewrite <- app_assoc. repeat split. auto. }
  destruct H as (v & evs & E & Hw & Hp & Hv).
  exists v, evs. rewrite retryOperation_first_try; rewrite E; auto.
Qed.

Lemma analyzeGoals_parse_percent response :
  Forall (fun g => in_percent (pg_progress g)) (analyzeGoals_parse response).
Proof.
  unfold analyzeGoals_parse. apply Forall_forall. intros g Hin.
  apply in_flat_map in Hin as (section & _ & Hin).
  pose proof (analyzeGoals_section_cases section) as C.
  destruct (Js.match_label_rest (Js.lit "Title: ") section);
    [destruct (Js.match_label_rest (Js.lit "Description: ") section)|];
    [destruct C as (p & st & E & Hp & _)|rewrite C in Hin..];
    try contradiction.
  rewrite E in Hin. destruct Hin as [<-|[]]. exact Hp.
Qed.

(** Runs the analysis at the head of the computation in the goal. *)
Ltac step_analysis env p parse label d w v evs Hw Hp Hv :=
  let E := fresh "E" in
  destruct (retry_analysis_value env p parse label d MAX_RETRIES w)
    as (v & evs & E & Hw & Hp & Hv);
  unfold bind at 1; rewrite E; clear E; cbv beta iota.

(** The aggregator on a non-empty list: five analyses that write nothing,
    then one save of the record they make. *)
Lemma trackProgressWithEmotions_run env messages w :
  messages <> [] ->
  exists pd evs,
    writes evs = []
    /\ generate_prompts evs = aggregator_prompts messages
    /\ aggregated pd
    /\ trackProgressWithEmotions env (ArrayArg messages) w
       = match saveProgress env pd (mkWorld (storage w) (trace w ++ evs)) with
         | (Ok _, w2) => (Ok pd, w2)
         | (Throw e, w2) =>
             (Throw e,
              mkWorld (storage w2)
                (trace w2
                 ++ [EvConsoleError "Error tracking progress with emotions:"]))
         end.
Proof.
  intros Hne.
  unfold trackProgressWithEmotions, try_catch.
  destruct (length messages =? 0) eqn:E0.
  { apply Nat.eqb_eq in E0. destruct messages; [congruence|discriminate]. }
  unfold analyzeEmotions, analyzeEngagement, analyzeSessionSummary,
    analyzeGoals, analyzeImprovements.
  step_analysis env (EmotionPrompt (filter isUser messages))
    analyzeEmotions_parse "Error analyzing emotions:"%string
    (mkEmotionAnalysis [] []) w v1 evs1 Hw1 Hp1 Hv1.
  step_analysis env (EngagementPrompt messages)
    analyzeEngagement_parse "Error analyzing engagement:"%string
    [0; 0; 0; 0; 0]%Z (mkWorld (storage w) (trace w ++ evs1))
    v2 evs2 Hw2 Hp2 Hv2.
  cbn [storage trace].
  step_analysis env (SessionSummaryPrompt messages)
    Js.trim "Error analyzing session summary:"%string
    (@nil N) (mkWorld (storage w) ((trace w ++ evs1) ++ evs2))
    v3 evs3 Hw3 Hp3 Hv3.
  cbn [storage trace].
  step_analysis env (GoalsPrompt messages)
    analyzeGoals_parse "Error analyzing goals:"%string
    (@nil ParsedGoal)
    (mkWorld (storage w) (((trace w ++ evs1) ++ evs2) ++ evs3))
    v4 evs4 Hw4 Hp4 Hv4.
  cbn [storage trace].
  step_analysis env (ImprovementsPrompt messages)
    analyzeImprovements_parse "Error analyzing improvements:"%string
    (mkImprovements [] [] [])
    (mkWorld (storage w) ((((trace w ++ evs1) ++ evs2) ++ evs3) ++ evs4))
    v5 evs5 Hw5 Hp5 Hv5.
  cbn [storage trace].
  unfold bind at 1. unfold date_now at 1. cbn [trace].
  cbn [validateProgressData].
  unfold bind at 1.
  match goal with
  | |- context [saveProgress env ?pd ?wx] =>
      exists pd, ((((evs1 ++ evs2) ++ evs3) ++ evs4) ++ evs5)
  end.
  split; [now rewrite !writes_app, Hw1, Hw2, Hw3, Hw4, Hw5|].
  split; [now rewrite !generate_prompts_app, Hp1, Hp2, Hp3, Hp4, Hp5|].
  split.
  { unfold aggregated. cbn [goals emotionalJourney engagementLevel].
    split; [|split].
    - assert (Hg : Forall (fun g => in_percent (pg_progress g)) v4).
      { destruct Hv4 as [[response ->]| ->];
          [apply analyzeGoals_parse_percent|constructor]. }
      apply Forall_map. eapply Forall_impl; [|exact Hg].
      intros g Hp. split; [reflexivity|exact Hp].
    - destruct Hv2 as [[response ->]| ->];
        [apply analyzeEngagement_parse_five|reflexivity].
    - destruct Hv2 as [[response ->]| ->].
      + apply analyzeEngagement_parse_five.
      + repeat constructor; unfold in_percent; lia. }
  rewrite <- !app_assoc.
  match goal with
  | |- context [saveProgress env ?pd ?wx] =>
      destruct (saveProgress env pd wx) as [[[]|e] w2]
  end.
  - reflexivity.
  - unfold console_error, bind, emit, throw. reflexivity.
Qed.

Lemma saveProgress_no_prompt env d w :
  generate_prompts (trace (snd (saveProgress env d w)))
  = generate_prompts (trace w).
Proof.
  destruct (saveProgress env d w) as [r w'] eqn:E.
  destruct (saveProgress_run _ _ _ E) as (evs & Htr & Hall & _).
  cbn [snd]. rewrite Htr, generate_prompts_app.
  replace (generate_prompts evs) with (@nil Prompt); [apply app_nil_r|].
  symmetry. clear - Hall.
  induction Hall as [|e evs He _ IH]; [reflexivity|].
  destruct He as [->|[[l ->]|[[ok ->]| ->]]]; exact IH.
Qed.

(** X11: on a non-empty list of messages the aggregator calls the model
    exactly five times, in the order emotions, engagement, summary, goals,
    improvements, whether or not the save succeeds afterwards; in the
    record it returns every goal has a progress in [0, 100] with the status
    of that progress, and there are five engagement levels in [0, 100]. *)
Theorem trackProgressWithEmotions_calls (env : Env)
    (messages : list Message) (w : World) :
  messages <> [] ->
  generate_prompts
    (trace (snd (trackProgressWithEmotions env (ArrayArg messages) w)))
  = generate_prompts (trace w) ++ aggregator_prompts messages
  /\ forall pd,
       fst (trackProgressWithEmotions env (ArrayArg messages) w) = Ok pd ->
       aggregated pd.
Proof.
  intros Hne.
  destruct (trackProgressWithEmotions_run env w Hne)
    as (pd & evs & _ & Hp & Hagg & E).
  rewrite E.
  pose proof (saveProgress_no_prompt env pd
                (mkWorld (storage w) (trace w ++ evs))) as Hs.
  destruct (saveProgress env pd (mkWorld (storage w) (trace w ++ evs)))
    as [[[]|e] w2]; cbn [fst snd storage trace] in *.
  - rewrite Hs, generate_prompts_app, Hp.
    split; [reflexivity|]. intros pd' H. inversion H; subst. exact Hagg.
  - rewrite generate_prompts_app, Hs, generate_prompts_app, Hp.
    split; [apply app_nil_r|]. discriminate.
Qed.

Lemma trackProgressWithEmotions_calls_witness :
  length (generate_prompts
    (trace (snd (trackProgressWithEmotions Sample.env_full
                   (ArrayArg Sample.messages) Sample.empty_store)))) = 5.
Proof.
  destruct (@trackProgressWithEmotions_calls Sample.env_full Sample.messages
              Sample.empty_store) as [H _].
  - discriminate.
  - rewrite H. reflexivity.
Defined.

(** X12: on a non-empty list of messages the aggregator fails only when
    the save fails: it returns whenever the store takes the write, and
    otherwise throws "Failed to save progress data" with the store as it
    was, so that the analysis is lost. *)
Theorem trackProgressWithEmotions_failure (env : Env)
    (messages : list Message) (w : World) :
  messages <> [] ->
  ((forall tr, setItem_throws env tr = false) ->
   is_ok (fst (trackProgressWithEmotions env (ArrayArg messages) w)) = true)
  /\ (is_ok (fst (trackProgressWithEmotions env (ArrayArg messages) w)) = false ->
      fst (trackProgressWithEmotions env (ArrayArg messages) w)
      = Throw (Err "Failed to save progress data")
      /\ storage (snd (trackProgressWithEmotions env (ArrayArg messages) w))
         = storage w
      /\ writes (trace (snd (trackProgressWithEmotions env
                               (ArrayArg messages) w)))
         = writes (trace w)).
Proof.
  intros Hne.
  destruct (trackProgressWithEmotions_run env w Hne)
    as (pd & evs & Hw & _ & _ & E).
  rewrite E.
  pose proof (saveProgress_succeeds env pd
                (mkWorld (storage w) (trace w ++ evs))) as Hok.
  destruct (saveProgress env pd (mkWorld (storage w) (trace w ++ evs)))
    as [[[]|e] w2] eqn:Es; cbn [fst snd storage trace is_ok] in *.
  - split; [reflexivity|discriminate].
  - split; [intros Hq; specialize (Hok Hq); discriminate|].
    intros _.
    destruct (saveProgress_run _ _ _ Es) as (_ & _ & _ & [[Habs _]|[He Hst]]);
      [discriminate|].
    destruct (saveProgress env pd (mkWorld (storage w) (trace w ++ evs)))
      as [r' w'] eqn:Es'.
    inversion Es; subst r' w'.
    assert (Hwr : writes (trace w2) = writes (trace w)).
    { unfold saveProgress, try_catch, bind in Es'.
      cbn [validateProgressData negb] in Es'.
      destruct (getProgressHistory_run (mkWorld (storage w) (trace w ++ evs)))
        as (evs1 & E1 & Hevs1).
      rewrite E1 in Es'.
      match type of Es' with
      | context [retryOperation ?op ?n ?wx] =>
          destruct (retryOperation op n wx) as [r2 w3] eqn:E2
      end.
      destruct (retry_setItem_writes _ _ _ _ E2) as (evs2 & Htr & Hwr2).
      destruct r2 as [[]|e2]; [discriminate|].
      unfold console_error, bind, emit, throw in Es'.
      inversion Es'; subst. cbn [storage trace] in *.
      rewrite Htr, !writes_app, Hwr2, (writes_reads Hevs1), Hw.
      cbn. now rewrite !app_nil_r. }
    split; [inversion He; reflexivity|]. split; [exact Hst|].
    now rewrite writes_app, Hwr, app_nil_r.
Qed.

Lemma trackProgressWithEmotions_failure_witness :
  fst (trackProgressWithEmotions Sample.env_full (ArrayArg Sample.messages)
                                 Sample.empty_store)
  = Throw (Err "Failed to save progress data")
  /\ is_ok (fst (trackProgressWithEmotions Sample.env
                   (ArrayArg Sample.messages) Sample.empty_store)) = true.
Proof.
  split.
  - destruct (@trackProgressWithEmotions_failure Sample.env_full
                Sample.messages Sample.empty_store) as [_ H].
    + discriminate.
    + apply H. vm_compute. reflexivity.
  - destruct (@trackProgressWithEmotions_failure Sample.env
                Sample.messages Sample.empty_store) as [H _].
    + discriminate.
    + apply H. reflexivity.
Defined.

(* ===================================================================== *)
(** ** More on ending a session *)
(* ===================================================================== *)

Lemma mapM_analyzeEngagement_full env segments :
  forall w, exists results evs,
    mapM (analyzeEngagement env) segments w
    = (Ok results, mkWorld (storage w) (trace w ++ evs))
    /\ length results = length segments
    /\ Forall (Forall in_percent) results
    /\ generate_prompts evs = map EngagementPrompt segments
    /\ writes evs = [].
Proof.
  intros w.
  destruct (mapM_analyzeEngagement_run env segments w)
    as (results & evs & E & Hlen & _ & Hp & Hw).
  destruct (mapM_analyzeEngagement_percent env segments w)
    as (results' & w' & E' & _ & Hall).
  rewrite E in E'. inversion E'; subst.
  exists results', evs. auto.
Qed.

Lemma calculateEngagementTrend_full env messages w :
  messages <> [] ->
  exists trend evs,
    calculateEngagementTrend env messages w
    = (Ok trend, mkWorld (storage w) (trace w ++ evs))
    /\ length trend = 5
    /\ Forall in_percent trend
    /\ generate_prompts evs
       = map EngagementPrompt (splitMessagesIntoSegments messages)
    /\ writes evs = [].
Proof.
  intros Hne.
  destruct (mapM_analyzeEngagement_full env
              (splitMessagesIntoSegments messages) w)
    as (results & evs & E & Hlen & Hall & Hp & Hw).
  exists (averageEngagementLevels results), evs.
  split.
  { unfold calculateEngagementTrend, try_catch, bind. rewrite E. reflexivity. }
  rewrite averageEngagementLevels_closed.
  split; [reflexivity|]. split; [|auto].
  apply Forall_map, Forall_forall. intros idx _.
  apply round_div_percent.
  - destruct (splitMessagesIntoSegments_spec Hne) as (_ & _ & Hk & _).
    lia.
  - now apply dim_sum_bounds.
Qed.

(** [endSession] on a non-empty list as the sequence of its steps. *)
Lemma endSession_unfold env messages w :
  messages <> [] ->
  endSession env (ArrayArg messages) w
  = match getLatestProgress w with
    | (Throw e, w0) => (Throw e, session_failed w0)
    | (Ok latest, w0) =>
    match trackProgressWithEmotions env (ArrayArg messages) w0 with
    | (Throw e, w1) => (Throw e, session_failed w1)
    | (Ok pre, w1) =>
    match calculateEngagementTrend env messages w1 with
    | (Throw e, w2) => (Throw e, session_failed w2)
    | (Ok trend, w2) =>
    match analyzeSession env (map text messages) w2 with
    | (Throw e, w3) => (Throw e, session_failed w3)
    | (Ok analysis, w3) =>
    match generateComprehensiveSummary (sessionSummary pre) analysis with
    | Throw e => (Throw e, session_failed w3)
    | Ok summary =>
    match saveProgress env (session_record latest pre trend summary) w3 with
    | (Throw e, w4) => (Throw e, session_failed w4)
    | (Ok _, w4) => (Ok (session_record latest pre trend summary), w4)
    end end end end end end.
Proof.
  intros Hne.
  unfold endSession, try_catch.
  destruct (length messages =? 0) eqn:E0.
  { apply Nat.eqb_eq in E0. destruct messages; [congruence|discriminate]. }
  unfold bind at 1.
  destruct (getLatestProgress w) as [[latest|e] w0]; [|reflexivity].
  unfold bind at 1.
  destruct (trackProgressWithEmotions env (ArrayArg messages) w0)
    as [[pre|e] w1]; [|reflexivity].
  unfold bind at 1.
  destruct (calculateEngagementTrend env messages w1)
    as [[trend|e] w2]; [|reflexivity].
  unfold bind at 1.
  destruct (analyzeSession env (map text messages) w2)
    as [[analysis|e] w3]; [|reflexivity].
  unfold bind at 1. unfold lift at 1.
  replace (sessionSummary (set_engagementLevel _ trend))
    with (sessionSummary pre) by (destruct latest; reflexivity).
  destruct (generateComprehensiveSummary (sessionSummary pre) analysis)
    as [summary|e]; [|reflexivity].
  unfold bind at 1.
  replace (set_sessionSummary (set_engagementLevel _ trend) summary)
    with (session_record latest pre trend summary)
    by (destruct latest; reflexivity).
  destruct (saveProgress env (session_record latest pre trend summary) w3)
    as [[[]|e] w4]; reflexivity.
Qed.

(** The steps of [endSession] that cannot fail, and what they leave. *)
Lemma endSession_run env messages w :
  messages <> [] ->
  let latest := last (map Some (stored_history (storage w))) None in
  exists evs0,
    writes evs0 = [] /\ generate_prompts evs0 = []
    /\ match trackProgressWithEmotions env (ArrayArg messages)
               (mkWorld (storage w) (trace w ++ evs0)) with
       | (Throw e, w1) =>
           endSession env (ArrayArg messages) w = (Throw e, session_failed w1)
       | (Ok pre, w1) =>
           exists trend evs2 analysis evs3,
             length trend = 5 /\ Forall in_percent trend
             /\ generate_prompts evs2
                = map EngagementPrompt (splitMessagesIntoSegments messages)
             /\ writes evs2 = []
             /\ generate_prompts evs3 = [SessionPrompt (map text messages)]
             /\ writes evs3 = []
             /\ match generateComprehensiveSummary (sessionSummary pre)
                        analysis with
                | Throw e =>
                    e = TypeError
                    /\ endSession env (ArrayArg messages) w
                       = (Throw e,
                          session_failed
                            (mkWorld (storage w1)
                                     ((trace w1 ++ evs2) ++ evs3)))
                | Ok summary =>
                    match saveProgress env
                            (session_record latest pre trend summary)
                            (mkWorld (storage w1)
                                     ((trace w1 ++ evs2) ++ evs3)) with
                    | (Ok _, w4) =>
                        endSession env (ArrayArg messages) w
                        = (Ok (session_record latest pre trend summary), w4)
                    | (Throw e, w4) =>
                        endSession env (ArrayArg messages) w
                        = (Throw e, session_failed w4)
                    end
                end
       end.
Proof.
  intros Hne latest.
  pose proof (endSession_unfold env w Hne) as U.
  destruct (getProgressHistory_run w) as (evs0 & Eh & Hevs0).
  assert (Eg : getLatestProgress w
               = (Ok latest, mkWorld (storage w) (trace w ++ evs0))).
  { destruct (getLatestProgress_run w) as (evs0' & E0' & _).
    unfold getLatestProgress, bind, ret in *. rewrite Eh in *.
    inversion E0'. subst latest. congruence. }
  rewrite Eg in U.
  exists evs0.
  split; [now apply writes_reads|].
  split; [now apply generate_prompts_reads|].
  destruct (trackProgressWithEmotions env (ArrayArg messages)
              (mkWorld (storage w) (trace w ++ evs0))) as [[pre|e] w1];
    [|exact U].
  destruct (calculateEngagementTrend_full env w1 Hne)
    as (trend & evs2 & E2 & H5 & Hp & Hp2 & Hw2).
  rewrite E2 in U.
  destruct (analysis_run env (SessionPrompt (map text messages))
              (parseAnalysisResponse (toLowerCase env))
              "Error analyzing session:"
              (mkSessionAnalysis (Js.lit "Unable to analyze") (Some []) (Some []))
              (mkWorld (storage w1) (trace w1 ++ evs2)))
    as (analysis & evs3 & E3 & Hw3 & Hp3).
  unfold analyzeSession in U. rewrite E3 in U. cbn [storage trace] in U.
  exists trend, evs2, analysis, evs3.
  do 6 (split; [assumption|]).
  destruct (generateComprehensiveSummary (sessionSummary pre) analysis)
    as [summary|e] eqn:Eg'.
  - destruct (saveProgress env (session_record latest pre trend summary)
                (mkWorld (storage w1) ((trace w1 ++ evs2) ++ evs3)))
      as [[[]|e] w4]; exact U.
  - split; [|exact U].
    unfold generateComprehensiveSummary in Eg'.
    destruct (keyTopics analysis), (insights analysis);
      inversion Eg'; reflexivity.
Qed.

Lemma saveProgress_cases env d w :
  let kept := Js.slice_last 50 (stored_history (storage w) ++ [d]) in
  (exists w1,
     saveProgress env d w = (Ok tt, w1)
     /\ storage w1 = ArrayOf (map ItemValid kept)
     /\ writes (trace w1) = writes (trace w) ++ [kept])
  \/ (exists w1,
        saveProgress env d w = (Throw (Err "Failed to save progress data"), w1)
        /\ storage w1 = storage w
        /\ writes (trace w1) = writes (trace w)
        /\ exists tr, setItem_throws env tr = true).
Proof.
  intros kept.
  destruct (saveProgress env d w) as [r w1] eqn:E.
  destruct (saveProgress_run _ _ _ E) as (_ & _ & _ & [[-> Hst]|[-> Hst]]).
  - left. exists w1. destruct (saveProgress_ok _ _ _ E) as [_ Hw]. auto.
  - right. exists w1. split; [reflexivity|]. split; [exact Hst|].
    unfold saveProgress, try_catch, bind in E.
    cbn [validateProgressData negb] in E.
    destruct (getProgressHistory_run w) as (evs1 & E1 & Hevs1).
    rewrite E1 in E.
    match type of E with
    | context [retryOperation ?op ?n ?wx] =>
        destruct (retryOperation op n wx) as [r2 w3] eqn:E2
    end.
    destruct (retry_setItem_writes _ _ _ _ E2) as (evs2 & Htr & Hwr2).
    destruct r2 as [[]|e2]; [discriminate|].
    assert (Hrefused : exists tr, setItem_throws env tr = true).
    { rewrite retryOperation_unfold in E2.
      unfold localStorage_setItem at 1 in E2.
      destruct (setItem_throws env (trace (mkWorld (storage w) (trace w ++ evs1))))
        eqn:Eq; [eauto|discriminate]. }
    unfold console_error, bind, emit, throw in E.
    inversion E; subst. cbn [storage trace] in *.
    split; [|exact Hrefused].
    rewrite Htr, !writes_app, Hwr2, (writes_reads Hevs1).
    cbn. now rewrite !app_nil_r.
Qed.

Lemma trackProgressWithEmotions_cases env messages w :
  messages <> [] ->
  exists pd,
    aggregated pd
    /\ ((exists w1,
           trackProgressWithEmotions env (ArrayArg messages) w = (Ok pd, w1)
           /\ storage w1
              = ArrayOf (map ItemValid
                   (Js.slice_last 50 (stored_history (storage w) ++ [pd])))
           /\ writes (trace w1)
              = writes (trace w)
                ++ [Js.slice_last 50 (stored_history (storage w) ++ [pd])]
           /\ generate_prompts (trace w1)
              = generate_prompts (trace w) ++ aggregator_prompts messages)
        \/ (exists w1,
              trackProgressWithEmotions env (ArrayArg messages) w
              = (Throw (Err "Failed to save progress data"), w1)
              /\ storage w1 = storage w
              /\ writes (trace w1) = writes (trace w)
              /\ exists tr, setItem_throws env tr = true)).
Proof.
  intros Hne.
  destruct (trackProgressWithEmotions_run env w Hne)
    as (pd & evs & Hw & Hp & Hagg & E).
  exists pd. split; [exact Hagg|].
  pose proof (saveProgress_no_prompt env pd
                (mkWorld (storage w) (trace w ++ evs))) as Hs.
  destruct (saveProgress_cases env pd (mkWorld (storage w) (trace w ++ evs)))
    as [(w1 & Es & Hst & Hwr)|(w1 & Es & Hst & Hwr & Href)];
    rewrite Es in E, Hs; cbn [fst snd storage trace] in *.
  - left. exists w1. split; [exact E|]. split; [exact Hst|].
    split.
    + now rewrite Hwr, writes_app, Hw, app_nil_r.
    + now rewrite Hs, generate_prompts_app, Hp.
  - right. eexists. split; [exact E|]. cbn [storage trace].
    split; [exact Hst|]. split; [|exact Href].
    now rewrite writes_app, Hwr, writes_app, Hw, !app_nil_r.
Qed.

(** X13: the record that [endSession] returns is put together from four
    runs that follow one another: the aggregator, run after the read of the
    latest record, gives [pre]; the engagement trend, computed in the world
    the aggregator left, gives [trend]; the session analysis, run next,
    gives [analysis]; and the comprehensive summary of the summary of [pre]
    and of [analysis] gives [summary].  The goals of the record are the
    merge of the latest stored goals with those of [pre] (those of [pre]
    when nothing is stored), its emotions are the latest emotions followed
    by those of [pre], its improvements, dominant emotions and timestamp
    are those of [pre], its engagement levels are [trend], five integers in
    [0, 100], and its summary is [summary]. *)
Theorem endSession_record (env : Env) (messages : list Message) (w : World)
    (final : ProgressData) (w' : World) :
  endSession env (ArrayArg messages) w = (Ok final, w') ->
  let latest := last (map Some (stored_history (storage w))) None in
  exists pre w1 trend w2 analysis w3 summary,
    fst (getLatestProgress w) = Ok latest
    /\ trackProgressWithEmotions env (ArrayArg messages)
         (snd (getLatestProgress w)) = (Ok pre, w1)
    /\ calculateEngagementTrend env messages w1 = (Ok trend, w2)
    /\ analyzeSession env (map text messages) w2 = (Ok analysis, w3)
    /\ generateComprehensiveSummary (sessionSummary pre) analysis = Ok summary
    /\ saveProgress env final w3 = (Ok tt, w')
    /\ final
       = mkProgressData
           summary
           (match latest with
            | Some l => mergeGoals (goals l) (goals pre)
            | None => goals pre
            end)
           (improvements pre)
           (timestamp pre)
           (mkEmotionalJourney
              (match latest with
               | Some l => emotions (emotionalJourney l)
                           ++ emotions (emotionalJourney pre)
               | None => emotions (emotionalJourney pre)
               end)
              (dominantEmotions (emotionalJourney pre))
              trend)
    /\ aggregated pre
    /\ length trend = 5
    /\ Forall in_percent trend.
Proof.
  intros H latest.
  assert (Hne : messages <> []).
  { intros ->. discriminate H. }
  pose proof (endSession_unfold env w Hne) as U.
  rewrite H in U.
  destruct (getLatestProgress_run w) as (evs0 & Eg & _).
  fold latest in Eg. rewrite Eg in U. rewrite Eg. cbn [fst snd].
  destruct (trackProgressWithEmotions_cases env
              (mkWorld (storage w) (trace w ++ evs0)) Hne)
    as (pre & Hagg & [(w1 & Et & _)|(w1 & Et & _)]);
    rewrite Et in U; [|discriminate U].
  destruct (calculateEngagementTrend_full env w1 Hne)
    as (trend & evs2 & Ec & H5 & Hp & _).
  rewrite Ec in U.
  destruct (analyzeSession env (map text messages)
              (mkWorld (storage w1) (trace w1 ++ evs2)))
    as [[analysis|e] w3] eqn:Ea; [|discriminate U].
  destruct (generateComprehensiveSummary (sessionSummary pre) analysis)
    as [summary|e] eqn:Es; [|discriminate U].
  destruct (saveProgress env (session_record latest pre trend summary) w3)
    as [[[]|e] w4] eqn:Ew; [|discriminate U].
  inversion U; subst final w'.
  exists pre, w1, trend, (mkWorld (storage w1) (trace w1 ++ evs2)),
    analysis, w3, summary.
  split; [reflexivity|]. split; [exact Et|]. split; [exact Ec|].
  split; [exact Ea|]. split; [exact Es|]. split; [exact Ew|].
  split; [reflexivity|]. split; [exact Hagg|]. split; [exact H5|exact Hp].
Qed.

Lemma endSession_record_witness :
  exists final,
    fst (endSession Sample.env (ArrayArg Sample.messages)
                    MoreSamples.one_record_store) = Ok final
    /\ goals final
       = [ mkGoal (Js.lit "Sleep better") 70 InProgress;
           mkGoal (Js.lit "Exercise") 0 NotStarted ]
    /\ length (emotions (emotionalJourney final)) = 2
    /\ exists pre w1,
         trackProgressWithEmotions Sample.env (ArrayArg Sample.messages)
           (snd (getLatestProgress MoreSamples.one_record_store))
         = (Ok pre, w1)
         /\ improvements final = improvements pre
         /\ timestamp final = timestamp pre.
Proof.
  set (final := match fst (endSession Sample.env (ArrayArg Sample.messages)
                                      MoreSamples.one_record_store) with
                | Ok final => final
                | Throw _ => Sample.record ""
                end).
  exists final.
  split; [vm_compute; reflexivity|].
  split; [vm_compute; reflexivity|].
  split; [vm_compute; reflexivity|].
  destruct (@endSession_record Sample.env Sample.messages
              MoreSamples.one_record_store final
              (snd (endSession Sample.env (ArrayArg Sample.messages)
                               MoreSamples.one_record_store)))
    as (pre & w1 & trend & w2 & analysis & w3 & summary
        & _ & Et & _ & _ & _ & _ & Hf & _).
  - vm_compute. reflexivity.
  - exists pre, w1. split; [exact Et|]. rewrite Hf. split; reflexivity.
Defined.



(** X15: a session that ends well has called the model six times and once
    more for every segment of the trend: the five analyses of the
    aggregator, the engagement analysis of each segment in order, and the
    session analysis; between 7 and 9 calls in all. *)
Theorem endSession_calls (env : Env) (messages : list Message) (w : World)
    (final : ProgressData) (w' : World) :
  endSession env (ArrayArg messages) w = (Ok final, w') ->
  generate_prompts (trace w')
  = generate_prompts (trace w)
    ++ aggregator_prompts messages
    ++ map EngagementPrompt (splitMessagesIntoSegments messages)
    ++ [SessionPrompt (map text messages)]
  /\ 7 <= length (generate_prompts (trace w'))
          - length (generate_prompts (trace w)) <= 9.
Proof.
  intros H.
  assert (Hne : messages <> []).
  { intros ->. discriminate H. }
  destruct (endSession_run env w Hne) as (evs0 & _ & Hp0 & R).
  destruct (trackProgressWithEmotions_cases env
              (mkWorld (storage w) (trace w ++ evs0)) Hne)
    as (pd & _ & [(w1 & Et & _ & _ & Hp1)|(w1 & Et & _)]);
    rewrite Et in R; [|rewrite R in H; discriminate].
  cbn [trace] in Hp1. rewrite generate_prompts_app, Hp0, app_nil_r in Hp1.
  destruct R as (trend & evs2 & analysis & evs3 & _ & _ & Hp2 & _ & Hp3 & _ & R).
  destruct (generateComprehensiveSummary (sessionSummary pd) analysis)
    as [summary|e].
  2:{ destruct R as [_ R]. rewrite R in H. discriminate. }
  pose proof (saveProgress_no_prompt env
                (session_record (last (map Some (stored_history (storage w))) None)
                                pd trend summary)
                (mkWorld (storage w1) ((trace w1 ++ evs2) ++ evs3))) as Hs.
  destruct (saveProgress env _ (mkWorld (storage w1) ((trace w1 ++ evs2) ++ evs3)))
    as [[[]|e] w4]; rewrite R in H; [|discriminate].
  inversion H; subst. cbn [snd trace] in Hs.
  assert (Hall : generate_prompts (trace w')
    = generate_prompts (trace w)
      ++ aggregator_prompts messages
      ++ map EngagementPrompt (splitMessagesIntoSegments messages)
      ++ [SessionPrompt (map text messages)]).
  { rewrite Hs, !generate_prompts_app, Hp1, Hp2, Hp3, <- !app_assoc.
    reflexivity. }
  split; [exact Hall|].
  rewrite Hall, !length_app, length_map. cbn [aggregator_prompts length].
  destruct (splitMessagesIntoSegments_spec Hne) as (_ & _ & Hk & _).
  lia.
Qed.

Lemma endSession_calls_witness :
  length (generate_prompts (trace (snd
    (endSession Sample.env (ArrayArg Sample.messages) Sample.empty_store))))
  = 8.
Proof.
  destruct (@endSession_calls Sample.env Sample.messages Sample.empty_store
              (match fst (endSession Sample.env (ArrayArg Sample.messages)
                                     Sample.empty_store) with
               | Ok final => final
               | Throw _ => Sample.record ""
               end)
              (snd (endSession Sample.env (ArrayArg Sample.messages)
                               Sample.empty_store)))
    as (Hall & _).
  - vm_compute. reflexivity.
  - rewrite Hall. reflexivity.
Defined.

(* ===================================================================== *)
(** ** More on the parsers *)
(* ===================================================================== *)

Lemma drop_while_idem p s :
  Js.drop_while p (Js.drop_while p s) = Js.drop_while p s.
Proof.
  induction s as [|c s IH]; [reflexivity|]. cbn [Js.drop_while].
  destruct (p c) eqn:E; [exact IH|]. cbn [Js.drop_while]. now rewrite E.
Qed.

Lemma drop_while_head p s c r :
  Js.drop_while p s = c :: r -> p c = false.
Proof.
  induction s as [|x s IH]; cbn [Js.drop_while]; [discriminate|].
  destruct (p x) eqn:E; [exact IH|]. intros H. inversion H; subst. exact E.
Qed.

Lemma drop_while_suffix p s : exists pre, s = pre ++ Js.drop_while p s.
Proof.
  induction s as [|x s [pre IH]]; [exists []; reflexivity|].
  cbn [Js.drop_while]. destruct (p x).
  - exists (x :: pre). cbn. now rewrite <- IH.
  - exists []. reflexivity.
Qed.

(** What [trim] returns has no white space left at either end: trimming it
    again changes nothing. *)
Lemma trim_trim s : Js.trim (Js.trim s) = Js.trim s.
Proof.
  unfold Js.trim.
  set (t := Js.drop_while Js.is_space s).
  set (u := Js.drop_while Js.is_space (rev t)).
  assert (Hu : Js.drop_while Js.is_space u = u) by apply drop_while_idem.
  assert (Ha : Js.drop_while Js.is_space (rev u) = rev u).
  { destruct (rev u) as [|c r] eqn:Er; [reflexivity|].
    cbn [Js.drop_while].
    replace (Js.is_space c) with false; [reflexivity|].
    symmetry.
    destruct (drop_while_suffix Js.is_space (rev t)) as [pre Hpre].
    fold u in Hpre.
    apply (f_equal (@rev N)) in Hpre.
    rewrite rev_involutive, rev_app_distr, Er in Hpre.
    cbn in Hpre. eapply drop_while_head. unfold t in Hpre. exact Hpre. }
  now rewrite Ha, rev_involutive, Hu.
Qed.

Lemma extractBulletPoints_items_aux text :
  Forall (fun item => item <> [] /\ Js.trim item = item)
         (extractBulletPoints text).
Proof.
  unfold extractBulletPoints.
  apply Forall_forall. intros item Hin.
  apply filter_In in Hin as [Hin Hlen].
  apply in_map_iff in Hin as (line & <- & _).
  split; [|apply trim_trim].
  intros E. rewrite E in Hlen. discriminate.
Qed.

(** X16: every bullet point extracted from a text is a non-empty string
    without white space at its ends, and there is at most one per line. *)
Theorem extractBulletPoints_items (text : jsstring) :
  Forall (fun item => item <> [] /\ Js.trim item = item)
         (extractBulletPoints text)
  /\ length (extractBulletPoints text) <= length (Js.split Js.nl text).
Proof.
  split; [apply extractBulletPoints_items_aux|].
  unfold extractBulletPoints.
  etransitivity; [apply filter_length_le|]. now rewrite length_map.
Qed.

Lemma run_until_invariant {S A} (P : S -> Prop)
    (step : S -> A -> S * option Error) :
  (forall s x, P s -> P (fst (step s x))) ->
  forall l s, P s -> P (fst (run_until step l s)).
Proof.
  intros Hstep. induction l as [|x l IH]; intros s Hs; cbn [run_until].
  - exact Hs.
  - specialize (Hstep s x Hs).
    destruct (step s x) as [s' [e|]]; cbn [fst] in *; auto.
Qed.

Lemma run_until_error {S A} (step : S -> A -> S * option Error) :
  (forall s x e, snd (step s x) = Some e -> e = TypeError) ->
  forall l s e, snd (run_until step l s) = Some e -> e = TypeError.
Proof.
  intros Hstep. induction l as [|x l IH]; intros s e; cbn [run_until].
  - discriminate.
  - specialize (Hstep s x).
    destruct (step s x) as [s' [e'|]]; cbn [snd] in *; eauto.
Qed.

Lemma match_percent_digits s ds :
  match_percent s = Some ds ->
  ds <> [] /\ forallb Js.is_digit ds = true.
Proof. apply match_label_percent_digits. Qed.

Lemma parseProgress_goalLine_ok line g :
  parseProgress_goalLine line = Ok g ->
  consistent g /\ (0 <= progress g)%Z.
Proof.
  unfold parseProgress_goalLine.
  destruct (nth_error _ 1) as [statusStr|]; [|discriminate].
  cbv zeta. intros H. inversion H; subst; clear H.
  unfold consistent. cbn [status progress]. split; [reflexivity|].
  destruct (match_percent statusStr) as [ds|] eqn:E; [|lia].
  destruct (match_percent_digits _ E) as [Hne Hd].
  rewrite (JsFacts.parseInt_digits Hne Hd). cbn [Js.or_zero].
  now apply JsFacts.digits_value_nonneg.
Qed.

Lemma mapRes_ok {A B} (f : A -> Res B) (P : B -> Prop) :
  (forall x y, f x = Ok y -> P y) ->
  forall l ys, mapRes f l = Ok ys -> Forall P ys.
Proof.
  intros Hf. induction l as [|x l IH]; intros ys H; cbn [mapRes] in H.
  - inversion H. constructor.
  - destruct (f x) as [y|e] eqn:E; [|discriminate].
    destruct (mapRes f l) as [ys'|e]; [|discriminate].
    inversion H; subst. constructor; eauto.
Qed.

Lemma mapRes_error {A B} (f : A -> Res B) :
  (forall x e, f x = Throw e -> e = TypeError) ->
  forall l e, mapRes f l = Throw e -> e = TypeError.
Proof.
  intros Hf. induction l as [|x l IH]; intros e H; cbn [mapRes] in H.
  - discriminate.
  - destruct (f x) as [y|e'] eqn:E.
    + destruct (mapRes f l) as [ys'|e'']; [discriminate|].
      inversion H; subst. now apply IH.
    + inversion H; subst. eapply Hf; eauto.
Qed.

Lemma parseProgress_section_goals toLowerCase pp section :
  Forall report_goal (pp_goals pp) ->
  Forall report_goal
    (pp_goals (fst (parseProgress_section toLowerCase pp section))).
Proof.
  intros H. unfold parseProgress_section. cbv zeta.
  destruct (Js.includes (Js.lit "summary") _); [exact H|].
  destruct (Js.includes (Js.lit "goals") _).
  - destruct (mapRes parseProgress_goalLine _) as [gs|e] eqn:E; [|exact H].
    cbn [fst pp_goals].
    pose proof (mapRes_ok parseProgress_goalLine
                  (fun g => consistent g /\ (0 <= progress g)%Z)
                  parseProgress_goalLine_ok _ E) as Hgs.
    apply Forall_forall. intros g Hin. apply filter_In in Hin as [Hin Ht].
    rewrite Forall_forall in Hgs. destruct (Hgs g Hin) as [Hc Hp].
    split; [exact Hc|]. split; [|exact Hp].
    intros Eg. rewrite Eg in Ht. discriminate.
  - destruct (Js.includes (Js.lit "improvements") _); [|exact H].
    destruct (run_until _ _ _) as [improvements thrown]. exact H.
Qed.

Lemma colon_dash_items_error line e :
  colon_dash_items line = Throw e -> e = TypeError.
Proof.
  unfold colon_dash_items. destruct (nth_error _ 1); [discriminate|].
  intros H. now inversion H.
Qed.

Lemma parseProgress_section_error toLowerCase pp section e :
  snd (parseProgress_section toLowerCase pp section) = Some e ->
  e = TypeError.
Proof.
  unfold parseProgress_section. cbv zeta.
  destruct (Js.includes (Js.lit "summary") _); [discriminate|].
  destruct (Js.includes (Js.lit "goals") _).
  - destruct (mapRes parseProgress_goalLine _) as [gs|e'] eqn:E;
      [discriminate|].
    cbn [snd]. intros H. inversion H; subst.
    eapply mapRes_error; [|exact E].
    intros x e0. unfold parseProgress_goalLine.
    destruct (nth_error _ 1); [discriminate|]. intros H0. now inversion H0.
  - destruct (Js.includes (Js.lit "improvements") _); [|discriminate].
    destruct (run_until (parseProgress_improvementLine toLowerCase) _ _)
      as [improvements thrown] eqn:E.
    cbn [snd]. intros ->.
    eapply (run_until_error (parseProgress_improvementLine toLowerCase)).
    2:{ rewrite E. reflexivity. }
    intros s x e0. unfold parseProgress_improvementLine.
    repeat match goal with
           | |- context [if ?b then _ else _] => destruct b
           end;
      try discriminate;
      destruct (colon_dash_items x) as [l|e1] eqn:Ec; try discriminate;
      cbn [snd]; intros H; inversion H; subst;
      eapply colon_dash_items_error; eauto.
Qed.

Lemma parseProgressResponse_goals_aux toLowerCase text :
  Forall report_goal
    (pp_goals (fst (parseProgressResponse_run toLowerCase text))).
Proof.
  unfold parseProgressResponse_run.
  apply (run_until_invariant (fun p => Forall report_goal (pp_goals p))).
  - intros s x. apply parseProgress_section_goals.
  - constructor.
Qed.

(** X17: in the progress report that the parser returns every goal has a
    non-empty text, a progress that is not negative (and not capped at
    100) and the status of that progress; the only failure inside the
    parser is a [TypeError] (a goal line without [|], an improvement line
    without a colon), and then what was parsed before it is returned. *)
Theorem parseProgressResponse_goals (toLowerCase : jsstring -> jsstring)
    (text : jsstring) :
  Forall report_goal
    (pp_goals (fst (parseProgressResponse_run toLowerCase text)))
  /\ (snd (parseProgressResponse_run toLowerCase text) = None
      \/ snd (parseProgressResponse_run toLowerCase text) = Some TypeError).
Proof.
  split; [apply parseProgressResponse_goals_aux|].
  unfold parseProgressResponse_run.
  destruct (snd (run_until _ _ _)) as [e|] eqn:E; [|auto].
    right. f_equal.
    eapply (run_until_error (parseProgress_section toLowerCase)); [|exact E].
  intros s x e0. apply parseProgress_section_error.
Qed.

(** A progress above 100 is kept as it is, and a goal line without [|]
    ends the parsing: the goals of its section and the sections after it
    are not read. *)
Example parseProgressResponse_edges :
  pp_goals (fst (parseProgressResponse_run Sample.lower_ascii
                   (Js.lit "Goals:
Sleep better | 150% - Status: achieved")))
  = [mkGoal (Js.lit "Sleep better") 150 Achieved]
  /\ parseProgressResponse_run Sample.lower_ascii (Js.lit "Goals:
Sleep better | 50%
no pipe here

Summary:
not read")
     = (mkPartialProgress [] [] (mkImprovements [] [] []), Some TypeError).
Proof. split; vm_compute; reflexivity. Qed.

Lemma parseProgressResponse_ok toLowerCase text w :
  exists evs,
    parseProgressResponse toLowerCase text w
    = (Ok (fst (parseProgressResponse_run toLowerCase text)),
       mkWorld (storage w) (trace w ++ evs))
    /\ writes evs = [] /\ generate_prompts evs = [].
Proof.
  unfold parseProgressResponse.
  destruct (parseProgressResponse_run toLowerCase text) as [p [e|]].
  - exists [EvConsoleError "Error parsing progress:"]. repeat split.
  - exists []. rewrite app_nil_r. destruct w. repeat split.
Qed.

(** X18: [trackProgress] does not throw, whatever the call of the model
    does: it returns a record whose summary is not empty, whose emotional
    journey is empty and whose goals have the status of their progress;
    it adds nothing to what the call itself does to the store. *)
Theorem trackProgress_returns (env : Env) (model_call : M jsstring)
    (w : World) :
  exists pd,
    fst (trackProgress env model_call w) = Ok pd
    /\ sessionSummary pd <> []
    /\ emotionalJourney pd = mkEmotionalJourney [] [] []
    /\ Forall report_goal (goals pd)
    /\ storage (snd (trackProgress env model_call w))
       = storage (snd (model_call w))
    /\ writes (trace (snd (trackProgress env model_call w)))
       = writes (trace (snd (model_call w))).
Proof.
  unfold trackProgress, try_catch, bind, date_now, ret.
  destruct (model_call w) as [[text|e] w1]; cbn [snd].
  - destruct (parseProgressResponse_ok (toLowerCase env) text w1)
      as (evs & E & Hw & _).
    rewrite E. cbn [fst snd storage trace].
    eexists. split; [reflexivity|]. cbn [sessionSummary emotionalJourney goals].
    split.
    { destruct (pp_sessionSummary _) eqn:Es; cbn; [discriminate|].
      discriminate. }
    split; [reflexivity|].
    split; [apply parseProgressResponse_goals_aux|].
    split; [reflexivity|]. now rewrite writes_app, Hw, app_nil_r.
  - unfold console_error, emit.
    cbn [fst snd storage trace]. eexists. split; [reflexivity|].
    unfold unable_record. cbn [sessionSummary emotionalJourney goals].
    split; [discriminate|]. split; [reflexivity|]. split; [constructor|].
    split; [reflexivity|]. now rewrite writes_app, app_nil_r.
Qed.

(** X19: [trackProgressManual] does not throw either: the record it
    returns has no goals and an empty emotional journey, its summary has
    no white space at its ends, and every strength, challenge and
    recommendation is a non-empty string without white space at its
    ends. *)
Theorem trackProgressManual_returns (env : Env) (model_call : M jsstring)
    (w : World) :
  exists pd,
    fst (trackProgressManual env model_call w) = Ok pd
    /\ goals pd = []
    /\ emotionalJourney pd = mkEmotionalJourney [] [] []
    /\ Js.trim (sessionSummary pd) = sessionSummary pd
    /\ Forall (fun item => item <> [] /\ Js.trim item = item)
              (strengths (improvements pd) ++ challenges (improvements pd)
               ++ recommendations (improvements pd))
    /\ storage (snd (trackProgressManual env model_call w))
       = storage (snd (model_call w)).
Proof.
  unfold trackProgressManual, try_catch, bind, date_now, ret.
  destruct (model_call w) as [[text|e] w1]; cbn [snd].
  - cbn [fst snd storage trace].
    eexists. split; [reflexivity|].
    cbn [sessionSummary emotionalJourney goals improvements strengths
         challenges recommendations].
    split; [reflexivity|]. split; [reflexivity|].
    split; [apply trim_trim|]. split; [|reflexivity].
    repeat (apply Forall_app; split); apply extractBulletPoints_items_aux.
  - unfold console_error, emit.
    cbn [fst snd storage trace]. eexists. split; [reflexivity|].
    unfold unable_record.
    cbn [sessionSummary emotionalJourney goals improvements strengths
         challenges recommendations app].
    split; [reflexivity|]. split; [reflexivity|].
    split; [vm_compute; reflexivity|]. split; [constructor|reflexivity].
Qed.

(** X20: every goal that [extractGoals] makes of a line has the status of
    its progress, which is 0, 50 or 100, and a text without white space at
    its ends; there is one goal per line that is not blank. *)
Theorem extractGoals_consistent (toLowerCase : jsstring -> jsstring)
    (text : jsstring) :
  Forall (fun g => consistent g
                   /\ (progress g = 0 \/ progress g = 50 \/ progress g = 100)%Z
                   /\ Js.trim (goal g) = goal g)
         (extractGoals toLowerCase text)
  /\ length (extractGoals toLowerCase text)
     = length (filter (fun line => Js.truthy (Js.trim line))
                      (Js.split Js.nl text)).
Proof.
  unfold extractGoals. split; [|apply length_map].
  apply Forall_map, Forall_forall. intros line _.
  unfold extractGoals_line, consistent. cbv zeta.
  cbn [status progress goal].
  split; [|split; [|apply trim_trim]];
    destruct (Js.includes (Js.lit "achieved") _);
    try destruct (Js.includes (Js.lit "progress") _);
    auto.
Qed.

Lemma match_pair_here_captures s w d len :
  Js.match_pair_here s = Some (w, d, len) ->
  w <> [] /\ d <> [] /\ forallb Js.is_digit d = true.
Proof.
  unfold Js.match_pair_here.
  destruct (Js.take_while Js.is_word s) as [|c w'] eqn:Ew; [discriminate|].
  destruct (Js.drop_while Js.is_word s) as [|c1 r1]; [discriminate|].
  destruct (N.eq_dec c1 58) as [->|Hc].
  2:{ destruct c1 as [|p]; try discriminate.
      do 6 (destruct p as [p|p|]; try discriminate). congruence. }
  cbv zeta.
  destruct (Js.take_while Js.is_digit (Js.drop_while Js.is_space r1))
    as [|c2 d'] eqn:Ed; [discriminate|].
  destruct (Js.starts_with [37%N] _); [|discriminate].
  intros H. inversion H; subst. split; [discriminate|]. split; [discriminate|].
  rewrite <- Ed. apply take_while_forallb.
Qed.

Lemma match_pairs_aux_captures s :
  forall skip,
    Forall (fun m => fst m <> [] /\ snd m <> []
                     /\ forallb Js.is_digit (snd m) = true)
           (Js.match_pairs_aux skip s).
Proof.
  induction s as [|c s IH]; intros skip; cbn [Js.match_pairs_aux];
    [constructor|].
  destruct skip as [|k]; [|apply IH].
  destruct (Js.match_pair_here (c :: s)) as [[[w d] len]|] eqn:E; [|apply IH].
  constructor; [|apply IH].
  cbn [fst snd]. eapply match_pair_here_captures; eauto.
Qed.

(** X21: every entry of the emotion list has a timestamp and an emotion
    that are not empty and have no white space at their ends, and there is
    at most one entry per line of the answer; every dominant emotion has a
    name that is not empty and a percentage that is not negative. *)
Theorem analyzeEmotions_parse_entries (response : jsstring) :
  Forall (fun e => em_timestamp e <> [] /\ em_emotion e <> []
                   /\ Js.trim (em_timestamp e) = em_timestamp e
                   /\ Js.trim (em_emotion e) = em_emotion e)
         (ea_emotions (analyzeEmotions_parse response))
  /\ length (ea_emotions (analyzeEmotions_parse response))
     <= length (Js.split Js.nl response)
  /\ Forall (fun d => dom_emotion d <> [] /\ (0 <= dom_percentage d)%Z)
            (ea_dominantEmotions (analyzeEmotions_parse response)).
Proof.
  unfold analyzeEmotions_parse. cbv zeta.
  cbn [ea_emotions ea_dominantEmotions].
  assert (Hline : forall line,
    Forall (fun e => em_timestamp e <> [] /\ em_emotion e <> []
                   /\ Js.trim (em_timestamp e) = em_timestamp e
                   /\ Js.trim (em_emotion e) = em_emotion e)
           (analyzeEmotions_line line)
    /\ length (analyzeEmotions_line line) <= 1).
  { intros line. unfold analyzeEmotions_line. cbv zeta.
    destruct (nth_error _ 0) as [ts|] eqn:E0; [|split; [constructor|simpl; lia]].
    destruct (nth_error _ 1) as [em|] eqn:E1; [|split; [constructor|simpl; lia]].
    destruct (nth_error _ 2) as [v|]; [|split; [constructor|simpl; lia]].
    destruct (Js.truthy ts) eqn:Ht; cbn [andb];
      [|split; [constructor|simpl; lia]].
    destruct (Js.truthy em) eqn:He; cbn [andb];
      [|split; [constructor|simpl; lia]].
    destruct (Js.truthy v); [|split; [constructor|simpl; lia]].
    split; [|simpl; lia].
    constructor; [|constructor]. cbn [em_timestamp em_emotion].
    apply nth_error_In, in_map_iff in E0 as (x0 & <- & _).
    apply nth_error_In, in_map_iff in E1 as (x1 & <- & _).
    repeat split; try apply trim_trim.
    - intros E. rewrite E in Ht. discriminate.
    - intros E. rewrite E in He. discriminate. }
  split; [|split].
  - apply Forall_forall. intros e Hin.
    apply in_flat_map in Hin as (line & _ & Hin).
    destruct (Hline line) as [Hall _]. rewrite Forall_forall in Hall. auto.
  - etransitivity; [|apply (filter_length_le
                            (Js.includes (Js.lit "|")) (Js.split Js.nl response))].
    induction (filter _ _) as [|line lines IH]; [simpl; lia|].
    cbn [flat_map]. rewrite length_app. cbn [length].
    destruct (Hline line) as [_ Hl]. lia.
  - destruct (nth_error _ 1) as [section|]; [|constructor].
    destruct (Js.truthy section); [|constructor].
    apply Forall_map. unfold Js.match_pairs_g.
    eapply Forall_impl; [|apply match_pairs_aux_captures].
    intros [w d] (Hw & Hd & Hdig). cbn [fst snd dom_emotion dom_percentage] in *.
    split; [exact Hw|].
    rewrite (JsFacts.parseInt_digits Hd Hdig). cbn [Js.or_zero].
    now apply JsFacts.digits_value_nonneg.
Qed.

(** X22: every goal of the goal list has a title and a description without
    white space at their ends, and there is at most one goal per block of
    the answer. *)
Theorem analyzeGoals_parse_trimmed (response : jsstring) :
  Forall (fun g => Js.trim (title g) = title g
                   /\ Js.trim (description g) = description g)
         (analyzeGoals_parse response)
  /\ length (analyzeGoals_parse response)
     <= length (Js.split (Js.nl ++ Js.nl) response).
Proof.
  unfold analyzeGoals_parse. split.
  - apply Forall_forall. intros g Hin.
    apply in_flat_map in Hin as (section & _ & Hin).
    pose proof (analyzeGoals_section_cases section) as C.
    destruct (Js.match_label_rest (Js.lit "Title: ") section);
      [destruct (Js.match_label_rest (Js.lit "Description: ") section)|];
      [destruct C as (p & st & E & _)|rewrite C in Hin..];
      try contradiction.
    rewrite E in Hin. destruct Hin as [<-|[]]. cbn [title description].
    split; apply trim_trim.
  - induction (Js.split (Js.nl ++ Js.nl) response) as [|section l IH];
      [simpl; lia|].
    cbn [flat_map]. rewrite length_app. cbn [length].
    pose proof (analyzeGoals_section_cases section) as C.
    destruct (Js.match_label_rest (Js.lit "Title: ") section);
      [destruct (Js.match_label_rest (Js.lit "Description: ") section)|];
      [destruct C as (p & st & -> & _)|rewrite C..]; simpl; lia.
Qed.

Lemma bullet_lines_trimmed label section :
  Forall (fun item => Js.trim item = item) (bullet_lines label section).
Proof.
  unfold bullet_lines. apply Forall_map, Forall_forall. intros line _.
  apply trim_trim.
Qed.

(** X23: every strength, challenge and recommendation of the improvement
    list has no white space at its ends, and an answer without a block
    that starts with one of the three labels gives three empty lists. *)
Theorem analyzeImprovements_parse_items (response : jsstring) :
  (let improvements := analyzeImprovements_parse response in
   Forall (fun item => Js.trim item = item)
          (strengths improvements ++ challenges improvements
           ++ recommendations improvements))
  /\ (forallb (fun section =>
                 negb (Js.starts_with (Js.lit "Strengths:") section
                       || Js.starts_with (Js.lit "Challenges:") section
                       || Js.starts_with (Js.lit "Recommendations:") section))
              (Js.split (Js.nl ++ Js.nl) response) = true ->
      analyzeImprovements_parse response = mkImprovements [] [] []).
Proof.
  unfold analyzeImprovements_parse. split.
  - cbv zeta.
    assert (Hinv : forall sections improvements,
      Forall (fun item => Js.trim item = item)
             (strengths improvements ++ challenges improvements
              ++ recommendations improvements) ->
      Forall (fun item => Js.trim item = item)
             (strengths (fold_left analyzeImprovements_section sections improvements)
              ++ challenges (fold_left analyzeImprovements_section sections improvements)
              ++ recommendations (fold_left analyzeImprovements_section sections improvements))).
    { induction sections as [|section sections IH]; intros imp H; [exact H|].
      cbn [fold_left]. apply IH.
      apply Forall_app in H as [Hs H]. apply Forall_app in H as [Hc Hr].
      unfold analyzeImprovements_section.
      destruct (Js.starts_with (Js.lit "Strengths:") section);
        [|destruct (Js.starts_with (Js.lit "Challenges:") section);
          [|destruct (Js.starts_with (Js.lit "Recommendations:") section)]];
        cbn [strengths challenges recommendations];
        repeat (apply Forall_app; split);
        auto using bullet_lines_trimmed. }
    apply Hinv. constructor.
  - generalize (mkImprovements [] [] []) as imp.
    induction (Js.split (Js.nl ++ Js.nl) response) as [|section l IH];
      intros imp H; [reflexivity|].
    cbn [forallb] in H. apply andb_true_iff in H as [Hs Hl].
    cbn [fold_left]. rewrite <- (IH imp Hl) at 2.
    f_equal. unfold analyzeImprovements_section.
    apply negb_true_iff in Hs. apply orb_false_iff in Hs as [Hs Hr].
    apply orb_false_iff in Hs as [Hs Hc]. now rewrite Hs, Hc, Hr.
Qed.

Lemma In_slice_last {A} n (l : list A) x : In x (Js.slice_last n l) -> In x l.
Proof.
  unfold Js.slice_last. intros H.
  rewrite <- (firstn_skipn (length l - n) l). apply in_or_app. auto.
Qed.

Lemma last_map_Some_In {A} (l : list A) x :
  last (map Some l) None = Some x -> In x l.
Proof.
  induction l as [|y l IH] using rev_ind; [discriminate|].
  rewrite map_app. cbn [map]. rewrite last_last. intros H.
  inversion H; subst. apply in_or_app. right. simpl. auto.
Qed.

Lemma mergeGoals_consistent_aux previousGoals newGoals :
  Forall consistent previousGoals ->
  Forall consistent newGoals ->
  Forall consistent (mergeGoals previousGoals newGoals).
Proof.
  intros Hp Hn.
  destruct (mergeGoals_carried newGoals previousGoals)
    as (kept & app & -> & Hk & _ & Happ).
  apply Forall_app. split.
  - clear - Hp Hk. induction Hk as [|a b l l' (_ & _ & Hab) _ IH];
      constructor; inversion Hp; subst; auto.
  - apply Forall_forall. intros g' Hg'.
    rewrite Forall_forall in Happ, Hn.
    destruct (Happ g' Hg') as (x & Hx & (_ & _ & Hc)). auto.
Qed.

(** X24: ending a session keeps the store consistent: when every goal of
    every stored record has the status of its progress, so has every goal
    of the record returned and of every record stored afterwards. *)
Theorem endSession_keeps_store_consistent (env : Env)
    (messages : list Message) (w : World) (final : ProgressData)
    (w' : World) :
  endSession env (ArrayArg messages) w = (Ok final, w') ->
  store_consistent (storage w) ->
  Forall consistent (goals final) /\ store_consistent (storage w').
Proof.
  intros H Hstore.
  assert (Hne : messages <> []).
  { intros ->. discriminate H. }
  destruct (endSession_run env w Hne) as (evs0 & _ & _ & R).
  destruct (trackProgressWithEmotions_cases env
              (mkWorld (storage w) (trace w ++ evs0)) Hne)
    as (pd & Hagg & [(w1 & Et & Hst1 & _)|(w1 & Et & _)]);
    rewrite Et in R; [|rewrite R in H; discriminate].
  cbn [storage] in Hst1.
  destruct R as (trend & evs2 & analysis & evs3 & _ & _ & _ & _ & _ & _ & R).
  destruct (generateComprehensiveSummary (sessionSummary pd) analysis)
    as [summary|e].
  2:{ destruct R as [_ R]. rewrite R in H. discriminate. }
  set (latest := last (map Some (stored_history (storage w))) None) in *.
  destruct (saveProgress_cases env (session_record latest pd trend summary)
              (mkWorld (storage w1) ((trace w1 ++ evs2) ++ evs3)))
    as [(w4 & Es & Hst4 & _)|(w4 & Es & _)];
    rewrite Es in R; rewrite R in H; [|discriminate].
  inversion H; subst final w'. cbn [storage] in Hst4.
  assert (Hpd : Forall consistent (goals pd)).
  { destruct Hagg as [Hg _]. eapply Forall_impl; [|exact Hg].
    intros g [Hc _]. exact Hc. }
  assert (Hfinal : Forall consistent
                     (goals (session_record latest pd trend summary))).
  { unfold session_record. cbn [goals].
    destruct latest as [l|] eqn:El; [|exact Hpd].
    apply mergeGoals_consistent_aux; [|exact Hpd].
    apply Hstore. now apply last_map_Some_In. }
  split; [exact Hfinal|].
  unfold store_consistent. rewrite Hst4, stored_history_written.
  intros d Hd. apply In_slice_last, in_app_or in Hd as [Hd|[<-|[]]];
    [|exact Hfinal].
  rewrite Hst1, stored_history_written in Hd.
  apply In_slice_last, in_app_or in Hd as [Hd|[<-|[]]]; [|exact Hpd].
  now apply Hstore.
Qed.

Lemma endSession_keeps_store_consistent_witness :
  length (stored_history (storage MoreSamples.one_record_store)) = 1
  /\ store_consistent (storage MoreSamples.one_record_store)
  /\ store_consistent (storage (snd
       (endSession Sample.env (ArrayArg Sample.messages)
                   MoreSamples.one_record_store)))
  /\ length (stored_history (storage (snd
       (endSession Sample.env (ArrayArg Sample.messages)
                   MoreSamples.one_record_store)))) = 3.
Proof.
  assert (Hstore : store_consistent (storage MoreSamples.one_record_store)).
  { intros d Hd. vm_compute in Hd. destruct Hd as [<-|[]].
    repeat constructor. }
  split; [reflexivity|]. split; [exact Hstore|].
  split; [|vm_compute; reflexivity].
  refine (proj2 (@endSession_keeps_store_consistent Sample.env Sample.messages
            MoreSamples.one_record_store
            (match fst (endSession Sample.env (ArrayArg Sample.messages)
                                   MoreSamples.one_record_store) with
             | Ok final => final
             | Throw _ => Sample.record ""
             end)
            (snd (endSession Sample.env (ArrayArg Sample.messages)
                             MoreSamples.one_record_store)) _ Hstore)).
  vm_compute. reflexivity.
Defined.

(** X25: every item that [extractListItems] returns has no white space at
    its ends, there are no more items than lines in the section searched,
    and when no section contains the header nothing is extracted. *)
Theorem extractListItems_items (sections : list jsstring)
    (header : jsstring) :
  Forall (fun item => Js.trim item = item) (extractListItems sections header)
  /\ (forall section,
        find (Js.includes header) sections = Some section ->
        length (extractListItems sections header)
        <= length (Js.split Js.nl section))
  /\ ((forall section, In section sections ->
                       Js.includes header section = false) ->
      extractListItems sections header = []).
Proof.
  unfold extractListItems. split; [|split].
  - apply Forall_map, Forall_forall. intros line _. apply trim_trim.
  - intros section ->. rewrite length_map. apply filter_length_le.
  - intros Hno.
    destruct (find (Js.includes header) sections) as [section|] eqn:E.
    + apply find_some in E as [Hin Hs]. rewrite (Hno _ Hin) in Hs.
      discriminate.
    + reflexivity.
Qed.
